(** * Degraded-battery OCV model: forward solver and diagnostics estimator

    Shallow embedding of [api/services/ocv_pristine.py],
    [api/services/ocv_degraded.py] and the estimation endpoint of
    [api/main.py].

    - Python [float] and NumPy [float64] are IEEE-754 binary64: Rocq's
      primitive [float], whose operations are specified against
      [SpecFloat] by the axioms of [FloatAxioms].
    - One-dimensional NumPy arrays are lists.
    - A Python call either returns or raises: [outcome].
    - SciPy's root finder, local optimiser and interpolator, NumPy's
      random generator and its pairwise-summed mean are black boxes
      collected in the class [Backend]; every statement below holds for
      any implementation of them. *)

From Stdlib Require Import String.
From Stdlib Require Import ZArith List Bool Floats Lia Sorted Permutation.
Import ListNotations.

Set Warnings "-inexact-float".

(* ================================================================== *)
(** * Python outcomes *)
(* ================================================================== *)

Inductive py_exception : Type :=
| ValueError (msg : string)
| KeyError (key : string)
| IndexError
| ZeroDivisionError
| LibraryError.

Inductive outcome (A : Type) : Type :=
| Returns (a : A)
| Raises (e : py_exception).

Arguments Returns {A} a.
Arguments Raises {A} e.

Definition bind {A B : Type} (m : outcome A) (k : A -> outcome B) : outcome B :=
  match m with
  | Returns a => k a
  | Raises e => Raises e
  end.

Notation "x <- m ;; k" := (bind m (fun x => k))
  (at level 61, m at next level, right associativity).

(* ================================================================== *)
(** * Floats *)
(* ================================================================== *)

Local Open Scope float_scope.

(** Python's [x / y] on two [float]s raises on a zero divisor; NumPy's
    array division does not. *)
Definition py_truediv (x y : float) : outcome float :=
  if y =? 0 then Raises ZeroDivisionError else Returns (x / y).

Definition np_isfinite (x : float) : bool := is_finite x.

(** [float(i)] for a non-negative Python [int] below [2^63]. *)
Definition float_of_Z (z : Z) : float := of_uint63 (Uint63.of_Z z).

(** The value of a float as an integer multiple of [2^-1074], with the
    infinities placed beyond every finite value.  Only used in proofs
    about the order of floats. *)
Definition key (x : spec_float) : Z :=
  match x with
  | S754_zero _ => 0
  | S754_infinity s => cond_Zopp s (2 ^ 2100)
  | S754_nan => 0
  | S754_finite s m e => cond_Zopp s (Zpos m * 2 ^ (e + 1074))
  end.

Definition fkey (x : float) : Z := key (Prim2SF x).

Definition sf_is_nan (x : spec_float) : bool :=
  match x with S754_nan => true | _ => false end.

Definition sf_is_finite (x : spec_float) : bool :=
  match x with S754_zero _ | S754_finite _ _ _ => true | _ => false end.

Definition signed_nonzero (s : bool) (x : spec_float) : Prop :=
  x = S754_infinity s \/ exists m e, x = S754_finite s m e.

(* ================================================================== *)
(** * NumPy array primitives *)
(* ================================================================== *)

Fixpoint zip_with {A B C : Type} (f : A -> B -> C) (a : list A) (b : list B) : list C :=
  match a, b with
  | x :: a', y :: b' => f x y :: zip_with f a' b'
  | _, _ => []
  end.

(** Binary ufunc on two 1-d arrays: shapes [(n,)] and [(m,)] broadcast
    when [n = m] or one of them is 1.  NumPy's message also quotes the
    two shapes. *)
Definition np_broadcast (f : float -> float -> float) (a b : list float)
  : outcome (list float) :=
  if (length a =? length b)%nat then Returns (zip_with f a b)
  else match a, b with
       | [x], _ => Returns (map (f x) b)
       | _, [y] => Returns (map (fun x => f x y) a)
       | _, _ => Raises (ValueError "operands could not be broadcast together"%string)
       end.

(** [np.diff(a)] for a 1-d array: [a[1:] - a[:-1]]. *)
Fixpoint np_diff (a : list float) : list float :=
  match a with
  | x :: ((y :: _) as tl) => (y - x) :: np_diff tl
  | _ => []
  end.

(** [np.maximum(x, y)]: [x if (x >= y or isnan(x)) else y]. *)
Definition np_maximum (x y : float) : float :=
  if (y <=? x) || is_nan x then x else y.

Definition np_any (m : list bool) : bool := existsb (fun b => b) m.

(** [a[mask]] with a boolean mask. *)
Fixpoint compress {A : Type} (a : list A) (mask : list bool) : list A :=
  match a, mask with
  | x :: a', b :: m' => if b then x :: compress a' m' else compress a' m'
  | _, _ => []
  end.

Definition np_getmask {A : Type} (a : list A) (mask : list bool) : outcome (list A) :=
  if (length a =? length mask)%nat then Returns (compress a mask)
  else Raises IndexError.

(** [out[mask] = y[mask]] where [out], [mask] and [y] have one shape. *)
Fixpoint put_where (out : list float) (mask : list bool) (y : list float) : list float :=
  match out, mask, y with
  | o :: out', b :: m', v :: y' => (if b then v else o) :: put_where out' m' y'
  | _, _, _ => out
  end.

Definition np_putmask (out : list float) (mask : list bool) (y : list float)
  : outcome (list float) :=
  if ((length out =? length mask) && (length y =? length mask))%nat
  then Returns (put_where out mask y)
  else Raises IndexError.

Definition np_full_like (y : list float) (v : float) : list float :=
  map (fun _ => v) y.

Definition np_arange (num : nat) : list float :=
  map (fun i => float_of_Z (Z.of_nat i)) (seq 0 num).

(** [y[-1] = v]. *)
Definition set_last (y : list float) (v : float) : list float :=
  match y with
  | [] => []
  | _ => removelast y ++ [v]
  end.

(** [np.linspace(start, stop, num)] with [endpoint=True], as NumPy
    computes it: [arange(num) * step + start] with the last sample
    overwritten by [stop], and the fallback for a step that underflows
    to zero.  NumPy's message for a negative [num] also quotes the
    number. *)
Definition np_linspace (start stop : float) (num : Z) : outcome (list float) :=
  if (num <? 0)%Z
  then Raises (ValueError "Number of samples must be non-negative"%string)
  else
    let div := (num - 1)%Z in
    let delta := stop - start in
    let y := np_arange (Z.to_nat num) in
    let y :=
      if (0 <? div)%Z then
        let step := delta / float_of_Z div in
        if step =? 0
        then map (fun v => v / float_of_Z div * delta) y
        else map (fun v => v * step) y
      else map (fun v => v * delta) y in
    let y := map (fun v => v + start) y in
    Returns (if (1 <? num)%Z then set_last y stop else y).

(** [np.argsort(a)] on NaN-free data, as a stable insertion sort over the
    indices (NumPy leaves the relative order of equal keys open). *)
Fixpoint insert_index (a : list float) (i : nat) (idx : list nat) : list nat :=
  match idx with
  | [] => [i]
  | j :: idx' =>
      if nth i a nan <=? nth j a nan then i :: idx
      else j :: insert_index a i idx'
  end.

Definition np_argsort (a : list float) : list nat :=
  fold_right (insert_index a) [] (seq 0 (length a)).

(** [a[idx]] with an integer index array. *)
Definition np_take (a : list float) (idx : list nat) : list float :=
  map (fun i => nth i a nan) idx.

(* ================================================================== *)
(** * External numerical libraries *)
(* ================================================================== *)

Definition vec2 : Type := float * float.
Definition vec3 : Type := float * float * float.

(** [scipy.optimize.OptimizeResult]: the fields the estimator reads. *)
Record OptimizeResult : Type := {
  res_fun : option float;
  res_x : vec3
}.

Class Backend : Type := {
  (** [fsolve(func, x0, full_output=True, xtol, maxfev)]: the solution
      and the status flag [ier], or an exception. *)
  fsolve : (vec2 -> outcome vec2) -> vec2 -> float -> Z -> outcome (vec2 * Z);
  (** [minimize(fun, x0, bounds=[(0,1)]*3, method='SLSQP',
      options={maxiter, ftol=1e-12})]. *)
  minimize : (vec3 -> outcome float) -> vec3 -> Z -> outcome OptimizeResult;
  (** [np.random.default_rng(seed)] and [Generator.random((n, 3))]. *)
  Generator : Type;
  default_rng : option Z -> outcome Generator;
  rng_random : Generator -> Z -> outcome (list vec3);
  (** [interp1d(x, y, kind='linear', fill_value='extrapolate',
      assume_sorted=True)(x_new)]. *)
  interp1d_linear : list float -> list float -> list float -> outcome (list float);
  (** [np.mean] of a 1-d array (NaN for an empty one). *)
  np_mean : list float -> float
}.

(* ================================================================== *)
(** * api/services/ocv_pristine.py *)
(* ================================================================== *)

Module ocv_pristine.

Record HalfCellCurve : Type := {
  sol : list float;
  ocv : list float;
  (** The PCHIP interpolant, applied point by point to a query array. *)
  interp_extrapolate : float -> float;
  sol_min : float;
  sol_max : float
}.

Definition eval_ocv (self : HalfCellCurve) (sol_query : list float)
  (allow_extrapolation : bool) : outcome (list float) :=
  let y := map (interp_extrapolate self) sol_query in
  if allow_extrapolation then Returns y
  else
    let mask :=
      map (fun q => (sol_min self <=? q) && (q <=? sol_max self)) sol_query in
    let out := np_full_like y nan in
    np_putmask out mask y.

(** The [endpoints] dictionary.  [build_pristine_cell_from_csv] reads all
    four keys while it builds the grid, so every cell it returns holds
    them. *)
Record Endpoints : Type := {
  sol_nmc_eoc : float;
  sol_nmc_eod : float;
  sol_gra_eoc : float;
  sol_gra_eod : float
}.

Record PristineCell : Type := {
  profile_id : string;
  nmc : HalfCellCurve;
  gra : HalfCellCurve;
  endpoints : Endpoints;
  x_grid : list float;
  ocv_nmc : list float;
  ocv_gra : list float;
  ocv_cell : list float;
  v_max : float;
  v_min : float
}.

Definition sol_nmc_from_x (self : PristineCell) (x : list float) : list float :=
  let eoc := sol_nmc_eoc (endpoints self) in
  let eod := sol_nmc_eod (endpoints self) in
  map (fun xi => eoc + xi * (eod - eoc)) x.

Definition sol_gra_from_x (self : PristineCell) (x : list float) : list float :=
  let eoc := sol_gra_eoc (endpoints self) in
  let eod := sol_gra_eod (endpoints self) in
  map (fun xi => eoc + xi * (eod - eoc)) x.

Definition ocv_nmc_from_x (self : PristineCell) (x : list float)
  (allow_extrapolation : bool) : outcome (list float) :=
  eval_ocv (nmc self) (sol_nmc_from_x self x) allow_extrapolation.

Definition ocv_gra_from_x (self : PristineCell) (x : list float)
  (allow_extrapolation : bool) : outcome (list float) :=
  eval_ocv (gra self) (sol_gra_from_x self x) allow_extrapolation.

End ocv_pristine.

(* ================================================================== *)
(** * api/services/ocv_degraded.py *)
(* ================================================================== *)

Module ocv_degraded.

Record DegradedOcvRaw : Type := {
  lli : float;
  lam_pe : float;
  lam_ne : float;
  delta_x_eoc : float;
  delta_x_eod : float;
  x_cell_eoc : float;
  x_cell_eod : float;
  cell_capacity : float;
  x_pe_eoc : float;
  x_pe_eod : float;
  x_ne_eoc : float;
  x_ne_eod : float;
  capacity_norm : list float;
  ocv_cell : list float
}.

Record MeasuredOcv : Type := {
  capacity : list float;
  ocv : list float
}.

(** The [theta] dictionary of an estimate. *)
Record ThetaDict : Type := {
  LLI : float;
  LAM_PE : float;
  LAM_NE : float
}.

Record DiagnosticsEstimate : Type := {
  theta : ThetaDict;
  rmse_v : float;
  mask_flat : list bool;
  predicted_ocv_at_measured : list float;
  starts_tried : Z;
  starts_success : Z
}.

(** What [loadmat] found under ["data"]: each field is missing, or is
    the flat float array that [np.asarray(field, dtype=float).reshape(-1)]
    makes of it.  A field that cannot be converted makes the source raise
    [ValueError] at that conversion; such a file is not a value of this
    type, so what is proved of the loader is about the files whose fields
    convert. *)
Record MatStruct : Type := {
  mat_capacity : option (list float);
  mat_ocv : option (list float)
}.

(** Calls on the random generator, in program order. *)
Inductive rng_event : Type :=
| RngSeeded (seed : option Z)
| RngDrawn (rows : Z).

(** The loop variables of the multistart search. *)
Record SearchState : Type := {
  best_x : option vec3;
  best_rmse : float;
  n_success : Z
}.

Definition penalty : float := 1e6.

(** [a[0]]. *)
Definition item0 (a : list float) : outcome float :=
  match a with
  | v :: _ => Returns v
  | [] => Raises IndexError
  end.

Definition _get_field (v : option (list float)) (name : string) : outcome (list float) :=
  match v with
  | Some a => Returns a
  | None => Raises (KeyError name)
  end.

Definition load_measured_ocv_from_mat (raw : option MatStruct) : outcome MeasuredOcv :=
  match raw with
  | None => Raises (ValueError "MAT file missing data"%string)
  | Some data =>
      cap <- _get_field (mat_capacity data) "capacity"%string ;;
      ocv_ <- _get_field (mat_ocv data) "ocv"%string ;;
      if negb (length cap =? length ocv_)%nat
      then Raises (ValueError "capacity and ocv arrays must have the same length"%string)
      else
        let mask := zip_with andb (map np_isfinite cap) (map np_isfinite ocv_) in
        cap_a <- np_getmask cap mask ;;
        ocv_a <- np_getmask ocv_ mask ;;
        if (length cap_a <? 3)%nat
        then Raises (ValueError "Measured data must have at least 3 finite points"%string)
        else
          let idx := np_argsort cap_a in
          Returns {| capacity := np_take cap_a idx; ocv := np_take ocv_a idx |}
  end.

Definition _gradient_mask (capacity ocv : list float) (gradient_limit : float)
  : outcome (list bool) :=
  let soc_diff := map abs (np_diff (map (fun c => c * 100) capacity)) in
  let ocv_diff := map abs (np_diff ocv) in
  let denom := map (np_maximum 1e-12) soc_diff in
  grad <- np_broadcast div ocv_diff denom ;;
  Returns (map (fun g => g <? gradient_limit) grad ++ [false]).

Section WithBackend.

Context {backend : Backend}.

Definition ocv_pe_from_x (pristine : ocv_pristine.PristineCell) (x : float) : outcome float :=
  y <- ocv_pristine.ocv_nmc_from_x pristine [x] true ;; item0 y.

Definition ocv_ne_from_x (pristine : ocv_pristine.PristineCell) (x : float) : outcome float :=
  y <- ocv_pristine.ocv_gra_from_x pristine [x] true ;; item0 y.

Definition equations (pristine : ocv_pristine.PristineCell) (lli lam_pe lam_ne : float)
  (vars_ : vec2) : outcome vec2 :=
  let v_max := ocv_pristine.v_max pristine in
  let v_min := ocv_pristine.v_min pristine in
  let dx_eoc := fst vars_ in
  let dx_eod := snd vars_ in
  a1 <- py_truediv dx_eoc (1 - lam_pe) ;;
  pe1 <- ocv_pe_from_x pristine a1 ;;
  b1 <- py_truediv (dx_eoc + lli - lam_ne) (1 - lam_ne) ;;
  ne1 <- ocv_ne_from_x pristine b1 ;;
  let eq_vmax := v_max - pe1 + ne1 in
  a2 <- py_truediv (dx_eod + 1 - lli) (1 - lam_pe) ;;
  pe2 <- ocv_pe_from_x pristine a2 ;;
  b2 <- py_truediv (dx_eod + 1 - lam_ne) (1 - lam_ne) ;;
  ne2 <- ocv_ne_from_x pristine b2 ;;
  let eq_vmin := v_min - pe2 + ne2 in
  Returns (eq_vmax, eq_vmin).

Definition calculate_degraded_ocv_raw (pristine : ocv_pristine.PristineCell)
  (lli lam_pe lam_ne : float) (num_points : Z) : outcome (option DegradedOcvRaw) :=
  if (1 - lam_pe <=? 0) || (1 - lam_ne <=? 0) then Returns None
  else
    let x0 := (0, 0) in
    match fsolve (equations pristine lli lam_pe lam_ne) x0 1e-10 2000 with
    | Raises _ => Returns None
    | Returns (sol, ier) =>
        if (ier <=? 0)%Z then Returns None
        else
          let delta_x_eoc := fst sol in
          let delta_x_eod := snd sol in
          x_pe_eoc <- py_truediv delta_x_eoc (1 - lam_pe) ;;
          x_pe_eod <- py_truediv (delta_x_eod + 1 - lli) (1 - lam_pe) ;;
          x_ne_eoc <- py_truediv (delta_x_eoc + lli - lam_ne) (1 - lam_ne) ;;
          x_ne_eod <- py_truediv (delta_x_eod + 1 - lam_ne) (1 - lam_ne) ;;
          let x_cell_eoc := delta_x_eoc in
          let x_cell_eod := 1 - lli + delta_x_eod in
          if negb (np_isfinite x_cell_eoc) || negb (np_isfinite x_cell_eod)
             || (x_cell_eod <=? x_cell_eoc)
          then Returns None
          else
            capacity_norm <- np_linspace x_cell_eoc x_cell_eod num_points ;;
            let cell_capacity := x_cell_eod - x_cell_eoc in
            let frac :=
              map (fun c => (c - x_cell_eoc) / (x_cell_eod - x_cell_eoc)) capacity_norm in
            let x_pe := map (fun f => x_pe_eoc + f * (x_pe_eod - x_pe_eoc)) frac in
            let x_ne := map (fun f => x_ne_eoc + f * (x_ne_eod - x_ne_eoc)) frac in
            ocv_pe <- ocv_pristine.ocv_nmc_from_x pristine x_pe true ;;
            ocv_ne <- ocv_pristine.ocv_gra_from_x pristine x_ne true ;;
            ocv_cell <- np_broadcast sub ocv_pe ocv_ne ;;
            Returns (Some {|
              lli := lli;
              lam_pe := lam_pe;
              lam_ne := lam_ne;
              delta_x_eoc := delta_x_eoc;
              delta_x_eod := delta_x_eod;
              x_cell_eoc := x_cell_eoc;
              x_cell_eod := x_cell_eod;
              cell_capacity := cell_capacity;
              x_pe_eoc := x_pe_eoc;
              x_pe_eod := x_pe_eod;
              x_ne_eoc := x_ne_eoc;
              x_ne_eod := x_ne_eod;
              capacity_norm := capacity_norm;
              ocv_cell := ocv_cell
            |})
    end.

(** [sqrt(mean(err * err))]. *)
Definition rmse_of (err : list float) : float :=
  sqrt (np_mean (map (fun e => e * e) err)).

(** The closure [objective] of [estimate_diagnostics_multistart], with
    the variables it captures as leading arguments. *)
Definition objective (pristine : ocv_pristine.PristineCell) (num_points : Z)
  (cap ocv : list float) (mask_flat : list bool) (theta : vec3) : outcome float :=
  let '(lli, lam_pe, lam_ne) := theta in
  degraded <- calculate_degraded_ocv_raw pristine lli lam_pe lam_ne num_points ;;
  match degraded with
  | None => Returns penalty
  | Some d =>
      if negb (np_isfinite (cell_capacity d)) || (cell_capacity d <=? 0)
      then Returns penalty
      else
        let pred_capacity := map (fun c => c - x_cell_eoc d) (capacity_norm d) in
        let pred_ocv := ocv_cell d in
        if (length pred_capacity <? 2)%nat then Returns penalty
        else
          match interp1d_linear pred_capacity pred_ocv cap with
          | Raises _ => Returns penalty
          | Returns pred_at_meas =>
              p <- np_getmask pred_at_meas mask_flat ;;
              m <- np_getmask ocv mask_flat ;;
              err <- np_broadcast sub p m ;;
              let rmse := rmse_of err in
              if negb (np_isfinite rmse) then Returns penalty else Returns rmse
          end
  end.

(** One iteration of [for x0 in starts]. *)
Definition multistart_step (obj : vec3 -> outcome float) (maxiter : Z)
  (st : SearchState) (x0 : vec3) : SearchState :=
  match minimize obj x0 maxiter with
  | Raises _ => st
  | Returns res =>
      match res_fun res with
      | None => st
      | Some fun_ =>
          if np_isfinite fun_ then
            let n := (n_success st + 1)%Z in
            if fun_ <? best_rmse st
            then {| best_x := Some (res_x res); best_rmse := fun_; n_success := n |}
            else {| best_x := best_x st; best_rmse := best_rmse st; n_success := n |}
          else st
      end
  end.

Definition initial_state : SearchState :=
  {| best_x := None; best_rmse := infinity; n_success := 0 |}.

Definition multistart_loop (obj : vec3 -> outcome float) (maxiter : Z)
  (starts : list vec3) : SearchState :=
  fold_left (multistart_step obj maxiter) starts initial_state.

(** Everything after the starts have been drawn. *)
Definition fit_from_starts (pristine : ocv_pristine.PristineCell)
  (cap ocv : list float) (mask_flat : list bool)
  (num_points num_starts maxiter : Z) (starts : list vec3)
  : outcome (option DiagnosticsEstimate) :=
  let obj := objective pristine num_points cap ocv mask_flat in
  let st := multistart_loop obj maxiter starts in
  match best_x st with
  | None => Returns None
  | Some (b0, b1, b2) =>
      if negb (np_isfinite (best_rmse st)) then Returns None
      else
        degraded_best <- calculate_degraded_ocv_raw pristine b0 b1 b2 num_points ;;
        match degraded_best with
        | None => Returns None
        | Some d =>
            let pred_capacity := map (fun c => c - x_cell_eoc d) (capacity_norm d) in
            pred_at_meas <- interp1d_linear pred_capacity (ocv_cell d) cap ;;
            Returns (Some {|
              theta := {| LLI := b0; LAM_PE := b1; LAM_NE := b2 |};
              rmse_v := best_rmse st;
              mask_flat := mask_flat;
              predicted_ocv_at_measured := pred_at_meas;
              starts_tried := num_starts;
              starts_success := n_success st
            |})
        end
  end.

(** The result is paired with the calls made on the random generator. *)
Definition estimate_diagnostics_multistart (pristine : ocv_pristine.PristineCell)
  (measured : MeasuredOcv) (num_points num_starts : Z) (seed : option Z)
  (gradient_limit : float) (maxiter : Z)
  : list rng_event * outcome (option DiagnosticsEstimate) :=
  let cap := capacity measured in
  let ocv_ := ocv measured in
  if (length cap <? 3)%nat then ([], Returns None)
  else
    match _gradient_mask cap ocv_ gradient_limit with
    | Raises e => ([], Raises e)
    | Returns mask_flat =>
        if negb (np_any mask_flat) then ([], Returns None)
        else
          match default_rng seed with
          | Raises e => ([RngSeeded seed], Raises e)
          | Returns rng =>
              match rng_random rng num_starts with
              | Raises e => ([RngSeeded seed; RngDrawn num_starts], Raises e)
              | Returns starts =>
                  ([RngSeeded seed; RngDrawn num_starts],
                   fit_from_starts pristine cap ocv_ mask_flat
                     num_points num_starts maxiter starts)
              end
          end
    end.

End WithBackend.

End ocv_degraded.

(* ================================================================== *)
(** * api/main.py: the estimation endpoint *)
(* ================================================================== *)

Module main.

(** The [debug] dictionary of a response. *)
Inductive DebugInfo : Type :=
| DebugReason (reason : string)
| DebugCounters (starts_tried starts_success num_flat : Z).

(** [DiagnosticsEstimateResponse] without its curve bundles. *)
Record DiagnosticsEstimateResponse : Type := {
  valid : bool;
  pristine_id : string;
  theta_deg : option ocv_degraded.ThetaDict;
  rmse_v : option float;
  debug : DebugInfo
}.

Section WithBackend.

Context {backend : Backend}.

(** [diagnostics_estimate] from the call of the estimator on: the request
    has been parsed, the profile found and the pristine cell built. *)
Definition diagnostics_estimate (pristine : ocv_pristine.PristineCell)
  (measured : ocv_degraded.MeasuredOcv) (n num_starts : Z) (seed : option Z)
  (gradient_limit : float) (maxiter : Z)
  : list ocv_degraded.rng_event * outcome DiagnosticsEstimateResponse :=
  let '(events, r) :=
    ocv_degraded.estimate_diagnostics_multistart
      pristine measured n num_starts seed gradient_limit maxiter in
  (events,
   est <- r ;;
   match est with
   | None =>
       Returns {|
         valid := false;
         pristine_id := ocv_pristine.profile_id pristine;
         theta_deg := None;
         rmse_v := None;
         debug := DebugReason "optimizer_failed_or_no_flat_region"%string
       |}
   | Some e =>
       let th := ocv_degraded.theta e in
       _degraded_best <-
         ocv_degraded.calculate_degraded_ocv_raw pristine
           (ocv_degraded.LLI th) (ocv_degraded.LAM_PE th) (ocv_degraded.LAM_NE th) n ;;
       Returns {|
         valid := true;
         pristine_id := ocv_pristine.profile_id pristine;
         theta_deg := Some th;
         rmse_v := Some (ocv_degraded.rmse_v e);
         debug :=
           DebugCounters (ocv_degraded.starts_tried e) (ocv_degraded.starts_success e)
             (Z.of_nat (List.length (filter (fun b => b) (ocv_degraded.mask_flat e))))
       |}
   end).

End WithBackend.

End main.

(* ================================================================== *)
(** * A concrete backend and cell, to run the model *)
(* ================================================================== *)

Module example.

(** Piecewise-linear interpolation through the samples, the outer
    segments extended. *)
Fixpoint lerp_at (x y : list float) (q : float) : float :=
  match x, y with
  | x0 :: ((x1 :: xs') as xt), y0 :: ((y1 :: _) as yt) =>
      match xs' with
      | [] => y0 + (y1 - y0) / (x1 - x0) * (q - x0)
      | _ :: _ =>
          if q <=? x1 then y0 + (y1 - y0) / (x1 - x0) * (q - x0)
          else lerp_at xt yt q
      end
  | _, _ => nan
  end.

Definition interp1d (x y x_new : list float) : outcome (list float) :=
  match x with
  | [] => Raises (ValueError "x and y arrays must have at least 1 entries"%string)
  | _ :: _ =>
      if (length x =? length y)%nat then Returns (map (lerp_at x y) x_new)
      else Raises (ValueError "x and y arrays must be equal in length"%string)
  end.

Definition mean (a : list float) : float :=
  fold_left add a 0 / float_of_Z (Z.of_nat (length a)).

(** A root finder that accepts its start point when the residual can be
    evaluated there. *)
Definition accept_start (func : vec2 -> outcome vec2) (x0 : vec2)
  (xtol : float) (maxfev : Z) : outcome (vec2 * Z) :=
  _residual <- func x0 ;; Returns (x0, 1%Z).

(** A local optimiser that stops at its start point. *)
Definition stay_put (f : vec3 -> outcome float) (x0 : vec3) (maxiter : Z)
  : outcome OptimizeResult :=
  v <- f x0 ;; Returns {| res_fun := Some v; res_x := x0 |}.

Definition seeded (seed : option Z) : outcome (option Z) :=
  match seed with
  | Some s =>
      if (s <? 0)%Z then Raises (ValueError "expected non-negative integer"%string)
      else Returns seed
  | None => Returns None
  end.

(** Row [i] of the sample is [(i/8, 0, 0)]. *)
Definition rows (g : option Z) (n : Z) : outcome (list vec3) :=
  if (n <? 0)%Z then Raises (ValueError "negative dimensions are not allowed"%string)
  else Returns (map (fun i => (float_of_Z (Z.of_nat i) / 8, 0, 0)) (seq 0 (Z.to_nat n))).

Definition backend : Backend := {|
  fsolve := accept_start;
  minimize := stay_put;
  Generator := option Z;
  default_rng := seeded;
  rng_random := rows;
  interp1d_linear := interp1d;
  np_mean := mean
|}.

Definition positive_curve : ocv_pristine.HalfCellCurve := {|
  ocv_pristine.sol := [0; 1];
  ocv_pristine.ocv := [4; 3];
  ocv_pristine.interp_extrapolate := fun s => 4 - s;
  ocv_pristine.sol_min := 0;
  ocv_pristine.sol_max := 1
|}.

Definition negative_curve : ocv_pristine.HalfCellCurve := {|
  ocv_pristine.sol := [0; 1];
  ocv_pristine.ocv := [0.5; 0.25];
  ocv_pristine.interp_extrapolate := fun s => 0.5 - 0.25 * s;
  ocv_pristine.sol_min := 0;
  ocv_pristine.sol_max := 1
|}.

(** Full-cell curve [3.75 - 1.25 x] on [[0, 1]]. *)
Definition cell : ocv_pristine.PristineCell := {|
  ocv_pristine.profile_id := "demo"%string;
  ocv_pristine.nmc := positive_curve;
  ocv_pristine.gra := negative_curve;
  ocv_pristine.endpoints := {|
    ocv_pristine.sol_nmc_eoc := 0;
    ocv_pristine.sol_nmc_eod := 1;
    ocv_pristine.sol_gra_eoc := 1;
    ocv_pristine.sol_gra_eod := 0
  |};
  ocv_pristine.x_grid := [0; 0.5; 1];
  ocv_pristine.ocv_nmc := [4; 3.5; 3];
  ocv_pristine.ocv_gra := [0.25; 0.375; 0.5];
  ocv_pristine.ocv_cell := [3.75; 3.125; 2.5];
  ocv_pristine.v_max := 3.75;
  ocv_pristine.v_min := 2.5
|}.

(** Five points of the pristine curve: flat everywhere at limit 0.1. *)
Definition flat_series : ocv_degraded.MeasuredOcv := {|
  ocv_degraded.capacity := [0; 0.25; 0.5; 0.75; 1];
  ocv_degraded.ocv := [3.75; 3.4375; 3.125; 2.8125; 2.5]
|}.

(** One volt per percent of capacity: steeper than any limit below 1. *)
Definition steep_series : ocv_degraded.MeasuredOcv := {|
  ocv_degraded.capacity := [0; 0.25; 0.5; 0.75];
  ocv_degraded.ocv := [100; 75; 50; 25]
|}.

(** Two measured points share the capacity 1. *)
Definition repeated_capacity : ocv_degraded.MatStruct := {|
  ocv_degraded.mat_capacity := Some [2; 1; 1];
  ocv_degraded.mat_ocv := Some [3; 4; 5]
|}.

End example.

(* ================================================================== *)
(** * Vocabulary of the specification *)
(* ================================================================== *)

(** The query lies in the table domain [[sol_min, sol_max]]. *)
Definition in_domain (self : ocv_pristine.HalfCellCurve) (q : float) : bool :=
  (ocv_pristine.sol_min self <=? q) && (q <=? ocv_pristine.sol_max self).

(** The gradient between measured points [i] and [i+1], in volts per
    percent of capacity: [|d ocv| / max(|d (100 capacity)|, 1e-12)]. *)
Definition gradient_at (capacity ocv : list float) (i : nat) : float :=
  abs (nth (S i) ocv 0 - nth i ocv 0)
  / np_maximum 1e-12 (abs (nth (S i) capacity 0 * 100 - nth i capacity 0 * 100)).

(** Every consecutive-point gradient exceeds the limit. *)
Definition steep_everywhere (capacity ocv : list float) (gradient_limit : float) : Prop :=
  forall i, (S i < length capacity)%nat ->
    (gradient_limit <? gradient_at capacity ocv i) = true.

(** The reason code of a response, when it carries one. *)
Definition reason_of (r : outcome main.DiagnosticsEstimateResponse) : option string :=
  match r with
  | Returns resp =>
      match main.debug resp with
      | main.DebugReason reason => Some reason
      | main.DebugCounters _ _ _ => None
      end
  | Raises _ => None
  end.

(** Sorted ascending: every entry is at most every later entry. *)
Definition ascending (a : list float) : Prop :=
  StronglySorted (fun x y => (x <=? y) = true) a.

(** The cleaned data: the pairs whose capacity and OCV are both finite. *)
Definition finite_pairs (cap ocv : list float) : list (float * float) :=
  filter (fun p => np_isfinite (fst p) && np_isfinite (snd p)) (combine cap ocv).

(** Sample [i] of [num] uniformly spaced values from [start] to [stop]:
    [i * step + start] with [step = (stop - start) / (num - 1)], the last
    sample being [stop] itself. *)
Definition linspace_sample (start stop : float) (num : Z) (i : nat) : float :=
  let div := (num - 1)%Z in
  if (1 <? num)%Z && (Z.of_nat i =? div)%Z then stop
  else
    let delta := stop - start in
    let k := float_of_Z (Z.of_nat i) in
    (if (0 <? div)%Z then
       let step := delta / float_of_Z div in
       if step =? 0 then k / float_of_Z div * delta else k * step
     else k * delta) + start.

(** The OCV of each electrode at a position [x] of its window, with
    extrapolation allowed: the interpolant, unmasked. *)
Definition pe_ocv_at (pristine : ocv_pristine.PristineCell) (x : float) : float :=
  let e := ocv_pristine.endpoints pristine in
  ocv_pristine.interp_extrapolate (ocv_pristine.nmc pristine)
    (ocv_pristine.sol_nmc_eoc e
     + x * (ocv_pristine.sol_nmc_eod e - ocv_pristine.sol_nmc_eoc e)).

Definition ne_ocv_at (pristine : ocv_pristine.PristineCell) (x : float) : float :=
  let e := ocv_pristine.endpoints pristine in
  ocv_pristine.interp_extrapolate (ocv_pristine.gra pristine)
    (ocv_pristine.sol_gra_eoc e
     + x * (ocv_pristine.sol_gra_eod e - ocv_pristine.sol_gra_eoc e)).

(** The root solve of [calculate_degraded_ocv_raw]. *)
Definition root_solve {backend : Backend} (pristine : ocv_pristine.PristineCell)
  (lli lam_pe lam_ne : float) : outcome (vec2 * Z) :=
  fsolve (ocv_degraded.equations pristine lli lam_pe lam_ne) (0, 0) 1e-10 2000.

(** The window bounds derived from a solution are non-finite or do not
    leave a positive width. *)
Definition degenerate_window (lli : float) (sol : vec2) : Prop :=
  let x_cell_eoc := fst sol in
  let x_cell_eod := 1 - lli + snd sol in
  is_finite x_cell_eoc = false \/ is_finite x_cell_eod = false \/
  (x_cell_eod <=? x_cell_eoc) = true.

(** The degraded curve sampled on [capacity_norm] for a solution [sol]
    of the boundary system: each capacity is mapped by its fractional
    position in the cell window into the window of each electrode, and
    the cell OCV is the difference of the electrode OCVs there. *)
Definition sampled_curve (pristine : ocv_pristine.PristineCell)
  (lli lam_pe lam_ne : float) (sol : vec2) (capacity_norm : list float)
  : ocv_degraded.DegradedOcvRaw :=
  let delta_x_eoc := fst sol in
  let delta_x_eod := snd sol in
  let x_pe_eoc := delta_x_eoc / (1 - lam_pe) in
  let x_pe_eod := (delta_x_eod + 1 - lli) / (1 - lam_pe) in
  let x_ne_eoc := (delta_x_eoc + lli - lam_ne) / (1 - lam_ne) in
  let x_ne_eod := (delta_x_eod + 1 - lam_ne) / (1 - lam_ne) in
  let x_cell_eoc := delta_x_eoc in
  let x_cell_eod := 1 - lli + delta_x_eod in
  {| ocv_degraded.lli := lli;
     ocv_degraded.lam_pe := lam_pe;
     ocv_degraded.lam_ne := lam_ne;
     ocv_degraded.delta_x_eoc := delta_x_eoc;
     ocv_degraded.delta_x_eod := delta_x_eod;
     ocv_degraded.x_cell_eoc := x_cell_eoc;
     ocv_degraded.x_cell_eod := x_cell_eod;
     ocv_degraded.cell_capacity := x_cell_eod - x_cell_eoc;
     ocv_degraded.x_pe_eoc := x_pe_eoc;
     ocv_degraded.x_pe_eod := x_pe_eod;
     ocv_degraded.x_ne_eoc := x_ne_eoc;
     ocv_degraded.x_ne_eod := x_ne_eod;
     ocv_degraded.capacity_norm := capacity_norm;
     ocv_degraded.ocv_cell :=
       map (fun c =>
              let frac := (c - x_cell_eoc) / (x_cell_eod - x_cell_eoc) in
              pe_ocv_at pristine (x_pe_eoc + frac * (x_pe_eod - x_pe_eoc))
              - ne_ocv_at pristine (x_ne_eoc + frac * (x_ne_eod - x_ne_eoc)))
           capacity_norm |}.



(** The gradient between measured points [i] and [i+1] with the
    capacity difference taken before the scaling by 100:
    [|d ocv| / max(|100 * d capacity|, 1e-12)]. *)
Definition gradient_of_difference (capacity ocv : list float) (i : nat) : float :=
  abs (nth (S i) ocv 0 - nth i ocv 0)
  / np_maximum 1e-12 (abs (100 * (nth (S i) capacity 0 - nth i capacity 0))).

(** The starts whose local optimisation returned a finite objective
    value, each with that value and its minimiser. *)
Definition successful_starts {backend : Backend} (obj : vec3 -> outcome float)
  (maxiter : Z) (starts : list vec3) : list (float * vec3) :=
  flat_map
    (fun x0 =>
       match minimize obj x0 maxiter with
       | Returns res =>
           match res_fun res with
           | Some f => if np_isfinite f then [(f, res_x res)] else []
           | None => []
           end
       | Raises _ => []
       end)
    starts.

(** The loop invariant of the multistart search over the successful
    starts [ok] seen so far. *)
Definition best_of (ok : list (float * vec3)) (st : ocv_degraded.SearchState) : Prop :=
  ocv_degraded.n_success st = Z.of_nat (length ok) /\
  ((ok = [] /\ ocv_degraded.best_x st = None /\
    ocv_degraded.best_rmse st = infinity) \/
   (exists x,
      ocv_degraded.best_x st = Some x /\
      In (ocv_degraded.best_rmse st, x) ok /\
      is_finite (ocv_degraded.best_rmse st) = true /\
      forall f y, In (f, y) ok -> (ocv_degraded.best_rmse st <=? f) = true)).

(* ================================================================== *)
(** * api/services/ocv_pristine.py: loading and building *)
(* ================================================================== *)

Module pristine_csv.

(** [np.minimum] and [np.maximum] reductions of a 1-d array: [a.min()],
    [a.max()]; an empty array has no minimum. *)
Definition np_minimum (x y : float) : float :=
  if (x <=? y) || is_nan x then x else y.

Definition np_amin (a : list float) : outcome float :=
  match a with
  | [] =>
      Raises (ValueError
                "zero-size array to reduction operation minimum which has no identity"%string)
  | x :: rest => Returns (fold_left np_minimum rest x)
  end.

Definition np_amax (a : list float) : outcome float :=
  match a with
  | [] =>
      Raises (ValueError
                "zero-size array to reduction operation maximum which has no identity"%string)
  | x :: rest => Returns (fold_left np_maximum rest x)
  end.

(** [a[-1]]. *)
Definition last_item (a : list float) : outcome float :=
  match a with
  | [] => Raises IndexError
  | x :: rest => Returns (last rest x)
  end.

(** [np.unique(sol_sorted, return_inverse=True)] on a sorted array,
    together with what [np.add.at] collects under each inverse index: the
    runs of equal neighbours, each with its first value and the OCV
    values of the run in array order. *)
Fixpoint group_runs (sol ocv : list float) : list (float * list float) :=
  match sol, ocv with
  | s :: sol', o :: ocv' =>
      match group_runs sol' ocv' with
      | (s', os) :: rest =>
          if s =? s' then (s, o :: os) :: rest
          else (s, [o]) :: (s', os) :: rest
      | [] => [(s, [o])]
      end
  | _, _ => []
  end.

(** [sums / counts] of one run, both accumulated from [0.0] in array
    order. *)
Definition run_mean (os : list float) : float :=
  fold_left add os 0 / fold_left (fun c _ => c + 1) os 0.

(** [_load_half_cell_csv] from the parsed table on: the argument is
    [None] when the array is not 2-d with at least two columns, else the
    first two columns of each row.  The messages are the source's
    without the quoted file name. *)
Definition _load_half_cell_csv (raw : option (list (float * float)))
  : outcome (list float * list float) :=
  match raw with
  | None => Raises (ValueError "CSV must have at least 2 columns: SOL, OCV"%string)
  | Some rows =>
      let sol := map fst rows in
      let ocv := map snd rows in
      let mask := zip_with andb (map np_isfinite sol) (map np_isfinite ocv) in
      sol <- np_getmask sol mask ;;
      ocv <- np_getmask ocv mask ;;
      if (length sol =? 0)%nat
      then Raises (ValueError "CSV contains no numeric SOL/OCV data"%string)
      else
        let idx := np_argsort sol in
        let sol_sorted := np_take sol idx in
        let ocv_sorted := np_take ocv idx in
        let runs := group_runs sol_sorted ocv_sorted in
        let sol_unique := map fst runs in
        let ocv_unique :=
          if negb (length sol_unique =? length sol_sorted)%nat
          then map (fun r => run_mean (snd r)) runs
          else ocv_sorted in
        if (length sol_unique <? 2)%nat
        then Raises (ValueError "CSV must contain at least 2 unique SOL points"%string)
        else Returns (sol_unique, ocv_unique)
  end.

(** [endpoints[k]] on the profile's dictionary. *)
Definition dict_get (d : list (string * float)) (k : string) : outcome float :=
  match find (fun kv => String.eqb (fst kv) k) d with
  | Some kv => Returns (snd kv)
  | None => Raises (KeyError k)
  end.

Section Build.

(** [PchipInterpolator(x, y, extrapolate=True)]: the interpolant, or an
    exception. *)
Variable PchipInterpolator : list float -> list float -> outcome (float -> float).

Definition build_pristine_cell_from_csv (profile_id : string)
  (nmc_raw gra_raw : option (list (float * float)))
  (endpoints : list (string * float)) (num_points : Z)
  : outcome ocv_pristine.PristineCell :=
  nmc_table <- _load_half_cell_csv nmc_raw ;;
  gra_table <- _load_half_cell_csv gra_raw ;;
  let sol_nmc := fst nmc_table in
  let ocv_nmc := snd nmc_table in
  let sol_gra := fst gra_table in
  let ocv_gra := snd gra_table in
  interp_nmc <- PchipInterpolator sol_nmc ocv_nmc ;;
  interp_gra <- PchipInterpolator sol_gra ocv_gra ;;
  nmc_min <- np_amin sol_nmc ;;
  nmc_max <- np_amax sol_nmc ;;
  let nmc_curve := {|
    ocv_pristine.sol := sol_nmc;
    ocv_pristine.ocv := ocv_nmc;
    ocv_pristine.interp_extrapolate := interp_nmc;
    ocv_pristine.sol_min := nmc_min;
    ocv_pristine.sol_max := nmc_max |} in
  gra_min <- np_amin sol_gra ;;
  gra_max <- np_amax sol_gra ;;
  let gra_curve := {|
    ocv_pristine.sol := sol_gra;
    ocv_pristine.ocv := ocv_gra;
    ocv_pristine.interp_extrapolate := interp_gra;
    ocv_pristine.sol_min := gra_min;
    ocv_pristine.sol_max := gra_max |} in
  x_grid <- np_linspace 0 1 num_points ;;
  nmc_eoc <- dict_get endpoints "sol_nmc_eoc"%string ;;
  nmc_eod <- dict_get endpoints "sol_nmc_eod"%string ;;
  let sol_nmc_grid := map (fun x => nmc_eoc + x * (nmc_eod - nmc_eoc)) x_grid in
  gra_eoc <- dict_get endpoints "sol_gra_eoc"%string ;;
  gra_eod <- dict_get endpoints "sol_gra_eod"%string ;;
  let sol_gra_grid := map (fun x => gra_eoc + x * (gra_eod - gra_eoc)) x_grid in
  ocv_nmc_grid <- ocv_pristine.eval_ocv nmc_curve sol_nmc_grid true ;;
  ocv_gra_grid <- ocv_pristine.eval_ocv gra_curve sol_gra_grid true ;;
  ocv_cell_grid <- np_broadcast sub ocv_nmc_grid ocv_gra_grid ;;
  v_max <- ocv_degraded.item0 ocv_cell_grid ;;
  v_min <- last_item ocv_cell_grid ;;
  Returns {|
    ocv_pristine.profile_id := profile_id;
    ocv_pristine.nmc := nmc_curve;
    ocv_pristine.gra := gra_curve;
    ocv_pristine.endpoints := {|
      ocv_pristine.sol_nmc_eoc := nmc_eoc;
      ocv_pristine.sol_nmc_eod := nmc_eod;
      ocv_pristine.sol_gra_eoc := gra_eoc;
      ocv_pristine.sol_gra_eod := gra_eod |};
    ocv_pristine.x_grid := x_grid;
    ocv_pristine.ocv_nmc := ocv_nmc_grid;
    ocv_pristine.ocv_gra := ocv_gra_grid;
    ocv_pristine.ocv_cell := ocv_cell_grid;
    ocv_pristine.v_max := v_max;
    ocv_pristine.v_min := v_min
  |}.

End Build.

End pristine_csv.

(* ================================================================== *)
(** * api/services/ocv_degraded.py: the plotting axis *)
(* ================================================================== *)

Module plotting.

(** [np.fmin] and [np.fmax], which skip a NaN operand, and their
    reductions [np.nanmin], [np.nanmax]. *)
Definition np_fmin (x y : float) : float :=
  if (x <=? y) || is_nan y then x else y.

Definition np_fmax (x y : float) : float :=
  if (y <=? x) || is_nan y then x else y.

Definition np_nanmin (a : list float) : outcome float :=
  match a with
  | [] =>
      Raises (ValueError
                "zero-size array to reduction operation fmin which has no identity"%string)
  | x :: rest => Returns (fold_left np_fmin rest x)
  end.

Definition np_nanmax (a : list float) : outcome float :=
  match a with
  | [] =>
      Raises (ValueError
                "zero-size array to reduction operation fmax which has no identity"%string)
  | x :: rest => Returns (fold_left np_fmax rest x)
  end.

(** Python's [min(a, b)] and [max(a, b)]: the first argument unless the
    second is strictly smaller, resp. larger. *)
Definition py_min (a b : float) : float := if b <? a then b else a.
Definition py_max (a b : float) : float := if a <? b then b else a.

Definition build_plot_axis (pristine_x : list float)
  (degraded : option ocv_degraded.DegradedOcvRaw) (pad : bool)
  : outcome (list float) :=
  x_min <- np_nanmin pristine_x ;;
  x_max <- np_nanmax pristine_x ;;
  let x_min :=
    match degraded with
    | Some d => py_min x_min (ocv_degraded.x_cell_eoc d)
    | None => x_min
    end in
  let x_max :=
    match degraded with
    | Some d => py_max x_max (ocv_degraded.x_cell_eod d)
    | None => x_max
    end in
  let size := Z.of_nat (length pristine_x) in
  if negb pad then np_linspace x_min x_max size
  else
    let span := py_max 1e-9 (x_max - x_min) in
    let pad_amt := 0.02 * span in
    np_linspace (x_min - pad_amt) (x_max + pad_amt) size.

(** [out[mask] = values] with a 1-d [values]: one value per true entry,
    or a single value for all of them. *)
Fixpoint scatter (out : list float) (mask : list bool) (values : list float)
  : list float :=
  match out, mask with
  | o :: out', b :: mask' =>
      if b then
        match values with
        | v :: values' => v :: scatter out' mask' values'
        | [] => o :: scatter out' mask' []
        end
      else o :: scatter out' mask' values
  | _, _ => out
  end.

Definition np_setmask (out : list float) (mask : list bool) (values : list float)
  : outcome (list float) :=
  if negb (length out =? length mask)%nat then Raises IndexError
  else
    let n := length (filter (fun b => b) mask) in
    if (length values =? n)%nat then Returns (scatter out mask values)
    else
      match values with
      | [v] => Returns (put_where out mask (map (fun _ => v) out))
      | _ => Raises (ValueError "cannot assign the input values to the masked output"%string)
      end.

(** One curve of the output: its values on the plot axis and where they
    are valid. *)
Record Curve : Type := {
  curve_ocv : list float;
  mask_valid : list bool
}.

Record CurveSet : Type := {
  cell : Curve;
  pe : Curve;
  ne : Curve
}.

(** The [results] dictionary of a valid degraded section. *)
Record WindowResults : Type := {
  delta_x_eoc : float;
  delta_x_eod : float;
  x_cell_eoc : float;
  x_cell_eod : float;
  cell_capacity : float;
  x_pe_eoc : float;
  x_pe_eod : float;
  x_ne_eoc : float;
  x_ne_eod : float
}.

Inductive DegradedSection : Type :=
| Invalid
| Valid (theta : ocv_degraded.ThetaDict) (results : WindowResults) (curves : CurveSet).

Record PlotCurves : Type := {
  pristine : CurveSet;
  degraded : DegradedSection
}.

Section Mapping.

(** [np.interp(x, xp, fp)]. *)
Variable np_interp : list float -> list float -> list float -> outcome (list float).

(** A curve that is NaN outside [mask] and [np.interp] of the masked
    axis points inside. *)
Definition interp_on_mask (x_plot : list float) (mask : list bool)
  (xp fp : list float) : outcome (list float) :=
  let out := np_full_like x_plot nan in
  xm <- np_getmask x_plot mask ;;
  values <- np_interp xm xp fp ;;
  np_setmask out mask values.

Definition map_curves_to_plot_x (pristine : ocv_pristine.PristineCell)
  (degraded : option ocv_degraded.DegradedOcvRaw) (x_plot : list float)
  : outcome PlotCurves :=
  let mask_pristine := map (fun x => (0 <=? x) && (x <=? 1)) x_plot in
  ocv_cell_pr <- interp_on_mask x_plot mask_pristine
                   (ocv_pristine.x_grid pristine) (ocv_pristine.ocv_cell pristine) ;;
  ocv_pe_pr <- interp_on_mask x_plot mask_pristine
                 (ocv_pristine.x_grid pristine) (ocv_pristine.ocv_nmc pristine) ;;
  ocv_ne_pr <- interp_on_mask x_plot mask_pristine
                 (ocv_pristine.x_grid pristine) (ocv_pristine.ocv_gra pristine) ;;
  let pristine_out := {|
    cell := {| curve_ocv := ocv_cell_pr; mask_valid := mask_pristine |};
    pe := {| curve_ocv := ocv_pe_pr; mask_valid := mask_pristine |};
    ne := {| curve_ocv := ocv_ne_pr; mask_valid := mask_pristine |} |} in
  match degraded with
  | None => Returns {| pristine := pristine_out; degraded := Invalid |}
  | Some d =>
      let eoc := ocv_degraded.x_cell_eoc d in
      let eod := ocv_degraded.x_cell_eod d in
      let mask_deg_cell := map (fun x => (eoc <=? x) && (x <=? eod)) x_plot in
      ocv_cell_deg <- interp_on_mask x_plot mask_deg_cell
                        (ocv_degraded.capacity_norm d) (ocv_degraded.ocv_cell d) ;;
      let frac := map (fun x => (x - eoc) / (eod - eoc)) x_plot in
      let x_pe :=
        map (fun f => ocv_degraded.x_pe_eoc d
                      + f * (ocv_degraded.x_pe_eod d - ocv_degraded.x_pe_eoc d)) frac in
      let x_ne :=
        map (fun f => ocv_degraded.x_ne_eoc d
                      + f * (ocv_degraded.x_ne_eod d - ocv_degraded.x_ne_eoc d)) frac in
      let sol_pe := ocv_pristine.sol_nmc_from_x pristine x_pe in
      let sol_ne := ocv_pristine.sol_gra_from_x pristine x_ne in
      ocv_pe_all <- ocv_pristine.eval_ocv (ocv_pristine.nmc pristine) sol_pe true ;;
      ocv_ne_all <- ocv_pristine.eval_ocv (ocv_pristine.gra pristine) sol_ne true ;;
      let nmc := ocv_pristine.nmc pristine in
      let gra := ocv_pristine.gra pristine in
      let mask_pe_domain :=
        zip_with andb
          (map (fun s => (ocv_pristine.sol_min nmc <=? s)
                         && (s <=? ocv_pristine.sol_max nmc)) sol_pe)
          mask_deg_cell in
      let mask_ne_domain :=
        zip_with andb
          (map (fun s => (ocv_pristine.sol_min gra <=? s)
                         && (s <=? ocv_pristine.sol_max gra)) sol_ne)
          mask_deg_cell in
      pe_values <- np_getmask ocv_pe_all mask_pe_domain ;;
      ocv_pe_deg <- np_setmask (np_full_like x_plot nan) mask_pe_domain pe_values ;;
      ne_values <- np_getmask ocv_ne_all mask_ne_domain ;;
      ocv_ne_deg <- np_setmask (np_full_like x_plot nan) mask_ne_domain ne_values ;;
      Returns {|
        pristine := pristine_out;
        degraded :=
          Valid
            {| ocv_degraded.LLI := ocv_degraded.lli d;
               ocv_degraded.LAM_PE := ocv_degraded.lam_pe d;
               ocv_degraded.LAM_NE := ocv_degraded.lam_ne d |}
            {| delta_x_eoc := ocv_degraded.delta_x_eoc d;
               delta_x_eod := ocv_degraded.delta_x_eod d;
               x_cell_eoc := ocv_degraded.x_cell_eoc d;
               x_cell_eod := ocv_degraded.x_cell_eod d;
               cell_capacity := ocv_degraded.cell_capacity d;
               x_pe_eoc := ocv_degraded.x_pe_eoc d;
               x_pe_eod := ocv_degraded.x_pe_eod d;
               x_ne_eoc := ocv_degraded.x_ne_eoc d;
               x_ne_eod := ocv_degraded.x_ne_eod d |}
            {| cell := {| curve_ocv := ocv_cell_deg; mask_valid := mask_deg_cell |};
               pe := {| curve_ocv := ocv_pe_deg; mask_valid := mask_pe_domain |};
               ne := {| curve_ocv := ocv_ne_deg; mask_valid := mask_ne_domain |} |}
      |}
  end.

End Mapping.

End plotting.

(* ================================================================== *)
(** * api/main.py: serialising arrays *)
(* ================================================================== *)

Module main_lists.

(** [_np_to_list]: NaN is kept and an infinity becomes NaN. *)
Definition _np_to_list (arr : list float) : list float :=
  map (fun x => if np_isfinite x then x else nan) arr.

End main_lists.

(* ================================================================== *)
(** * api/main.py: the curves endpoint *)
(* ================================================================== *)

Module curves_endpoint.

(** [CurveBundle]. *)
Record CurveBundle : Type := {
  x : list float;
  ocv : list float;
  mask_valid : list bool
}.

Record BundleSet : Type := {
  cell : CurveBundle;
  pe : CurveBundle;
  ne : CurveBundle
}.

(** The [degraded] dictionary of a response. *)
Inductive DegradedOut : Type :=
| NotValid
| IsValid (theta : ocv_degraded.ThetaDict) (results : plotting.WindowResults)
    (curves : BundleSet).

(** [CurvesResponse] without the constant [x_axis] note. *)
Record CurvesResponse : Type := {
  pristine_id : string;
  theta_deg : ocv_degraded.ThetaDict;
  pristine : BundleSet;
  degraded : DegradedOut
}.

Section Endpoint.

Context {backend : Backend}.
Variable PchipInterpolator : list float -> list float -> outcome (float -> float).
Variable np_interp : list float -> list float -> list float -> outcome (list float).

Definition bundle (x_plot : list float) (curve : plotting.Curve) : CurveBundle := {|
  x := main_lists._np_to_list x_plot;
  ocv := main_lists._np_to_list (plotting.curve_ocv curve);
  mask_valid := plotting.mask_valid curve
|}.

Definition bundles (x_plot : list float) (c : plotting.CurveSet) : BundleSet := {|
  cell := bundle x_plot (plotting.cell c);
  pe := bundle x_plot (plotting.pe c);
  ne := bundle x_plot (plotting.ne c)
|}.

(** [ocv_curves] from the resolved profile on: the request has been
    parsed, the profile found, [n] chosen and the two CSV files read. *)
Definition ocv_curves (profile_id : string)
  (nmc_raw gra_raw : option (list (float * float)))
  (endpoints : list (string * float)) (n : Z) (lli lam_pe lam_ne : float)
  (include_plot_domain_padding : bool) : outcome CurvesResponse :=
  pristine_cell <- pristine_csv.build_pristine_cell_from_csv PchipInterpolator
                     profile_id nmc_raw gra_raw endpoints n ;;
  degraded_raw <- ocv_degraded.calculate_degraded_ocv_raw pristine_cell
                    lli lam_pe lam_ne n ;;
  x_plot <- plotting.build_plot_axis (ocv_pristine.x_grid pristine_cell)
              degraded_raw include_plot_domain_padding ;;
  mapped <- plotting.map_curves_to_plot_x np_interp pristine_cell degraded_raw x_plot ;;
  Returns {|
    pristine_id := profile_id;
    theta_deg := {| ocv_degraded.LLI := lli;
                    ocv_degraded.LAM_PE := lam_pe;
                    ocv_degraded.LAM_NE := lam_ne |};
    pristine := bundles x_plot (plotting.pristine mapped);
    degraded :=
      match plotting.degraded mapped with
      | plotting.Invalid => NotValid
      | plotting.Valid theta results curves =>
          IsValid theta results (bundles x_plot curves)
      end
  |}.

End Endpoint.

End curves_endpoint.

(* ================================================================== *)
(** * More vocabulary and examples *)
(* ================================================================== *)

(** Strictly ascending: every entry is below every later entry. *)
Definition strictly_ascending (a : list float) : Prop :=
  StronglySorted (fun x y => (x <? y) = true) a.

(** The rows of a table whose two values are both finite. *)
Definition finite_rows (rows : list (float * float)) : list (float * float) :=
  filter (fun p => np_isfinite (fst p) && np_isfinite (snd p)) rows.

(** No two rows at different places have the same lithiation. *)
Definition distinct_lithiation (rows : list (float * float)) : Prop :=
  forall i j p q, i <> j -> nth_error rows i = Some p -> nth_error rows j = Some q ->
    (fst p =? fst q) = false.

(** A half-cell curve as the builder leaves it: a strictly ascending
    table of at least 2 points with one OCV per lithiation, whose domain
    runs from the first to the last lithiation and so holds every table
    point. *)
Definition table_curve (c : ocv_pristine.HalfCellCurve) : Prop :=
  strictly_ascending (ocv_pristine.sol c) /\
  (2 <= length (ocv_pristine.sol c))%nat /\
  length (ocv_pristine.ocv c) = length (ocv_pristine.sol c) /\
  ocv_pristine.sol_min c = hd nan (ocv_pristine.sol c) /\
  ocv_pristine.sol_max c = last (ocv_pristine.sol c) nan /\
  Forall (fun x => in_domain c x = true) (ocv_pristine.sol c).

(** The four keys the builder reads. *)
Definition endpoint_keys : list string :=
  ["sol_nmc_eoc"; "sol_nmc_eod"; "sol_gra_eoc"; "sol_gra_eod"]%string.

(** A curve on the axis [x_plot] that holds NaN wherever its mask is
    false. *)
Definition gapped_curve (x_plot : list float) (c : plotting.Curve) : Prop :=
  length (plotting.curve_ocv c) = length x_plot /\
  length (plotting.mask_valid c) = length x_plot /\
  forall i, nth_error (plotting.mask_valid c) i = Some false ->
    nth_error (plotting.curve_ocv c) i = Some nan.

(** The place in an electrode window [[lo, hi]] of the axis point [x],
    by its fraction of the degraded cell window. *)
Definition electrode_position (d : ocv_degraded.DegradedOcvRaw) (lo hi x : float)
  : float :=
  lo + (x - ocv_degraded.x_cell_eoc d)
       / (ocv_degraded.x_cell_eod d - ocv_degraded.x_cell_eoc d) * (hi - lo).

(** The lithiation of each electrode at a position [x] of its window. *)
Definition nmc_sol_at (pristine : ocv_pristine.PristineCell) (x : float) : float :=
  let e := ocv_pristine.endpoints pristine in
  ocv_pristine.sol_nmc_eoc e
  + x * (ocv_pristine.sol_nmc_eod e - ocv_pristine.sol_nmc_eoc e).

Definition gra_sol_at (pristine : ocv_pristine.PristineCell) (x : float) : float :=
  let e := ocv_pristine.endpoints pristine in
  ocv_pristine.sol_gra_eoc e
  + x * (ocv_pristine.sol_gra_eod e - ocv_pristine.sol_gra_eoc e).

(** A bundle of the curves response with [n] points: three arrays of
    length [n], no infinity among the numbers, and NaN in [ocv] wherever
    the mask is false. *)
Definition sound_bundle (n : nat) (b : curves_endpoint.CurveBundle) : Prop :=
  length (curves_endpoint.x b) = n /\
  length (curves_endpoint.ocv b) = n /\
  length (curves_endpoint.mask_valid b) = n /\
  Forall (fun v => is_infinity v = false) (curves_endpoint.x b) /\
  Forall (fun v => is_infinity v = false) (curves_endpoint.ocv b) /\
  forall i, nth_error (curves_endpoint.mask_valid b) i = Some false ->
    nth_error (curves_endpoint.ocv b) i = Some nan.

Definition sound_bundles (n : nat) (s : curves_endpoint.BundleSet) : Prop :=
  sound_bundle n (curves_endpoint.cell s) /\
  sound_bundle n (curves_endpoint.pe s) /\
  sound_bundle n (curves_endpoint.ne s).

Module example2.

(** A table with a non-numeric row and rows out of order. *)
Definition nmc_rows : list (float * float) :=
  [(1, 3); (nan, 7); (0, 4); (0.5, 3.5)].

(** The lithiation 0.5 is listed twice. *)
Definition gra_rows : list (float * float) :=
  [(0, 0.5); (0.5, 0.25); (0.5, 0.5); (1, 0.25)].

Definition endpoints : list (string * float) :=
  [("sol_nmc_eoc"%string, 0); ("sol_nmc_eod"%string, 1);
   ("sol_gra_eoc"%string, 1); ("sol_gra_eod"%string, 0)].

(** An interpolant through the first and last point of the table. *)
Definition chord (x y : list float) : outcome (float -> float) :=
  match x, y with
  | x0 :: _ :: _, y0 :: _ :: _ =>
      Returns (fun q => y0 + (last y y0 - y0) / (last x x0 - x0) * (q - x0))
  | _, _ => Raises (ValueError "x must have at least 2 points"%string)
  end.

(** [np.interp] by the piecewise-linear interpolation of the example
    backend. *)
Definition interp (x xp fp : list float) : outcome (list float) :=
  match xp with
  | [] => Raises (ValueError "array of sample points is empty"%string)
  | _ :: _ => Returns (map (example.lerp_at xp fp) x)
  end.

(** A degraded curve of two samples whose window [[0.25, 1.5]] ends
    beyond the pristine grid. *)
Definition shifted : ocv_degraded.DegradedOcvRaw := {|
  ocv_degraded.lli := 0.25;
  ocv_degraded.lam_pe := 0;
  ocv_degraded.lam_ne := 0;
  ocv_degraded.delta_x_eoc := 0.25;
  ocv_degraded.delta_x_eod := 0.75;
  ocv_degraded.x_cell_eoc := 0.25;
  ocv_degraded.x_cell_eod := 1.5;
  ocv_degraded.cell_capacity := 1.25;
  ocv_degraded.x_pe_eoc := 0.25;
  ocv_degraded.x_pe_eod := 1.5;
  ocv_degraded.x_ne_eoc := 0.5;
  ocv_degraded.x_ne_eod := 1.5;
  ocv_degraded.capacity_norm := [0.25; 1.5];
  ocv_degraded.ocv_cell := [3.5; 2.5]
|}.

(** A series whose OCV array is one entry short. *)
Definition ragged_series : ocv_degraded.MeasuredOcv := {|
  ocv_degraded.capacity := [0; 0.25; 0.5; 0.75];
  ocv_degraded.ocv := [3.75; 3.5; 3.25]
|}.

(** A series with a NaN in its third OCV. *)
Definition holed_series : ocv_degraded.MeasuredOcv := {|
  ocv_degraded.capacity := [0; 0.25; 0.5; 0.75];
  ocv_degraded.ocv := [3.75; 3.74; nan; 3.72]
|}.

(** The example backend with another root finder, optimiser or
    interpolation. *)
Definition variant
  (root : (vec2 -> outcome vec2) -> vec2 -> float -> Z -> outcome (vec2 * Z))
  (optimiser : (vec3 -> outcome float) -> vec3 -> Z -> outcome OptimizeResult)
  (interpolation : list float -> list float -> list float -> outcome (list float))
  : Backend := {|
  fsolve := root;
  minimize := optimiser;
  Generator := option Z;
  default_rng := example.seeded;
  rng_random := example.rows;
  interp1d_linear := interpolation;
  np_mean := example.mean
|}.



(** An optimiser that fails in each way the loop provides for: it
    raises, it returns no objective value, or it returns an infinite
    one. *)
Definition fails (f : vec3 -> outcome float) (x0 : vec3) (maxiter : Z)
  : outcome OptimizeResult :=
  let a := fst (fst x0) in
  if a <? 0.1 then Raises LibraryError
  else if a <? 0.2 then Returns {| res_fun := None; res_x := x0 |}
  else Returns {| res_fun := Some infinity; res_x := x0 |}.

Definition failing : Backend :=
  variant example.accept_start fails example.interp1d.






(** Three points a hundredth apart in capacity. *)
Definition close_series : ocv_degraded.MeasuredOcv := {|
  ocv_degraded.capacity := [0.57; 0.58; 0.59];
  ocv_degraded.ocv := [0.1; 0; 0.1]
|}.

End example2.

(* ================================================================== *)
(** * The order of binary64 numbers *)
(* ================================================================== *)

Section FloatOrder.

Local Open Scope Z_scope.

Lemma digits2_pos_bounds (p : positive) :
  2 ^ (Zpos (digits2_pos p) - 1) <= Zpos p < 2 ^ Zpos (digits2_pos p).
Proof.
  induction p as [p IH | p IH |]; simpl digits2_pos.
  - rewrite Pos2Z.inj_succ, (Pos2Z.inj_xI p).
    replace (Z.succ (Zpos (digits2_pos p)) - 1)
      with (Z.succ (Zpos (digits2_pos p) - 1)) by lia.
    rewrite !Z.pow_succ_r by lia.
    set (lo := 2 ^ (Zpos (digits2_pos p) - 1)) in *.
    set (hi := 2 ^ Zpos (digits2_pos p)) in *. clearbody lo hi. lia.
  - rewrite Pos2Z.inj_succ, (Pos2Z.inj_xO p).
    replace (Z.succ (Zpos (digits2_pos p)) - 1)
      with (Z.succ (Zpos (digits2_pos p) - 1)) by lia.
    rewrite !Z.pow_succ_r by lia.
    set (lo := 2 ^ (Zpos (digits2_pos p) - 1)) in *.
    set (hi := 2 ^ Zpos (digits2_pos p)) in *. clearbody lo hi. lia.
  - simpl. lia.
Qed.

Lemma canonical_shape (m : positive) (e : Z) :
  canonical_mantissa prec emax m e = true ->
  -1074 <= e /\ Zpos (digits2_pos m) <= 53 /\
  (-1074 < e -> Zpos (digits2_pos m) = 53).
Proof.
  unfold canonical_mantissa, fexp, SpecFloat.emin, prec, emax.
  intros H. apply Z.eqb_eq in H. lia.
Qed.

(** A valid finite number has at most 53 significant bits, exactly 53
    above the smallest exponent. *)
Lemma bounded_shape (m : positive) (e : Z) :
  bounded prec emax m e = true ->
  -1074 <= e <= 971 /\ Zpos m < 2 ^ 53 /\ (-1074 < e -> 2 ^ 52 <= Zpos m).
Proof.
  unfold bounded. intros H. apply andb_true_iff in H. destruct H as [Hc He].
  apply canonical_shape in Hc. apply Z.leb_le in He. unfold emax, prec in He.
  destruct Hc as (H1 & H2 & H3). pose proof (digits2_pos_bounds m) as [Hlo Hhi].
  split; [lia|]. split.
  - eapply Z.lt_le_trans; [exact Hhi|]. apply Z.pow_le_mono_r; lia.
  - intros Hgt. rewrite (H3 Hgt) in Hlo. exact Hlo.
Qed.

Lemma finite_key_range (m : positive) (e : Z) :
  bounded prec emax m e = true -> 0 < Zpos m * 2 ^ (e + 1074) < 2 ^ 2100.
Proof.
  intros H. apply bounded_shape in H. destruct H as (He & Hm & _).
  assert (Hp : 0 < 2 ^ (e + 1074)) by (apply Z.pow_pos_nonneg; lia).
  split; [lia|].
  apply Z.lt_le_trans with (2 ^ 53 * 2 ^ (e + 1074)).
  - apply Z.mul_lt_mono_pos_r; assumption.
  - rewrite <- Z.pow_add_r by lia. apply Z.pow_le_mono_r; lia.
Qed.

Lemma finite_key_exp_lt (m1 : positive) (e1 : Z) (m2 : positive) (e2 : Z) :
  bounded prec emax m1 e1 = true -> bounded prec emax m2 e2 = true ->
  e1 < e2 -> Zpos m1 * 2 ^ (e1 + 1074) < Zpos m2 * 2 ^ (e2 + 1074).
Proof.
  intros H1 H2 Hlt. apply bounded_shape in H1, H2.
  destruct H1 as (He1 & Hm1 & _). destruct H2 as (He2 & _ & Hm2).
  assert (Hp : 0 < 2 ^ (e1 + 1074)) by (apply Z.pow_pos_nonneg; lia).
  apply Z.lt_le_trans with (2 ^ 53 * 2 ^ (e1 + 1074)).
  - apply Z.mul_lt_mono_pos_r; assumption.
  - apply Z.le_trans with (2 ^ 52 * 2 ^ (e2 + 1074)).
    + rewrite <- !Z.pow_add_r by lia. apply Z.pow_le_mono_r; lia.
    + apply Z.mul_le_mono_nonneg_r; [apply Z.pow_nonneg; lia | apply Hm2; lia].
Qed.

Lemma finite_key_compare (m1 : positive) (e1 : Z) (m2 : positive) (e2 : Z) :
  bounded prec emax m1 e1 = true -> bounded prec emax m2 e2 = true ->
  match e1 ?= e2 with
  | Lt => Lt
  | Gt => Gt
  | Eq => Pos.compare_cont Eq m1 m2
  end = (Zpos m1 * 2 ^ (e1 + 1074) ?= Zpos m2 * 2 ^ (e2 + 1074)).
Proof.
  intros H1 H2. destruct (Z.compare_spec e1 e2) as [Heq | Hlt | Hgt].
  - subst e2. apply bounded_shape in H1.
    rewrite <- Zmult_compare_compat_r
      by (apply Z.lt_gt, Z.pow_pos_nonneg; lia).
    reflexivity.
  - symmetry. apply Z.compare_lt_iff. now apply finite_key_exp_lt.
  - symmetry. apply Z.compare_gt_iff. now apply finite_key_exp_lt.
Qed.

Ltac solve_cmp :=
  cbv [cond_Zopp]; f_equal; symmetry;
  first [ apply Z.compare_eq_iff; lia
        | apply Z.compare_lt_iff; lia
        | apply Z.compare_gt_iff; lia ].

(** On valid numbers other than NaN, [SFcompare] is the order of [key]. *)
Lemma compare_key (a b : spec_float) :
  SpecFloat.valid_binary prec emax a = true ->
  SpecFloat.valid_binary prec emax b = true ->
  sf_is_nan a = false -> sf_is_nan b = false ->
  SFcompare a b = Some (key a ?= key b).
Proof.
  assert (Hbig : 0 < 2 ^ 2100) by (apply Z.pow_pos_nonneg; lia).
  destruct a as [sa | sa | | sa ma ea]; destruct b as [sb | sb | | sb mb eb];
    cbv [key SFcompare SpecFloat.valid_binary sf_is_nan];
    intros Va Vb Na Nb; try discriminate; try reflexivity;
    try (pose proof (finite_key_range _ _ Va) as Ra);
    try (pose proof (finite_key_range _ _ Vb) as Rb).
  1-7: try (destruct sa); try (destruct sb); solve_cmp.
  destruct sa, sb; try solve_cmp.
  - cbv [cond_Zopp]. f_equal. rewrite Z.compare_opp.
    rewrite <- (finite_key_compare mb eb ma ea Vb Va).
    rewrite (Z.compare_antisym eb ea).
    destruct (eb ?= ea); simpl; try reflexivity.
    rewrite (Pos.compare_cont_antisym ma mb Eq). reflexivity.
  - cbv [cond_Zopp]. f_equal. now apply finite_key_compare.
Qed.

(** ** Rounding keeps the sign *)

Lemma shr_m_of_loc (m : Z) (l : location) : shr_m (shr_record_of_loc m l) = m.
Proof. destruct l as [|[]]; reflexivity. Qed.

Lemma shr_1_div2 (mrs : shr_record) :
  0 <= shr_m mrs -> shr_m (shr_1 mrs) = Z.div2 (shr_m mrs).
Proof.
  destruct mrs as [m r s]. cbn [shr_m]. intros Hm.
  destruct m as [|[p|p|]|p]; try reflexivity. lia.
Qed.

Lemma iter_shr_1 (p : positive) : forall mrs, 0 <= shr_m mrs ->
  shr_m (iter_pos shr_1 p mrs) = Z.shiftr (shr_m mrs) (Zpos p).
Proof.
  assert (Hd : forall mrs, 0 <= shr_m mrs ->
                 shr_m (shr_1 mrs) = Z.shiftr (shr_m mrs) 1).
  { intros mrs H. rewrite shr_1_div2 by assumption. now rewrite Z.div2_spec. }
  induction p as [p IH | p IH |]; intros mrs Hm; cbn [iter_pos].
  - assert (H1 : 0 <= shr_m (shr_1 mrs))
      by (rewrite Hd by assumption; apply Z.shiftr_nonneg; assumption).
    assert (H2 : 0 <= shr_m (iter_pos shr_1 p (shr_1 mrs)))
      by (rewrite IH by assumption; apply Z.shiftr_nonneg; assumption).
    rewrite IH, IH, Hd by assumption.
    rewrite !Z.shiftr_shiftr by lia. f_equal. lia.
  - assert (H2 : 0 <= shr_m (iter_pos shr_1 p mrs))
      by (rewrite IH by assumption; apply Z.shiftr_nonneg; assumption).
    rewrite IH, IH by assumption.
    rewrite !Z.shiftr_shiftr by lia. f_equal. lia.
  - now apply Hd.
Qed.

(** Shifting a positive mantissa to its canonical exponent leaves a
    positive mantissa: at most [digits - 53] bits are dropped. *)
Lemma shr_fexp_pos (m e : Z) (l : location) :
  0 < m -> -1074 <= e ->
  0 < shr_m (fst (shr_fexp prec emax m e l)) /\
  -1074 <= snd (shr_fexp prec emax m e l).
Proof.
  intros Hm He. unfold shr_fexp, shr.
  destruct m as [|q|q]; try lia. cbn [Zdigits2].
  pose proof (digits2_pos_bounds q) as [Hlo _].
  destruct (fexp prec emax (Zpos (digits2_pos q) + e) - e) as [|p|p] eqn:Hn;
    cbn [fst snd]; rewrite ?shr_m_of_loc; try (split; lia).
  unfold fexp, SpecFloat.emin, prec, emax in Hn.
  rewrite iter_shr_1 by (rewrite shr_m_of_loc; lia).
  rewrite shr_m_of_loc. split; [|lia].
  rewrite Z.shiftr_div_pow2 by lia.
  apply Z.div_str_pos. split; [apply Z.pow_pos_nonneg; lia|].
  eapply Z.le_trans; [|exact Hlo]. apply Z.pow_le_mono_r; lia.
Qed.

Lemma round_nearest_even_ge (m : Z) (l : location) : m <= round_nearest_even m l.
Proof.
  destruct l as [|[]]; cbn [round_nearest_even]; try destruct (Z.even m); lia.
Qed.

Lemma binary_round_aux_nonzero (sx : bool) (mx ex : Z) (lx : location) :
  0 < mx -> -1074 <= ex ->
  signed_nonzero sx (binary_round_aux prec emax sx mx ex lx).
Proof.
  intros Hm He. unfold binary_round_aux.
  pose proof (shr_fexp_pos mx ex lx Hm He) as [H1 H2].
  destruct (shr_fexp prec emax mx ex lx) as [mrs' e']. cbn [fst snd] in H1, H2.
  pose proof (round_nearest_even_ge (shr_m mrs') (loc_of_shr_record mrs')) as Hr.
  set (m1 := round_nearest_even (shr_m mrs') (loc_of_shr_record mrs')) in *.
  assert (Hm1 : 0 < m1) by lia.
  pose proof (shr_fexp_pos m1 e' loc_Exact Hm1 H2) as [H3 H4].
  destruct (shr_fexp prec emax m1 e' loc_Exact) as [mrs'' e''].
  cbn [fst snd] in H3, H4.
  destruct (shr_m mrs'') as [|p|p]; try lia.
  destruct (e'' <=? emax - prec); [right; eauto | left; reflexivity].
Qed.

Lemma binary_round_nonzero (sx : bool) (mx : positive) (ex : Z) :
  -1074 <= ex -> signed_nonzero sx (binary_round prec emax sx mx ex).
Proof.
  intros He. unfold binary_round, shl_align.
  set (e' := fexp prec emax (Zpos (digits2_pos mx) + ex)).
  assert (He' : -1074 <= e') by (unfold e', fexp, SpecFloat.emin, prec, emax; lia).
  destruct (e' - ex); apply binary_round_aux_nonzero; lia.
Qed.

Lemma signed_nonzero_compare (s : bool) (x : spec_float) (sz : bool) :
  signed_nonzero s x -> SFcompare x (S754_zero sz) = Some (if s then Lt else Gt).
Proof. intros [-> | (m & e & ->)]; reflexivity. Qed.

(** No gradual-underflow surprise: an integer multiple of [2^e], with
    [e] at least the smallest exponent, rounds to zero only if it is
    zero. *)
Lemma binary_normalize_sign (m e : Z) (sz s0 : bool) :
  -1074 <= e ->
  SFcompare (binary_normalize prec emax m e sz) (S754_zero s0) = Some (m ?= 0).
Proof.
  intros He. destruct m as [|p|p]; cbn [binary_normalize].
  - reflexivity.
  - now rewrite (signed_nonzero_compare false) by now apply binary_round_nonzero.
  - now rewrite (signed_nonzero_compare true) by now apply binary_round_nonzero.
Qed.

Lemma iter_xO_pow2 (m d : positive) : Zpos (Pos.iter xO m d) = Zpos m * 2 ^ Zpos d.
Proof.
  induction d as [|d IH] using Pos.peano_ind.
  - cbn [Pos.iter]. rewrite (Pos2Z.inj_xO m). change (2 ^ 1) with 2. lia.
  - rewrite Pos.iter_succ, (Pos2Z.inj_xO (Pos.iter xO m d)), IH, Pos2Z.inj_succ.
    rewrite Z.pow_succ_r by lia. lia.
Qed.

Lemma shl_align_value (mx : positive) (ex ez : Z) :
  ez <= ex -> Zpos (fst (shl_align mx ex ez)) = Zpos mx * 2 ^ (ex - ez).
Proof.
  intros Hle. unfold shl_align.
  destruct (ez - ex) as [|d|d] eqn:Hd; cbn [fst]; try lia.
  - replace (ex - ez) with 0 by lia. change (2 ^ 0) with 1. lia.
  - rewrite iter_xO_pow2. f_equal. f_equal. lia.
Qed.

Lemma cond_Zopp_scale (s : bool) (a p : Z) : cond_Zopp s (a * p) = cond_Zopp s a * p.
Proof. destruct s; cbn [cond_Zopp]; ring. Qed.

Lemma compare_scaled_difference (x y p : Z) :
  0 < p -> (x - y ?= 0) = (x * p ?= y * p).
Proof.
  intros Hp. rewrite <- Zmult_compare_compat_r by lia.
  symmetry. apply Z.compare_sub.
Qed.

(** The sign of a rounded difference of finite numbers is the sign of
    their exact difference. *)
Lemma sub_sign (a b : spec_float) (sz : bool) :
  SpecFloat.valid_binary prec emax a = true ->
  SpecFloat.valid_binary prec emax b = true ->
  sf_is_finite a = true -> sf_is_finite b = true ->
  SFcompare (SFsub prec emax a b) (S754_zero sz) = Some (key a ?= key b).
Proof.
  destruct a as [sa | sa | | sa ma ea]; destruct b as [sb | sb | | sb mb eb];
    cbv [sf_is_finite SpecFloat.valid_binary]; intros Va Vb Fa Fb;
    try discriminate.
  - destruct sa, sb; reflexivity.
  - pose proof (finite_key_range _ _ Vb).
    cbv [SFsub SFcompare key]. destruct sb; cbn [negb]; solve_cmp.
  - pose proof (finite_key_range _ _ Va).
    cbv [SFsub SFcompare key]. destruct sa; solve_cmp.
  - cbn [SFsub].
    pose proof (bounded_shape _ _ Va) as (Hea & _ & _).
    pose proof (bounded_shape _ _ Vb) as (Heb & _ & _).
    rewrite binary_normalize_sign by lia.
    rewrite !shl_align_value by lia.
    f_equal. cbn [key].
    set (ez := Z.min ea eb).
    replace (2 ^ (ea + 1074)) with (2 ^ (ea - ez) * 2 ^ (ez + 1074))
      by (rewrite <- Z.pow_add_r by lia; f_equal; lia).
    replace (2 ^ (eb + 1074)) with (2 ^ (eb - ez) * 2 ^ (ez + 1074))
      by (rewrite <- Z.pow_add_r by lia; f_equal; lia).
    rewrite !Z.mul_assoc, !cond_Zopp_scale.
    apply compare_scaled_difference. apply Z.pow_pos_nonneg; lia.
Qed.

End FloatOrder.

(* ================================================================== *)
(** * Comparisons of primitive floats *)
(* ================================================================== *)

Lemma SFcompare_refl (x : spec_float) : sf_is_nan x = false -> SFcompare x x = Some Eq.
Proof.
  destruct x as [s | s | | s m e]; cbn; intros H; try discriminate.
  - reflexivity.
  - destruct s; reflexivity.
  - rewrite Z.compare_refl, Pos.compare_cont_refl. destruct s; reflexivity.
Qed.

Lemma is_nan_spec (x : float) : is_nan x = sf_is_nan (Prim2SF x).
Proof.
  unfold is_nan. rewrite eqb_spec. unfold SFeqb.
  destruct (sf_is_nan (Prim2SF x)) eqn:E.
  - destruct (Prim2SF x); try discriminate. reflexivity.
  - rewrite SFcompare_refl by assumption. reflexivity.
Qed.

Lemma is_finite_spec (x : float) : is_finite x = sf_is_finite (Prim2SF x).
Proof.
  unfold is_finite, is_infinity. rewrite is_nan_spec, eqb_spec, abs_spec.
  change (Prim2SF infinity) with (S754_infinity false).
  destruct (Prim2SF x) as [s | s | | s m e]; reflexivity.
Qed.

Lemma finite_not_nan (x : float) : is_finite x = true -> is_nan x = false.
Proof.
  rewrite is_finite_spec, is_nan_spec. destruct (Prim2SF x); cbn; congruence.
Qed.

Lemma compare_fkey (x y : float) :
  is_nan x = false -> is_nan y = false ->
  SFcompare (Prim2SF x) (Prim2SF y) = Some (fkey x ?= fkey y)%Z.
Proof.
  rewrite !is_nan_spec. intros Hx Hy.
  apply compare_key; auto using Prim2SF_valid.
Qed.

Lemma ltb_fkey (x y : float) :
  is_nan x = false -> is_nan y = false -> (x <? y) = (fkey x <? fkey y)%Z.
Proof.
  intros Hx Hy. rewrite ltb_spec. unfold SFltb, Z.ltb.
  rewrite compare_fkey by assumption. reflexivity.
Qed.

Lemma leb_fkey (x y : float) :
  is_nan x = false -> is_nan y = false -> (x <=? y) = (fkey x <=? fkey y)%Z.
Proof.
  intros Hx Hy. rewrite leb_spec. unfold SFleb, Z.leb.
  rewrite compare_fkey by assumption. destruct (fkey x ?= fkey y)%Z; reflexivity.
Qed.

Lemma ltb_not_nan (x y : float) :
  (x <? y) = true -> is_nan x = false /\ is_nan y = false.
Proof.
  rewrite ltb_spec, !is_nan_spec. unfold SFltb.
  destruct (Prim2SF x), (Prim2SF y); cbn; auto; discriminate.
Qed.

Lemma leb_not_nan (x y : float) :
  (x <=? y) = true -> is_nan x = false /\ is_nan y = false.
Proof.
  rewrite leb_spec, !is_nan_spec. unfold SFleb.
  destruct (Prim2SF x), (Prim2SF y); cbn; auto; discriminate.
Qed.

Lemma ltb_asym (x y : float) : (x <? y) = true -> (y <? x) = false.
Proof.
  intros H. destruct (ltb_not_nan _ _ H) as [Hx Hy].
  rewrite ltb_fkey in * by assumption.
  apply Z.ltb_lt in H. apply Z.ltb_ge. lia.
Qed.

Lemma leb_trans (x y z : float) :
  (x <=? y) = true -> (y <=? z) = true -> (x <=? z) = true.
Proof.
  intros H1 H2.
  destruct (leb_not_nan _ _ H1) as [Hx Hy]. destruct (leb_not_nan _ _ H2) as [_ Hz].
  rewrite leb_fkey in * by assumption.
  apply Z.leb_le in H1, H2. apply Z.leb_le. lia.
Qed.

Lemma leb_total (x y : float) :
  is_nan x = false -> is_nan y = false -> (x <=? y) = false -> (y <=? x) = true.
Proof.
  intros Hx Hy H. rewrite leb_fkey in * by assumption.
  apply Z.leb_gt in H. apply Z.leb_le. lia.
Qed.

Lemma ltb_leb (x y : float) : (x <? y) = true -> (x <=? y) = true.
Proof.
  intros H. destruct (ltb_not_nan _ _ H) as [Hx Hy].
  rewrite ltb_fkey in H by assumption. rewrite leb_fkey by assumption.
  apply Z.ltb_lt in H. apply Z.leb_le. lia.
Qed.

Lemma not_ltb_leb (x y : float) :
  is_nan x = false -> is_nan y = false -> (x <? y) = false -> (y <=? x) = true.
Proof.
  intros Hx Hy H. rewrite ltb_fkey in H by assumption. rewrite leb_fkey by assumption.
  apply Z.ltb_ge in H. apply Z.leb_le. lia.
Qed.


Lemma finite_ltb_infinity (x : float) : is_finite x = true -> (x <? infinity) = true.
Proof.
  rewrite is_finite_spec, ltb_spec.
  change (Prim2SF infinity) with (S754_infinity false).
  destruct (Prim2SF x); cbn; congruence.
Qed.

(** A divisor that passes the guard [d <= 0.0 -> return None] is not zero. *)
Lemma leb_false_neq0 (x : float) : (x <=? 0) = false -> (x =? 0) = false.
Proof.
  rewrite leb_spec, eqb_spec. unfold SFleb, SFeqb.
  destruct (SFcompare (Prim2SF x) (Prim2SF 0)) as [[]|]; congruence.
Qed.

Lemma sub_finite_sign (a b : float) :
  is_finite a = true -> is_finite b = true ->
  is_nan (a - b) = false /\ (fkey (a - b) ?= 0)%Z = (fkey a ?= fkey b)%Z.
Proof.
  rewrite !is_finite_spec. intros Fa Fb.
  pose proof (sub_sign (Prim2SF a) (Prim2SF b) false
                (Prim2SF_valid a) (Prim2SF_valid b) Fa Fb) as H.
  change (SFsub prec emax (Prim2SF a) (Prim2SF b))
    with (SF64sub (Prim2SF a) (Prim2SF b)) in H.
  rewrite <- sub_spec in H.
  assert (Hn : is_nan (a - b) = false).
  { rewrite is_nan_spec. destruct (Prim2SF (a - b)); try reflexivity. discriminate. }
  split; [exact Hn|].
  rewrite (compare_key (Prim2SF (a - b)) (S754_zero false)) in H;
    [ | apply Prim2SF_valid | reflexivity | now rewrite <- is_nan_spec | reflexivity ].
  injection H as H. exact H.
Qed.

(** [1.0 - x <= 0.0] is [x >= 1.0], for every float [x]. *)
Lemma sub_one_nonpos (x : float) : (1 - x <=? 0) = (1 <=? x).
Proof.
  rewrite !leb_spec, sub_spec. unfold SF64sub.
  change (Prim2SF 1) with (S754_finite false 4503599627370496 (-52)).
  change (Prim2SF 0) with (S754_zero false).
  pose proof (Prim2SF_valid x) as V.
  destruct (Prim2SF x) as [s | s | | s m e] eqn:E.
  - reflexivity.
  - destruct s; reflexivity.
  - reflexivity.
  - unfold SFleb.
    rewrite sub_sign by (auto; reflexivity).
    rewrite compare_key by (auto; reflexivity).
    reflexivity.
Qed.

(** For finite [a < b] the computed [b - a] is positive. *)
Lemma sub_pos (a b : float) :
  is_finite a = true -> is_finite b = true -> (b <=? a) = false ->
  (0 <? b - a) = true.
Proof.
  intros Fa Fb Hle.
  destruct (sub_finite_sign b a Fb Fa) as [Hn Hs].
  assert (N0 : is_nan 0 = false) by reflexivity.
  rewrite leb_fkey in Hle by auto using finite_not_nan.
  rewrite ltb_fkey by assumption.
  change (fkey 0) with 0%Z.
  apply Z.leb_gt in Hle. apply Z.ltb_lt.
  apply Z.compare_gt_iff in Hle. rewrite <- Hs in Hle.
  apply Z.compare_gt_iff in Hle. lia.
Qed.

(* ================================================================== *)
(** * Arrays *)
(* ================================================================== *)

Lemma length_zip_with {A B C : Type} (f : A -> B -> C) (a : list A) (b : list B) :
  length a = length b -> length (zip_with f a b) = length a.
Proof.
  revert b. induction a as [|x a IH]; intros [|y b] H; cbn in *; try congruence.
  f_equal. apply IH. congruence.
Qed.

Lemma nth_error_zip_with {A B C : Type} (f : A -> B -> C) (a : list A) (b : list B)
  (i : nat) (x : A) (y : B) :
  nth_error a i = Some x -> nth_error b i = Some y ->
  nth_error (zip_with f a b) i = Some (f x y).
Proof.
  revert b i. induction a as [|x0 a IH]; intros [|y0 b] [|i] Ha Hb;
    cbn in *; try discriminate.
  - injection Ha as ->. injection Hb as ->. reflexivity.
  - now apply IH.
Qed.

Lemma np_broadcast_same (f : float -> float -> float) (a b : list float) :
  length a = length b -> np_broadcast f a b = Returns (zip_with f a b).
Proof. intros H. unfold np_broadcast. now rewrite H, Nat.eqb_refl. Qed.

Lemma length_np_diff (a : list float) : length (np_diff a) = (length a - 1)%nat.
Proof.
  induction a as [|x [|y a] IH]; cbn [np_diff length] in *; try reflexivity.
  rewrite IH. lia.
Qed.

Lemma length_put_where (out : list float) (mask : list bool) (y : list float) :
  length (put_where out mask y) = length out.
Proof.
  revert mask y. induction out as [|o out IH]; intros [|b m] [|v y];
    cbn [put_where length]; try reflexivity.
  now rewrite IH.
Qed.

Lemma nth_error_put_where (out : list float) (mask : list bool) (y : list float)
  (i : nat) (o : float) (b : bool) (v : float) :
  nth_error out i = Some o -> nth_error mask i = Some b -> nth_error y i = Some v ->
  nth_error (put_where out mask y) i = Some (if b then v else o).
Proof.
  revert mask y i. induction out as [|o0 out IH]; intros [|b0 m] [|v0 y] [|i] Ho Hm Hy;
    cbn in *; try discriminate.
  - injection Ho as ->. injection Hm as ->. injection Hy as ->. reflexivity.
  - now apply IH.
Qed.

Lemma nth_error_np_diff (a : list float) (i : nat) (x y : float) :
  nth_error a i = Some x -> nth_error a (S i) = Some y ->
  nth_error (np_diff a) i = Some (y - x).
Proof.
  revert i. induction a as [|x0 [|y0 a] IH]; intros i Hx Hy.
  - destruct i; discriminate.
  - destruct i as [|[|i]]; discriminate.
  - destruct i as [|i].
    + cbn in Hx, Hy |- *. congruence.
    + change (nth_error (np_diff (y0 :: a)) i = Some (y - x)). now apply IH.
Qed.

(* ================================================================== *)
(** * Half-cell evaluation *)
(* ================================================================== *)

(** C9: with [allow_extrapolation=False], [eval_ocv] never raises and
    returns an array of the shape of the query that holds NaN at every
    position whose query is outside [[sol_min, sol_max]] and the
    interpolant's value, which is the [allow_extrapolation=True] result,
    at every position inside; so an entry is NaN exactly when its query is
    out of domain (or the interpolant itself is NaN there). *)
Theorem eval_ocv_masks_out_of_domain
  (self : ocv_pristine.HalfCellCurve) (sol_query : list float) :
  exists out y,
    ocv_pristine.eval_ocv self sol_query false = Returns out /\
    ocv_pristine.eval_ocv self sol_query true = Returns y /\
    length out = length sol_query /\
    length y = length sol_query /\
    forall i q, nth_error sol_query i = Some q ->
      exists v,
        nth_error out i = Some v /\
        nth_error y i = Some (ocv_pristine.interp_extrapolate self q) /\
        (in_domain self q = false -> v = nan) /\
        (in_domain self q = true -> v = ocv_pristine.interp_extrapolate self q) /\
        (is_nan v = true <->
         in_domain self q = false \/
         is_nan (ocv_pristine.interp_extrapolate self q) = true).
Proof.
  set (f := ocv_pristine.interp_extrapolate self).
  set (y := map f sol_query).
  set (mask := map (in_domain self) sol_query).
  exists (put_where (np_full_like y nan) mask y), y.
  assert (Hy : length y = length sol_query) by apply length_map.
  assert (Hm : length mask = length sol_query) by apply length_map.
  assert (Hf : length (np_full_like y nan) = length sol_query)
    by (unfold np_full_like; now rewrite length_map).
  repeat split.
  - unfold ocv_pristine.eval_ocv, np_putmask. fold f. fold y.
    change (map (fun q => (ocv_pristine.sol_min self <=? q)
                          && (q <=? ocv_pristine.sol_max self)) sol_query)
      with mask.
    now rewrite Hf, Hy, Hm, Nat.eqb_refl.
  - now rewrite length_put_where.
  - exact Hy.
  - intros i q Hq.
    assert (Hyi : nth_error y i = Some (f q))
      by (unfold y; rewrite nth_error_map, Hq; reflexivity).
    assert (Hmi : nth_error mask i = Some (in_domain self q))
      by (unfold mask; rewrite nth_error_map, Hq; reflexivity).
    assert (Hoi : nth_error (np_full_like y nan) i = Some nan)
      by (unfold np_full_like; rewrite nth_error_map, Hyi; reflexivity).
    exists (if in_domain self q then f q else nan).
    rewrite (nth_error_put_where _ _ _ i nan (in_domain self q) (f q) Hoi Hmi Hyi).
    repeat split; try assumption.
    + now intros ->.
    + now intros ->.
    + destruct (in_domain self q); auto.
    + destruct (in_domain self q); intros [H | H]; try discriminate; auto.
Qed.

(* ================================================================== *)
(** * The flat-region mask *)
(* ================================================================== *)

Lemma gradient_mask_entries (capacity ocv : list float) (gradient_limit : float) :
  length ocv = length capacity ->
  exists mask,
    ocv_degraded._gradient_mask capacity ocv gradient_limit = Returns mask /\
    length mask = S (length capacity - 1) /\
    (forall i, (S i < length capacity)%nat ->
       nth_error mask i = Some (gradient_at capacity ocv i <? gradient_limit)) /\
    nth_error mask (length capacity - 1) = Some false.
Proof.
  intros Hlen. unfold ocv_degraded._gradient_mask.
  set (soc := map abs (np_diff (map (fun c => c * 100) capacity))).
  set (od := map abs (np_diff ocv)).
  set (denom := map (np_maximum 1e-12) soc).
  assert (Hod : length od = (length capacity - 1)%nat)
    by (unfold od; now rewrite length_map, length_np_diff, Hlen).
  assert (Hden : length denom = (length capacity - 1)%nat)
    by (unfold denom, soc; now rewrite !length_map, length_np_diff, length_map).
  rewrite np_broadcast_same by congruence. cbn [bind].
  set (grad := zip_with div od denom).
  assert (Hgrad : length grad = (length capacity - 1)%nat)
    by (unfold grad; rewrite length_zip_with; congruence).
  eexists. split; [reflexivity|]. split; [|split].
  - rewrite length_app, length_map, Hgrad. cbn. lia.
  - intros i Hi.
    rewrite nth_error_app1 by (rewrite length_map, Hgrad; lia).
    rewrite nth_error_map.
    assert (Ho : nth_error od i = Some (abs (nth (S i) ocv 0 - nth i ocv 0))).
    { unfold od. rewrite nth_error_map.
      rewrite (nth_error_np_diff ocv i (nth i ocv 0) (nth (S i) ocv 0));
        [reflexivity | apply nth_error_nth'; lia | apply nth_error_nth'; lia]. }
    assert (Hd : nth_error denom i =
                 Some (np_maximum 1e-12
                         (abs (nth (S i) capacity 0 * 100 - nth i capacity 0 * 100)))).
    { unfold denom, soc. rewrite !nth_error_map.
      rewrite (nth_error_np_diff _ i (nth i capacity 0 * 100) (nth (S i) capacity 0 * 100)).
      - reflexivity.
      - rewrite nth_error_map, (nth_error_nth' capacity 0) by lia. reflexivity.
      - rewrite nth_error_map, (nth_error_nth' capacity 0) by lia. reflexivity. }
    unfold grad. rewrite (nth_error_zip_with div od denom i _ _ Ho Hd). reflexivity.
  - rewrite nth_error_app2 by (rewrite length_map, Hgrad; lia).
    rewrite length_map, Hgrad, Nat.sub_diag. reflexivity.
Qed.

(** C5, as the code has it: for a measured series of [n >= 3] points
    the mask has length [n]; entry [i < n-1] is
    [|ocv[i+1]-ocv[i]| / max(|100 capacity[i+1] - 100 capacity[i]|, 1e-12)
     < gradient_limit], each capacity being scaled by 100 before the
    difference is taken; the last entry is false. *)
Theorem gradient_mask_spec
  (capacity ocv : list float) (gradient_limit : float) (n : nat) :
  (3 <= n)%nat -> length capacity = n -> length ocv = n ->
  exists mask,
    ocv_degraded._gradient_mask capacity ocv gradient_limit = Returns mask /\
    length mask = n /\
    (forall i, (i < n - 1)%nat ->
       nth_error mask i = Some (gradient_at capacity ocv i <? gradient_limit)) /\
    nth_error mask (n - 1) = Some false.
Proof.
  intros Hn Hc Ho.
  destruct (gradient_mask_entries capacity ocv gradient_limit) as (mask & H1 & H2 & H3 & H4);
    [congruence|].
  exists mask. rewrite Hc in *. repeat split; try assumption.
  - lia.
  - intros i Hi. apply H3. lia.
Qed.

Lemma gradient_mask_spec_witness :
  exists mask,
    ocv_degraded._gradient_mask
      (ocv_degraded.capacity example.flat_series)
      (ocv_degraded.ocv example.flat_series) 0.1 = Returns mask /\
    length mask = 5%nat /\
    (forall i, (i < 5 - 1)%nat ->
       nth_error mask i =
       Some (gradient_at (ocv_degraded.capacity example.flat_series)
               (ocv_degraded.ocv example.flat_series) i <? 0.1)) /\
    nth_error mask (5 - 1) = Some false.
Proof.
  apply (gradient_mask_spec _ _ 0.1 5); [lia | reflexivity | reflexivity].
Defined.

(** C5 as stated fails: on capacities a hundredth apart the gradient of
    the first step is [0.1] with the capacities scaled before the
    difference, as the code computes it, and just below [0.1] with the
    difference scaled, as the claim has it; at the limit [0.1] the code's
    mask entry is false where the claim's formula gives true. *)
Lemma gradient_of_difference_counterexample :
  let capacity := ocv_degraded.capacity example2.close_series in
  let ocv := ocv_degraded.ocv example2.close_series in
  ocv_degraded._gradient_mask capacity ocv 0.1 = Returns [false; true; false] /\
  (gradient_of_difference capacity ocv 0 <? 0.1) = true.
Proof. split; vm_compute; reflexivity. Qed.

Lemma np_any_false (mask : list bool) :
  (forall i b, nth_error mask i = Some b -> b = false) -> np_any mask = false.
Proof.
  unfold np_any. induction mask as [|b mask IH]; intros H; [reflexivity|].
  cbn [existsb]. rewrite (H 0%nat b eq_refl). cbn [orb].
  apply IH. intros i b' Hi. exact (H (S i) b' Hi).
Qed.

(* ================================================================== *)
(** * Early exits of the estimator *)
(* ================================================================== *)

(** C10: a measured series of fewer than 3 points makes the estimator
    return [None]; it does not raise and makes no call on the random
    generator, whatever the other arguments are. *)
Theorem short_series_is_absent (backend : Backend)
  (pristine : ocv_pristine.PristineCell) (measured : ocv_degraded.MeasuredOcv)
  (num_points num_starts : Z) (seed : option Z) (gradient_limit : float) (maxiter : Z) :
  (length (ocv_degraded.capacity measured) < 3)%nat ->
  ocv_degraded.estimate_diagnostics_multistart
    pristine measured num_points num_starts seed gradient_limit maxiter
  = ([], Returns None).
Proof.
  intros H. unfold ocv_degraded.estimate_diagnostics_multistart.
  apply Nat.ltb_lt in H. now rewrite H.
Qed.

(** Two points, an invalid seed and a negative number of starts. *)
Lemma short_series_is_absent_witness :
  ocv_degraded.estimate_diagnostics_multistart (backend := example.backend)
    example.cell
    {| ocv_degraded.capacity := [0; 1]; ocv_degraded.ocv := [3.75; 2.5] |}
    101 (-5) (Some (-1)%Z) 0.1 200
  = ([], Returns None).
Proof.
  apply (short_series_is_absent example.backend). cbn. lia.
Defined.

Lemma steep_mask_is_empty (capacity ocv : list float) (gradient_limit : float) :
  length ocv = length capacity ->
  steep_everywhere capacity ocv gradient_limit ->
  exists mask,
    ocv_degraded._gradient_mask capacity ocv gradient_limit = Returns mask /\
    np_any mask = false.
Proof.
  intros Hlen Hsteep.
  destruct (gradient_mask_entries capacity ocv gradient_limit Hlen)
    as (mask & Hm & Hl & He & Hlast).
  exists mask. split; [exact Hm|].
  apply np_any_false. intros i b Hi.
  assert (Hlt : (i < length mask)%nat) by (apply nth_error_Some; congruence).
  destruct (Nat.eq_dec i (length capacity - 1)) as [-> | Hne].
  - congruence.
  - assert (Hs : (S i < length capacity)%nat) by lia.
    rewrite (He i Hs) in Hi. injection Hi as <-.
    apply ltb_asym. now apply Hsteep.
Qed.

(** C6, as the code has it: when every consecutive-point gradient
    exceeds [gradient_limit], the estimator returns [None] without
    raising and without a reason of its own; the endpoint answers
    [valid = false] with the reason [optimizer_failed_or_no_flat_region]. *)
Theorem steep_series_is_absent (backend : Backend)
  (pristine : ocv_pristine.PristineCell) (measured : ocv_degraded.MeasuredOcv)
  (num_points num_starts : Z) (seed : option Z) (gradient_limit : float) (maxiter : Z) :
  length (ocv_degraded.ocv measured) = length (ocv_degraded.capacity measured) ->
  steep_everywhere (ocv_degraded.capacity measured) (ocv_degraded.ocv measured)
    gradient_limit ->
  ocv_degraded.estimate_diagnostics_multistart
    pristine measured num_points num_starts seed gradient_limit maxiter
  = ([], Returns None) /\
  main.diagnostics_estimate
    pristine measured num_points num_starts seed gradient_limit maxiter
  = ([], Returns {|
       main.valid := false;
       main.pristine_id := ocv_pristine.profile_id pristine;
       main.theta_deg := None;
       main.rmse_v := None;
       main.debug := main.DebugReason "optimizer_failed_or_no_flat_region"%string
     |}).
Proof.
  intros Hlen Hsteep.
  assert (H : ocv_degraded.estimate_diagnostics_multistart
                pristine measured num_points num_starts seed gradient_limit maxiter
              = ([], Returns None)).
  { unfold ocv_degraded.estimate_diagnostics_multistart.
    destruct (length (ocv_degraded.capacity measured) <? 3)%nat; [reflexivity|].
    destruct (steep_mask_is_empty _ _ _ Hlen Hsteep) as (mask & -> & ->).
    reflexivity. }
  split; [exact H|].
  unfold main.diagnostics_estimate. rewrite H. reflexivity.
Qed.

Lemma steep_series_is_steep :
  steep_everywhere (ocv_degraded.capacity example.steep_series)
    (ocv_degraded.ocv example.steep_series) 0.1.
Proof.
  intros i Hi. cbn in Hi.
  destruct i as [|[|[|i]]]; [reflexivity | reflexivity | reflexivity | lia].
Defined.

Lemma steep_series_is_absent_witness :
  ocv_degraded.estimate_diagnostics_multistart (backend := example.backend)
    example.cell example.steep_series 101 20 None 0.1 200
  = ([], Returns None) /\
  main.diagnostics_estimate (backend := example.backend)
    example.cell example.steep_series 101 20 None 0.1 200
  = ([], Returns {|
       main.valid := false;
       main.pristine_id := ocv_pristine.profile_id example.cell;
       main.theta_deg := None;
       main.rmse_v := None;
       main.debug := main.DebugReason "optimizer_failed_or_no_flat_region"%string
     |}).
Proof.
  apply (steep_series_is_absent example.backend);
    [reflexivity | exact steep_series_is_steep].
Defined.

(** C6 as stated fails: on a series one volt per percent steep, the
    reason the endpoint reports is not [no_flat_region]. *)
Lemma no_flat_region_reason_counterexample :
  steep_everywhere (ocv_degraded.capacity example.steep_series)
    (ocv_degraded.ocv example.steep_series) 0.1 /\
  snd (ocv_degraded.estimate_diagnostics_multistart (backend := example.backend)
         example.cell example.steep_series 101 20 None 0.1 200)
  = Returns None /\
  reason_of
    (snd (main.diagnostics_estimate (backend := example.backend)
            example.cell example.steep_series 101 20 None 0.1 200))
  <> Some "no_flat_region"%string.
Proof.
  split; [exact steep_series_is_steep|].
  split; [reflexivity|].
  vm_compute. discriminate.
Qed.

(* ================================================================== *)
(** * Loading a measured series *)
(* ================================================================== *)

Section Cleaning.

Let joint_mask (cap ocv : list float) : list bool :=
  zip_with andb (map np_isfinite cap) (map np_isfinite ocv).

Lemma length_joint_mask (cap ocv : list float) :
  length cap = length ocv -> length (joint_mask cap ocv) = length cap.
Proof.
  intros H. unfold joint_mask.
  rewrite length_zip_with; rewrite !length_map; congruence.
Qed.

Lemma compress_joint_l (cap ocv : list float) :
  length cap = length ocv ->
  compress cap (joint_mask cap ocv) = map fst (finite_pairs cap ocv).
Proof.
  revert ocv. induction cap as [|c cap IH]; intros [|o ocv] H; cbn in H;
    try discriminate; [reflexivity|].
  unfold joint_mask, finite_pairs in *. cbn.
  destruct (np_isfinite c && np_isfinite o); cbn; rewrite IH by congruence;
    reflexivity.
Qed.

Lemma compress_joint_r (cap ocv : list float) :
  length cap = length ocv ->
  compress ocv (joint_mask cap ocv) = map snd (finite_pairs cap ocv).
Proof.
  revert ocv. induction cap as [|c cap IH]; intros [|o ocv] H; cbn in H;
    try discriminate; [reflexivity|].
  unfold joint_mask, finite_pairs in *. cbn.
  destruct (np_isfinite c && np_isfinite o); cbn; rewrite IH by congruence;
    reflexivity.
Qed.

Lemma finite_pairs_finite (cap ocv : list float) :
  Forall (fun p => is_finite (fst p) = true /\ is_finite (snd p) = true)
    (finite_pairs cap ocv).
Proof.
  unfold finite_pairs. apply Forall_forall. intros p Hp.
  apply filter_In in Hp. destruct Hp as [_ Hp].
  now apply andb_true_iff in Hp.
Qed.

End Cleaning.

Section Argsort.

Variable a : list float.
Hypothesis a_finite : Forall (fun x => is_finite x = true) a.

Let key_le (i j : nat) : Prop := (nth i a nan <=? nth j a nan) = true.
Let in_range (i : nat) : Prop := (i < length a)%nat.

Lemma nth_finite (i : nat) : in_range i -> is_finite (nth i a nan) = true.
Proof.
  intros Hi. pose proof (proj1 (Forall_forall _ a) a_finite) as H.
  apply H. now apply nth_In.
Qed.

Lemma key_le_total (i j : nat) :
  in_range i -> in_range j -> (nth i a nan <=? nth j a nan) = false -> key_le j i.
Proof.
  intros Hi Hj H. apply leb_total; auto using finite_not_nan, nth_finite.
Qed.

Lemma insert_index_range (i : nat) (idx : list nat) :
  in_range i -> Forall in_range idx -> Forall in_range (insert_index a i idx).
Proof.
  intros Hi. induction idx as [|j idx IH]; intros H; cbn [insert_index].
  - now constructor.
  - destruct (nth i a nan <=? nth j a nan).
    + now constructor.
    + inversion H; subst. constructor; auto.
Qed.

Lemma insert_index_hd (i j : nat) (idx : list nat) :
  key_le j i -> HdRel key_le j idx -> HdRel key_le j (insert_index a i idx).
Proof.
  intros Hji H. destruct idx as [|k idx]; cbn [insert_index].
  - now constructor.
  - destruct (nth i a nan <=? nth k a nan); constructor; auto.
    now inversion H.
Qed.

Lemma insert_index_sorted (i : nat) (idx : list nat) :
  in_range i -> Forall in_range idx -> Sorted key_le idx ->
  Sorted key_le (insert_index a i idx).
Proof.
  intros Hi. induction idx as [|j idx IH]; intros Hr Hs; cbn [insert_index].
  - repeat constructor.
  - inversion Hr; subst. inversion Hs; subst.
    destruct (nth i a nan <=? nth j a nan) eqn:E.
    + constructor; [assumption | now constructor].
    + constructor; [now apply IH|].
      apply insert_index_hd; [now apply key_le_total | assumption].
Qed.

Lemma length_insert_index (i : nat) (idx : list nat) :
  length (insert_index a i idx) = S (length idx).
Proof.
  induction idx as [|j idx IH]; cbn [insert_index]; [reflexivity|].
  destruct (nth i a nan <=? nth j a nan); cbn [length]; congruence.
Qed.

Lemma fold_insert_index (l : list nat) :
  Forall in_range l ->
  let idx := fold_right (insert_index a) [] l in
  Forall in_range idx /\ Sorted key_le idx /\ length idx = length l.
Proof.
  induction l as [|i l IH]; intros H; cbn [fold_right].
  - repeat split; constructor.
  - inversion H; subst. destruct (IH H3) as (Hr & Hs & Hl).
    repeat split.
    + now apply insert_index_range.
    + now apply insert_index_sorted.
    + rewrite length_insert_index. cbn [length]. congruence.
Qed.

Lemma np_argsort_sorted :
  Forall in_range (np_argsort a) /\ Sorted key_le (np_argsort a) /\
  length (np_argsort a) = length a.
Proof.
  unfold np_argsort.
  destruct (fold_insert_index (seq 0 (length a))) as (Hr & Hs & Hl).
  - apply Forall_forall. intros i Hi. apply in_seq in Hi. unfold in_range. lia.
  - rewrite length_seq in Hl. auto.
Qed.

Lemma sorted_take (idx : list nat) :
  Sorted key_le idx -> Sorted (fun x y => (x <=? y) = true) (np_take a idx).
Proof.
  induction 1 as [|i idx Hs IH Hd]; cbn; constructor; auto.
  destruct Hd; cbn; constructor; auto.
Qed.

(** Sorting finite data by [np_argsort] gives an ascending array. *)
Lemma take_argsort_ascending : ascending (np_take a (np_argsort a)).
Proof.
  destruct np_argsort_sorted as (_ & Hs & _).
  apply Sorted_StronglySorted; [|now apply sorted_take].
  intros x y z. apply leb_trans.
Qed.

End Argsort.

Lemma take_in_range {P : float -> Prop} (b : list float) (idx : list nat) :
  Forall P b -> Forall (fun i => (i < length b)%nat) idx -> Forall P (np_take b idx).
Proof.
  intros Hb Hidx. unfold np_take. apply Forall_forall. intros x Hx.
  apply in_map_iff in Hx. destruct Hx as (i & <- & Hi).
  pose proof (proj1 (Forall_forall _ idx) Hidx i Hi) as Hlt.
  apply (proj1 (Forall_forall _ b) Hb). now apply nth_In.
Qed.

(** C8, as the code has it: a series returned by the loader has its
    capacities sorted ascending (repeated capacities are kept), holds
    finite values only, and has at least 3 points; the loader raises
    [ValueError] when the two arrays differ in length and when fewer than
    3 pairs are finite. *)
Theorem load_measured_ocv_spec (raw : option ocv_degraded.MatStruct) :
  (forall m, ocv_degraded.load_measured_ocv_from_mat raw = Returns m ->
     ascending (ocv_degraded.capacity m) /\
     Forall (fun c => is_finite c = true) (ocv_degraded.capacity m) /\
     Forall (fun v => is_finite v = true) (ocv_degraded.ocv m) /\
     (3 <= length (ocv_degraded.capacity m))%nat /\
     length (ocv_degraded.ocv m) = length (ocv_degraded.capacity m)) /\
  (forall cap ocv,
     raw = Some {| ocv_degraded.mat_capacity := Some cap;
                   ocv_degraded.mat_ocv := Some ocv |} ->
     (length cap <> length ocv ->
      ocv_degraded.load_measured_ocv_from_mat raw =
      Raises (ValueError "capacity and ocv arrays must have the same length"%string)) /\
     (length cap = length ocv -> (length (finite_pairs cap ocv) < 3)%nat ->
      ocv_degraded.load_measured_ocv_from_mat raw =
      Raises (ValueError "Measured data must have at least 3 finite points"%string))).
Proof.
  assert (Hclean : forall cap ocv, length cap = length ocv ->
            np_getmask cap (zip_with andb (map np_isfinite cap) (map np_isfinite ocv))
            = Returns (map fst (finite_pairs cap ocv)) /\
            np_getmask ocv (zip_with andb (map np_isfinite cap) (map np_isfinite ocv))
            = Returns (map snd (finite_pairs cap ocv))).
  { intros cap ocv H. unfold np_getmask.
    pose proof (length_joint_mask cap ocv H) as Hm.
    rewrite !Hm, <- H, Nat.eqb_refl.
    now rewrite (compress_joint_l cap ocv H), (compress_joint_r cap ocv H). }
  split.
  - intros m Hload. unfold ocv_degraded.load_measured_ocv_from_mat in Hload.
    destruct raw as [[[cap|] [ocv|]]|];
      cbn [ocv_degraded._get_field ocv_degraded.mat_capacity ocv_degraded.mat_ocv bind]
        in Hload; try discriminate.
    destruct (length cap =? length ocv)%nat eqn:El; cbn [negb] in Hload; [|discriminate].
    apply Nat.eqb_eq in El. destruct (Hclean cap ocv El) as [Hc Ho].
    rewrite Hc in Hload. cbn [bind] in Hload. rewrite Ho in Hload. cbn [bind] in Hload.
    set (pairs := finite_pairs cap ocv) in *.
    destruct (length (map fst pairs) <? 3)%nat eqn:E3; [discriminate|].
    injection Hload as <-. cbn [ocv_degraded.capacity ocv_degraded.ocv].
    apply Nat.ltb_ge in E3.
    assert (Hfc : Forall (fun c => is_finite c = true) (map fst pairs)).
    { apply Forall_forall. intros c Hc'. apply in_map_iff in Hc'.
      destruct Hc' as (p & <- & Hp).
      exact (proj1 (proj1 (Forall_forall _ _) (finite_pairs_finite cap ocv) p Hp)). }
    assert (Hfo : Forall (fun c => is_finite c = true) (map snd pairs)).
    { apply Forall_forall. intros c Hc'. apply in_map_iff in Hc'.
      destruct Hc' as (p & <- & Hp).
      exact (proj2 (proj1 (Forall_forall _ _) (finite_pairs_finite cap ocv) p Hp)). }
    destruct (np_argsort_sorted (map fst pairs) Hfc) as (Hr & _ & Hl).
    repeat split.
    + now apply take_argsort_ascending.
    + now apply take_in_range.
    + apply take_in_range; [assumption|].
      rewrite length_map in *. exact Hr.
    + unfold np_take. rewrite length_map, Hl. exact E3.
    + unfold np_take. now rewrite !length_map.
  - intros cap ocv ->. unfold ocv_degraded.load_measured_ocv_from_mat.
    cbn [ocv_degraded._get_field ocv_degraded.mat_capacity ocv_degraded.mat_ocv bind].
    split.
    + intros Hne. apply Nat.eqb_neq in Hne. now rewrite Hne.
    + intros Heq H3. destruct (Hclean cap ocv Heq) as [-> ->].
      rewrite Heq, Nat.eqb_refl. cbn [negb bind].
      rewrite length_map. apply Nat.ltb_lt in H3. now rewrite H3.
Qed.

(** C8 as stated fails: two measured points with the same capacity are
    both kept. *)
Lemma loader_keeps_duplicates_counterexample :
  exists m,
    ocv_degraded.load_measured_ocv_from_mat (Some example.repeated_capacity)
    = Returns m /\
    ocv_degraded.capacity m = [1; 1; 2] /\
    ~ NoDup (ocv_degraded.capacity m).
Proof.
  eexists. split; [vm_compute; reflexivity|]. split; [reflexivity|].
  cbn. intros H. inversion H as [|x l Hin _]; subst. apply Hin. now left.
Qed.

(* ================================================================== *)
(** * Uniform sampling *)
(* ================================================================== *)

Lemma length_set_last (y : list float) (v : float) : length (set_last y v) = length y.
Proof.
  destruct y as [|x y]; [reflexivity|]. unfold set_last.
  rewrite length_app, removelast_firstn_len, length_firstn. cbn [length]. lia.
Qed.

Lemma nth_error_set_last (y : list float) (v : float) (i : nat) :
  (i < length y)%nat ->
  nth_error (set_last y v) i =
  if (S i =? length y)%nat then Some v else nth_error y i.
Proof.
  intros Hi. destruct y as [|x y]; [cbn in Hi; lia|]. unfold set_last.
  rewrite removelast_firstn_len.
  set (l := x :: y) in *.
  assert (Hlen : length (firstn (Nat.pred (length l)) l) = Nat.pred (length l))
    by (rewrite length_firstn; lia).
  destruct (S i =? length l)%nat eqn:E.
  - apply Nat.eqb_eq in E. rewrite nth_error_app2 by lia.
    rewrite Hlen. replace (i - Nat.pred (length l))%nat with 0%nat by lia. reflexivity.
  - apply Nat.eqb_neq in E. rewrite nth_error_app1 by lia.
    rewrite nth_error_firstn.
    assert (Hlt : (i <? Nat.pred (length l))%nat = true) by (apply Nat.ltb_lt; lia).
    now rewrite Hlt.
Qed.

Lemma nth_error_np_arange (num i : nat) :
  (i < num)%nat -> nth_error (np_arange num) i = Some (float_of_Z (Z.of_nat i)).
Proof.
  intros Hi. unfold np_arange. rewrite nth_error_map, nth_error_seq.
  apply Nat.ltb_lt in Hi. now rewrite Hi.
Qed.

Lemma np_linspace_length (start stop : float) (num : Z) (l : list float) :
  np_linspace start stop num = Returns l ->
  (0 <= num)%Z /\ length l = Z.to_nat num.
Proof.
  unfold np_linspace. destruct (num <? 0)%Z eqn:En; [discriminate|].
  apply Z.ltb_ge in En. intros H. injection H as <-. split; [assumption|].
  assert (Hy : forall f g : float -> float,
            length (map f (map g (np_arange (Z.to_nat num)))) = Z.to_nat num).
  { intros f g. unfold np_arange. now rewrite !length_map, length_seq. }
  destruct (1 <? num)%Z; rewrite ?length_set_last;
    destruct (0 <? num - 1)%Z; try destruct (_ =? 0); apply Hy.
Qed.

(** Every entry of [np.linspace(start, stop, num)] is the sample of its
    index. *)
Lemma np_linspace_samples (start stop : float) (num : Z) (l : list float)
  (i : nat) (c : float) :
  np_linspace start stop num = Returns l ->
  nth_error l i = Some c -> c = linspace_sample start stop num i.
Proof.
  intros Hl Hc. destruct (np_linspace_length _ _ _ _ Hl) as [Hn Hlen].
  assert (Hi : (i < Z.to_nat num)%nat) by (rewrite <- Hlen; apply nth_error_Some; congruence).
  unfold np_linspace in Hl. destruct (num <? 0)%Z; [discriminate|].
  injection Hl as <-. unfold linspace_sample.
  set (g := fun v : float =>
              (if (0 <? num - 1)%Z
               then if (stop - start) / float_of_Z (num - 1) =? 0
                    then v / float_of_Z (num - 1) * (stop - start)
                    else v * ((stop - start) / float_of_Z (num - 1))
               else v * (stop - start)) + start).
  assert (Hmap : map (fun v => v + start)
                   (if (0 <? num - 1)%Z
                    then if (stop - start) / float_of_Z (num - 1) =? 0
                         then map (fun v => v / float_of_Z (num - 1) * (stop - start))
                                (np_arange (Z.to_nat num))
                         else map (fun v => v * ((stop - start) / float_of_Z (num - 1)))
                                (np_arange (Z.to_nat num))
                    else map (fun v => v * (stop - start)) (np_arange (Z.to_nat num)))
                 = map g (np_arange (Z.to_nat num))).
  { unfold g. destruct (0 <? num - 1)%Z; [destruct (_ =? 0)|];
      rewrite map_map; reflexivity. }
  cbv zeta in Hc. rewrite Hmap in Hc.
  assert (Hgi : nth_error (map g (np_arange (Z.to_nat num))) i
                = Some (g (float_of_Z (Z.of_nat i))))
    by (rewrite nth_error_map, nth_error_np_arange by assumption; reflexivity).
  assert (Hlg : length (map g (np_arange (Z.to_nat num))) = Z.to_nat num)
    by (unfold np_arange; now rewrite !length_map, length_seq).
  destruct (1 <? num)%Z eqn:E1; cbn [andb].
  - rewrite nth_error_set_last in Hc by lia. rewrite Hlg in Hc.
    destruct (S i =? Z.to_nat num)%nat eqn:Es.
    + apply Nat.eqb_eq in Es.
      assert (Ez : (Z.of_nat i =? num - 1)%Z = true) by (apply Z.eqb_eq; lia).
      rewrite Ez. congruence.
    + apply Nat.eqb_neq in Es.
      assert (Ez : (Z.of_nat i =? num - 1)%Z = false) by (apply Z.eqb_neq; lia).
      rewrite Ez. rewrite Hgi in Hc. injection Hc as <-. reflexivity.
  - rewrite Hgi in Hc. injection Hc as <-. reflexivity.
Qed.

(* ================================================================== *)
(** * The forward model *)
(* ================================================================== *)

Lemma py_truediv_nonzero (x y : float) :
  (y =? 0) = false -> py_truediv x y = Returns (x / y).
Proof. intros H. unfold py_truediv. now rewrite H. Qed.

Lemma zip_with_map {A : Type} (f : float -> float -> float) (g h : A -> float)
  (l : list A) :
  zip_with f (map g l) (map h l) = map (fun x => f (g x) (h x)) l.
Proof. induction l as [|x l IH]; cbn; [reflexivity | now rewrite IH]. Qed.

Section ForwardModel.

Context {backend : Backend}.
Variable pristine : ocv_pristine.PristineCell.
Variables lli lam_pe lam_ne : float.
Variable num_points : Z.

Let solve : outcome (option ocv_degraded.DegradedOcvRaw) :=
  ocv_degraded.calculate_degraded_ocv_raw pristine lli lam_pe lam_ne num_points.

Lemma solve_guard :
  (1 - lam_pe <=? 0) || (1 - lam_ne <=? 0) = true -> solve = Returns None.
Proof.
  intros H. unfold solve, ocv_degraded.calculate_degraded_ocv_raw. now rewrite H.
Qed.

Lemma solve_root_raises (e : py_exception) :
  root_solve pristine lli lam_pe lam_ne = Raises e -> solve = Returns None.
Proof.
  intros H. unfold solve, ocv_degraded.calculate_degraded_ocv_raw.
  unfold root_solve in H. rewrite H. now destruct (_ || _).
Qed.

Lemma solve_root_not_converged (sol : vec2) (ier : Z) :
  root_solve pristine lli lam_pe lam_ne = Returns (sol, ier) -> (ier <= 0)%Z ->
  solve = Returns None.
Proof.
  intros H Hier. unfold solve, ocv_degraded.calculate_degraded_ocv_raw.
  unfold root_solve in H. rewrite H. apply Z.leb_le in Hier. rewrite Hier.
  now destruct (_ || _).
Qed.

(** Past the guards and a converged root solve, the divisions cannot
    raise and the result is decided by the window test and [linspace]. *)
Lemma solve_after_root (sol : vec2) (ier : Z) :
  (1 - lam_pe <=? 0) || (1 - lam_ne <=? 0) = false ->
  root_solve pristine lli lam_pe lam_ne = Returns (sol, ier) -> (0 < ier)%Z ->
  solve =
  if negb (np_isfinite (fst sol)) || negb (np_isfinite (1 - lli + snd sol))
     || (1 - lli + snd sol <=? fst sol)
  then Returns None
  else
    capacity_norm <- np_linspace (fst sol) (1 - lli + snd sol) num_points ;;
    Returns (Some (sampled_curve pristine lli lam_pe lam_ne sol capacity_norm)).
Proof.
  intros Hg Hroot Hier. unfold solve, ocv_degraded.calculate_degraded_ocv_raw.
  unfold root_solve in Hroot. rewrite Hg, Hroot.
  apply Z.leb_gt in Hier. rewrite Hier.
  apply orb_false_iff in Hg. destruct Hg as [Hpe Hne].
  apply leb_false_neq0 in Hpe, Hne.
  rewrite !(py_truediv_nonzero _ _ Hpe), !(py_truediv_nonzero _ _ Hne).
  cbn [bind].
  destruct (negb (np_isfinite (fst sol)) || negb (np_isfinite (1 - lli + snd sol))
            || (1 - lli + snd sol <=? fst sol)); [reflexivity|].
  destruct (np_linspace (fst sol) (1 - lli + snd sol) num_points) as [cap|e];
    [|reflexivity].
  cbn [bind]. unfold ocv_pristine.ocv_nmc_from_x, ocv_pristine.ocv_gra_from_x.
  unfold ocv_pristine.eval_ocv, ocv_pristine.sol_nmc_from_x, ocv_pristine.sol_gra_from_x.
  cbn [bind]. rewrite !map_map.
  rewrite np_broadcast_same by now rewrite !length_map.
  cbn [bind]. rewrite zip_with_map. reflexivity.
Qed.

Lemma solve_success_inv (d : ocv_degraded.DegradedOcvRaw) :
  solve = Returns (Some d) ->
  exists sol ier,
    (1 - lam_pe <=? 0) || (1 - lam_ne <=? 0) = false /\
    root_solve pristine lli lam_pe lam_ne = Returns (sol, ier) /\ (0 < ier)%Z /\
    is_finite (fst sol) = true /\ is_finite (1 - lli + snd sol) = true /\
    (1 - lli + snd sol <=? fst sol) = false /\
    np_linspace (fst sol) (1 - lli + snd sol) num_points
    = Returns (ocv_degraded.capacity_norm d) /\
    d = sampled_curve pristine lli lam_pe lam_ne sol (ocv_degraded.capacity_norm d).
Proof.
  intros H.
  destruct ((1 - lam_pe <=? 0) || (1 - lam_ne <=? 0)) eqn:Hg.
  { rewrite (solve_guard Hg) in H. discriminate. }
  destruct (root_solve pristine lli lam_pe lam_ne) as [[sol ier]|e] eqn:Hroot.
  2:{ rewrite (solve_root_raises e Hroot) in H. discriminate. }
  destruct (Z_le_gt_dec ier 0) as [Hle | Hgt].
  { rewrite (solve_root_not_converged sol ier Hroot Hle) in H. discriminate. }
  rewrite (solve_after_root sol ier Hg Hroot) in H by lia.
  exists sol, ier.
  destruct (negb (np_isfinite (fst sol)) || negb (np_isfinite (1 - lli + snd sol))
            || (1 - lli + snd sol <=? fst sol)) eqn:Hw; [discriminate|].
  apply orb_false_iff in Hw. destruct Hw as [Hw Hle].
  apply orb_false_iff in Hw. destruct Hw as [H1 H2].
  apply negb_false_iff in H1, H2. unfold np_isfinite in H1, H2.
  destruct (np_linspace (fst sol) (1 - lli + snd sol) num_points) as [cap|e];
    [|discriminate].
  cbn [bind] in H. injection H as <-.
  repeat split; try assumption; try lia; reflexivity.
Qed.

End ForwardModel.




(** C2: a successful solve samples [capacity_norm] as [num_points]
    uniformly spaced values from [x_cell_eoc] to [x_cell_eod]; its
    [cell_capacity] is the window width [x_cell_eod - x_cell_eoc], which
    is positive; every sample is carried by its fractional position in the
    cell window into the window of each electrode, each electrode OCV is
    the unmasked interpolant there, and [ocv_cell] is their difference,
    point by point. *)
Theorem degraded_curve_sampling (backend : Backend)
  (pristine : ocv_pristine.PristineCell) (lli lam_pe lam_ne : float) (num_points : Z)
  (d : ocv_degraded.DegradedOcvRaw) :
  ocv_degraded.calculate_degraded_ocv_raw pristine lli lam_pe lam_ne num_points
  = Returns (Some d) ->
  let eoc := ocv_degraded.x_cell_eoc d in
  let eod := ocv_degraded.x_cell_eod d in
  np_linspace eoc eod num_points = Returns (ocv_degraded.capacity_norm d) /\
  (0 <= num_points)%Z /\
  length (ocv_degraded.capacity_norm d) = Z.to_nat num_points /\
  (forall i c, nth_error (ocv_degraded.capacity_norm d) i = Some c ->
     c = linspace_sample eoc eod num_points i) /\
  ocv_degraded.cell_capacity d = eod - eoc /\
  (0 <? ocv_degraded.cell_capacity d) = true /\
  length (ocv_degraded.ocv_cell d) = length (ocv_degraded.capacity_norm d) /\
  (forall i c, nth_error (ocv_degraded.capacity_norm d) i = Some c ->
     let frac := (c - eoc) / (eod - eoc) in
     let x_pe :=
       ocv_degraded.x_pe_eoc d
       + frac * (ocv_degraded.x_pe_eod d - ocv_degraded.x_pe_eoc d) in
     let x_ne :=
       ocv_degraded.x_ne_eoc d
       + frac * (ocv_degraded.x_ne_eod d - ocv_degraded.x_ne_eoc d) in
     nth_error (ocv_degraded.ocv_cell d) i
     = Some (pe_ocv_at pristine x_pe - ne_ocv_at pristine x_ne)).
Proof.
  intros H.
  destruct (solve_success_inv pristine lli lam_pe lam_ne num_points d H)
    as (sol & ier & _ & _ & _ & F1 & F2 & Hw & Hlin & Hd).
  destruct (np_linspace_length _ _ _ _ Hlin) as [Hn Hlen].
  set (cap := ocv_degraded.capacity_norm d) in *.
  rewrite Hd. cbn [sampled_curve ocv_degraded.x_cell_eoc ocv_degraded.x_cell_eod
                   ocv_degraded.cell_capacity ocv_degraded.capacity_norm
                   ocv_degraded.ocv_cell ocv_degraded.x_pe_eoc ocv_degraded.x_pe_eod
                   ocv_degraded.x_ne_eoc ocv_degraded.x_ne_eod].
  cbv zeta.
  repeat split; try assumption.
  - intros i c Hc. exact (np_linspace_samples _ _ _ _ i c Hlin Hc).
  - now apply sub_pos.
  - apply length_map.
  - intros i c Hc. rewrite nth_error_map, Hc. reflexivity.
Qed.

Lemma degraded_curve_sampling_witness :
  let d := sampled_curve example.cell 0 0 0 (0, 0) [0; 0.25; 0.5; 0.75; 1] in
  ocv_degraded.calculate_degraded_ocv_raw (backend := example.backend)
    example.cell 0 0 0 5 = Returns (Some d) /\
  ocv_degraded.ocv_cell d = [3.75; 3.4375; 3.125; 2.8125; 2.5] /\
  (0 <? ocv_degraded.cell_capacity d) = true.
Proof.
  intros d.
  assert (H : ocv_degraded.calculate_degraded_ocv_raw (backend := example.backend)
                example.cell 0 0 0 5 = Returns (Some d))
    by (vm_compute; reflexivity).
  split; [exact H|]. split; [vm_compute; reflexivity|].
  exact (proj1 (proj2 (proj2 (proj2 (proj2 (proj2
           (degraded_curve_sampling example.backend example.cell 0 0 0 5 d H))))))).
Defined.

(* ================================================================== *)
(** * The objective *)
(* ================================================================== *)

Lemma length_compress {A : Type} (a : list A) (mask : list bool) :
  length a = length mask ->
  length (compress a mask) = length (filter (fun b => b) mask).
Proof.
  revert mask. induction a as [|x a IH]; intros [|b m] H; cbn in H;
    try discriminate; [reflexivity|].
  cbn [compress filter]. destruct b; cbn [length]; rewrite IH by congruence;
    reflexivity.
Qed.

Lemma np_getmask_same {A : Type} (a : list A) (mask : list bool) :
  length a = length mask -> np_getmask a mask = Returns (compress a mask).
Proof. intros H. unfold np_getmask. now rewrite H, Nat.eqb_refl. Qed.




(* ================================================================== *)
(** * The multistart search *)
(* ================================================================== *)

Section Multistart.

Context {backend : Backend}.
Variable obj : vec3 -> outcome float.
Variable maxiter : Z.

Let step := ocv_degraded.multistart_step obj maxiter.
Let ok := successful_starts obj maxiter.

Lemma leb_refl_finite (f : float) : is_finite f = true -> (f <=? f) = true.
Proof.
  intros H. rewrite leb_fkey by auto using finite_not_nan. apply Z.leb_refl.
Qed.


Lemma step_keeps_best (seen : list (float * vec3)) (st : ocv_degraded.SearchState)
  (x0 : vec3) :
  best_of seen st -> best_of (seen ++ ok [x0]) (step st x0).
Proof.
  intros [Hn Hbest]. unfold ok, successful_starts, step, ocv_degraded.multistart_step.
  cbn [flat_map]. rewrite app_nil_r.
  destruct (minimize obj x0 maxiter) as [res|e];
    [|rewrite app_nil_r; now split].
  destruct (res_fun res) as [f|]; [|rewrite app_nil_r; now split].
  unfold np_isfinite. destruct (is_finite f) eqn:Ff; [|rewrite app_nil_r; now split].
  assert (Hlen : (ocv_degraded.n_success st + 1)%Z
                 = Z.of_nat (length (seen ++ [(f, res_x res)])))
    by (rewrite length_app; cbn [length]; lia).
  destruct (f <? ocv_degraded.best_rmse st) eqn:Hlt.
  - split; [exact Hlen|]. right. exists (res_x res).
    cbn [ocv_degraded.best_x ocv_degraded.best_rmse].
    split; [reflexivity|]. split; [apply in_or_app; right; now left|].
    split; [exact Ff|].
    intros g y Hin. apply in_app_or in Hin. destruct Hin as [Hin | [Heq | []]].
    + destruct Hbest as [(-> & _) | (x & _ & _ & _ & Hmin)]; [destruct Hin|].
      eapply leb_trans; [apply ltb_leb; exact Hlt | exact (Hmin g y Hin)].
    + injection Heq as <- <-. now apply leb_refl_finite.
  - split; [exact Hlen|]. right.
    destruct Hbest as [(_ & _ & Hinf) | (x & Hx & Hin & Hfin & Hmin)].
    + rewrite Hinf, finite_ltb_infinity in Hlt by assumption. discriminate.
    + exists x. cbn [ocv_degraded.best_x ocv_degraded.best_rmse].
      split; [exact Hx|]. split; [apply in_or_app; now left|].
      split; [exact Hfin|].
      intros g y Hg. apply in_app_or in Hg. destruct Hg as [Hg | [Heq | []]].
      * exact (Hmin g y Hg).
      * injection Heq as <- <-. apply not_ltb_leb; auto using finite_not_nan.
Qed.

Lemma ok_app (l1 l2 : list vec3) : ok (l1 ++ l2) = ok l1 ++ ok l2.
Proof. unfold ok, successful_starts. apply flat_map_app. Qed.

Lemma fold_keeps_best (starts : list vec3) :
  forall seen st, best_of seen st ->
    best_of (seen ++ ok starts) (fold_left step starts st).
Proof.
  induction starts as [|x0 starts IH]; intros seen st H; cbn [fold_left].
  - unfold ok, successful_starts. cbn [flat_map]. now rewrite app_nil_r.
  - change (x0 :: starts) with ([x0] ++ starts).
    rewrite ok_app, app_assoc. apply IH. now apply step_keeps_best.
Qed.

(** After the loop, the state holds the least finite objective value of
    the successful starts, a start attaining it, and their number. *)
Lemma loop_finds_best (starts : list vec3) :
  best_of (ok starts) (ocv_degraded.multistart_loop obj maxiter starts).
Proof.
  unfold ocv_degraded.multistart_loop.
  apply (fold_keeps_best starts [] ocv_degraded.initial_state).
  split; [reflexivity|]. left. repeat split.
Qed.


End Multistart.



(* ================================================================== *)
(** * More on floats: equality, NaN and square roots *)
(* ================================================================== *)

Lemma eqb_fkey (x y : float) :
  is_nan x = false -> is_nan y = false -> (x =? y) = (fkey x =? fkey y)%Z.
Proof.
  intros Hx Hy. rewrite eqb_spec, Z.eqb_compare. unfold SFeqb.
  rewrite compare_fkey by assumption. reflexivity.
Qed.

Lemma eqb_not_nan (x y : float) :
  (x =? y) = true -> is_nan x = false /\ is_nan y = false.
Proof.
  rewrite eqb_spec, !is_nan_spec. unfold SFeqb.
  destruct (Prim2SF x), (Prim2SF y); cbn; auto; discriminate.
Qed.

Lemma ltb_trans (x y z : float) :
  (x <? y) = true -> (y <? z) = true -> (x <? z) = true.
Proof.
  intros H1 H2.
  destruct (ltb_not_nan _ _ H1) as [Hx Hy]. destruct (ltb_not_nan _ _ H2) as [_ Hz].
  rewrite ltb_fkey in * by assumption.
  apply Z.ltb_lt in H1, H2. apply Z.ltb_lt. lia.
Qed.

Lemma leb_neq_ltb (x y : float) :
  (x <=? y) = true -> (x =? y) = false -> (x <? y) = true.
Proof.
  intros H1 H2. destruct (leb_not_nan _ _ H1) as [Hx Hy].
  rewrite leb_fkey in H1 by assumption. rewrite eqb_fkey in H2 by assumption.
  rewrite ltb_fkey by assumption.
  apply Z.leb_le in H1. apply Z.eqb_neq in H2. apply Z.ltb_lt. lia.
Qed.

Lemma eqb_ltb_r (x y z : float) :
  (x =? y) = true -> (y <? z) = true -> (x <? z) = true.
Proof.
  intros H1 H2. destruct (eqb_not_nan _ _ H1) as [Hx Hy].
  destruct (ltb_not_nan _ _ H2) as [_ Hz].
  rewrite eqb_fkey in H1 by assumption. rewrite ltb_fkey in * by assumption.
  apply Z.eqb_eq in H1. apply Z.ltb_lt in H2. apply Z.ltb_lt. lia.
Qed.

Lemma nan_is (x : float) : is_nan x = true -> Prim2SF x = S754_nan.
Proof. rewrite is_nan_spec. destruct (Prim2SF x); cbn; congruence. Qed.

Lemma is_nan_of (x : float) : Prim2SF x = S754_nan -> is_nan x = true.
Proof. intros H. now rewrite is_nan_spec, H. Qed.

Lemma nan_sub_l (x y : float) : is_nan x = true -> is_nan (x - y) = true.
Proof.
  intros H. apply is_nan_of. rewrite sub_spec, (nan_is x H). reflexivity.
Qed.

Lemma nan_sub_r (x y : float) : is_nan y = true -> is_nan (x - y) = true.
Proof.
  intros H. apply is_nan_of. rewrite sub_spec, (nan_is y H).
  unfold SF64sub. now destruct (Prim2SF x).
Qed.

Lemma nan_mul_l (x y : float) : is_nan x = true -> is_nan (x * y) = true.
Proof.
  intros H. apply is_nan_of. rewrite mul_spec, (nan_is x H). reflexivity.
Qed.

Lemma nan_abs (x : float) : is_nan x = true -> is_nan (abs x) = true.
Proof.
  intros H. apply is_nan_of. rewrite abs_spec, (nan_is x H). reflexivity.
Qed.

Lemma nan_div_l (x y : float) : is_nan x = true -> is_nan (x / y) = true.
Proof.
  intros H. apply is_nan_of. rewrite div_spec, (nan_is x H). reflexivity.
Qed.

Lemma nan_div_r (x y : float) : is_nan y = true -> is_nan (x / y) = true.
Proof.
  intros H. apply is_nan_of. rewrite div_spec, (nan_is y H).
  unfold SF64div. now destruct (Prim2SF x).
Qed.

Lemma nan_ltb_l (x y : float) : is_nan x = true -> (x <? y) = false.
Proof. intros H. rewrite ltb_spec, (nan_is x H). reflexivity. Qed.

Lemma nan_leb_l (x y : float) : is_nan x = true -> (x <=? y) = false.
Proof. intros H. rewrite leb_spec, (nan_is x H). reflexivity. Qed.

Lemma nan_leb_r (x y : float) : is_nan y = true -> (x <=? y) = false.
Proof.
  intros H. rewrite leb_spec, (nan_is y H). unfold SFleb. now destruct (Prim2SF x).
Qed.

Lemma nan_np_maximum_r (x y : float) : is_nan y = true -> is_nan (np_maximum x y) = true.
Proof.
  intros H. unfold np_maximum. rewrite (nan_leb_l y x H). cbn [orb].
  destruct (is_nan x) eqn:Hx; assumption.
Qed.

Lemma binary_round_aux_shape (sx : bool) (mx ex : Z) (lx : location) :
  let r := binary_round_aux prec emax sx mx ex lx in
  r = S754_nan \/ r = S754_zero sx \/ signed_nonzero sx r.
Proof.
  unfold binary_round_aux.
  destruct (shr_fexp prec emax mx ex lx) as [mrs' e'].
  destruct (shr_fexp prec emax _ e' loc_Exact) as [mrs'' e''].
  destruct (shr_m mrs'') as [|p|p]; auto.
  destruct (Z.leb e'' (emax - prec)); right; right; [right; eauto | left; reflexivity].
Qed.

(** A finite square root is not negative. *)
Lemma sqrt_finite_nonneg (x : float) :
  is_finite (sqrt x) = true -> (0 <=? sqrt x) = true.
Proof.
  rewrite is_finite_spec, leb_spec, sqrt_spec.
  change (Prim2SF 0) with (S754_zero false). unfold SF64sqrt, SFsqrt.
  destruct (Prim2SF x) as [s | [|] | | [|] m e]; cbn [sf_is_finite];
    try discriminate; try reflexivity.
  destruct (SFsqrt_core_binary prec emax (Zpos m) e) as [[mz ez] lz].
  destruct (binary_round_aux_shape false mz ez lz) as [-> | [-> | [-> | (m' & e' & ->)]]];
    cbn; congruence.
Qed.

(* ================================================================== *)
(** * Sorting keeps the pairs together *)
(* ================================================================== *)

Lemma insert_index_perm (a : list float) (i : nat) (idx : list nat) :
  Permutation (insert_index a i idx) (i :: idx).
Proof.
  induction idx as [|j idx IH]; cbn [insert_index]; [reflexivity|].
  destruct (nth i a nan <=? nth j a nan); [reflexivity|].
  rewrite IH. apply perm_swap.
Qed.

Lemma np_argsort_perm (a : list float) :
  Permutation (np_argsort a) (seq 0 (length a)).
Proof.
  unfold np_argsort. induction (seq 0 (length a)) as [|i l IH]; cbn [fold_right].
  - reflexivity.
  - rewrite insert_index_perm. now constructor.
Qed.

Lemma combine_take (a b : list float) (idx : list nat) :
  combine (np_take a idx) (np_take b idx)
  = map (fun i => (nth i a nan, nth i b nan)) idx.
Proof.
  unfold np_take. induction idx as [|i idx IH]; cbn [map combine];
    [reflexivity | now rewrite IH].
Qed.

Lemma map_nth_combine (a b : list float) :
  length a = length b ->
  map (fun i => (nth i a nan, nth i b nan)) (seq 0 (length a)) = combine a b.
Proof.
  revert b. induction a as [|x a IH]; intros [|y b] H; cbn [length] in H;
    try discriminate; [reflexivity|].
  cbn [length seq map combine nth]. f_equal.
  rewrite <- seq_shift, map_map. cbn [nth]. apply IH. congruence.
Qed.

(** Taking two arrays of one length at the argsort of the first permutes
    their pairs. *)
Lemma argsort_pairs_perm (a b : list float) :
  length a = length b ->
  Permutation (combine (np_take a (np_argsort a)) (np_take b (np_argsort a)))
    (combine a b).
Proof.
  intros H. rewrite combine_take, <- (map_nth_combine a b H).
  apply Permutation_map, np_argsort_perm.
Qed.

Lemma combine_fst_snd {A B : Type} (l : list (A * B)) :
  combine (map fst l) (map snd l) = l.
Proof. induction l as [|[x y] l IH]; cbn; [reflexivity | now rewrite IH]. Qed.

Lemma np_getmask_finite_pairs (cap ocv : list float) :
  length cap = length ocv ->
  np_getmask cap (zip_with andb (map np_isfinite cap) (map np_isfinite ocv))
  = Returns (map fst (finite_pairs cap ocv)) /\
  np_getmask ocv (zip_with andb (map np_isfinite cap) (map np_isfinite ocv))
  = Returns (map snd (finite_pairs cap ocv)).
Proof.
  intros H. unfold np_getmask.
  pose proof (length_joint_mask cap ocv H) as Hm.
  rewrite !Hm, <- H, Nat.eqb_refl.
  now rewrite (compress_joint_l cap ocv H), (compress_joint_r cap ocv H).
Qed.

(** X1: the series returned by the measured-data loader holds exactly the
    finite (capacity, OCV) pairs of the file, each capacity still paired
    with its own OCV: sorting reorders the pairs and nothing else. *)
Theorem load_measured_keeps_pairs (cap ocv : list float)
  (m : ocv_degraded.MeasuredOcv) :
  ocv_degraded.load_measured_ocv_from_mat
    (Some {| ocv_degraded.mat_capacity := Some cap;
             ocv_degraded.mat_ocv := Some ocv |}) = Returns m ->
  Permutation (combine (ocv_degraded.capacity m) (ocv_degraded.ocv m))
    (finite_pairs cap ocv).
Proof.
  unfold ocv_degraded.load_measured_ocv_from_mat.
  cbn [ocv_degraded._get_field ocv_degraded.mat_capacity ocv_degraded.mat_ocv bind].
  destruct (length cap =? length ocv)%nat eqn:El; cbn [negb]; [|discriminate].
  apply Nat.eqb_eq in El. destruct (np_getmask_finite_pairs cap ocv El) as [-> ->].
  cbn [bind]. set (pairs := finite_pairs cap ocv).
  destruct (length (map fst pairs) <? 3)%nat; [discriminate|].
  intros H. injection H as <-. cbn [ocv_degraded.capacity ocv_degraded.ocv].
  rewrite argsort_pairs_perm by now rewrite !length_map.
  now rewrite combine_fst_snd.
Qed.

Lemma load_measured_keeps_pairs_witness :
  Permutation [(1, 4); (1, 5); (2, 3)] (finite_pairs [2; 1; 1] [3; 4; 5]).
Proof.
  exact (load_measured_keeps_pairs [2; 1; 1] [3; 4; 5]
           {| ocv_degraded.capacity := [1; 1; 2]; ocv_degraded.ocv := [4; 5; 3] |}
           ltac:(vm_compute; reflexivity)).
Defined.

(* ================================================================== *)
(** * Loading a half-cell table *)
(* ================================================================== *)

Lemma group_runs_head (s : float) (sol : list float) (o : float) (ocv : list float) :
  exists os rest, pristine_csv.group_runs (s :: sol) (o :: ocv) = (s, os) :: rest.
Proof.
  cbn [pristine_csv.group_runs].
  destruct (pristine_csv.group_runs sol ocv) as [|[s' os] rest]; [eauto|].
  destruct (s =? s'); eauto.
Qed.

Lemma group_runs_sorted (sol : list float) : forall ocv,
  length ocv = length sol ->
  Sorted (fun x y => (x <=? y) = true) sol ->
  Sorted (fun x y => (x <? y) = true) (map fst (pristine_csv.group_runs sol ocv)).
Proof.
  induction sol as [|s sol IH]; intros [|o ocv] Hlen Hs; cbn [length] in Hlen;
    try discriminate; [constructor|].
  inversion Hs as [|? ? Hs' Hhd]; subst.
  specialize (IH ocv ltac:(congruence) Hs').
  destruct sol as [|s2 sol]; destruct ocv as [|o2 ocv]; cbn [length] in Hlen;
    try discriminate.
  - cbn. repeat constructor.
  - destruct (group_runs_head s2 sol o2 ocv) as (os & rest & E).
    cbn [pristine_csv.group_runs] in *. rewrite E in *.
    inversion Hhd as [|? ? Hle]; subst.
    cbn [map fst] in IH. inversion IH as [|? ? IHs IHhd]; subst.
    destruct (s =? s2) eqn:Eq; cbn [map fst].
    + constructor; [assumption|].
      destruct IHhd as [|r l Hlt]; constructor. eapply eqb_ltb_r; eassumption.
    + constructor; [now constructor|]. constructor. now apply leb_neq_ltb.
Qed.

Lemma group_runs_reps (sol : list float) : forall ocv r,
  In r (map fst (pristine_csv.group_runs sol ocv)) -> In r sol.
Proof.
  induction sol as [|s sol IH]; intros [|o ocv] r; cbn [pristine_csv.group_runs];
    try (intros []).
  specialize (IH ocv).
  destruct (pristine_csv.group_runs sol ocv) as [|[s' os] rest].
  - cbn. tauto.
  - destruct (s =? s'); cbn [map fst In] in *;
      (intros [H | H]; [now left | right; apply IH; auto]).
Qed.

Lemma group_runs_single (sol : list float) : forall ocv,
  length ocv = length sol -> sol <> [] ->
  (forall x y, In x sol -> In y sol -> (x =? y) = true) ->
  length (pristine_csv.group_runs sol ocv) = 1%nat.
Proof.
  induction sol as [|s sol IH]; intros [|o ocv] Hlen Hne Heq; cbn [length] in Hlen;
    try discriminate; [congruence|].
  destruct sol as [|s2 sol]; destruct ocv as [|o2 ocv]; cbn [length] in Hlen;
    try discriminate; [reflexivity|].
  specialize (IH (o2 :: ocv) ltac:(cbn [length]; congruence) ltac:(discriminate)
                 (fun x y Hx Hy => Heq x y (or_intror Hx) (or_intror Hy))).
  destruct (group_runs_head s2 sol o2 ocv) as (os & rest & E).
  cbn [pristine_csv.group_runs] in *. rewrite E in *.
  rewrite (Heq s s2) by (cbn; auto). exact IH.
Qed.

Lemma group_runs_distinct (sol : list float) : forall ocv,
  length ocv = length sol ->
  Sorted (fun x y => (x =? y) = false) sol ->
  map fst (pristine_csv.group_runs sol ocv) = sol.
Proof.
  induction sol as [|s sol IH]; intros [|o ocv] Hlen Hs; cbn [length] in Hlen;
    try discriminate; [reflexivity|].
  inversion Hs as [|? ? Hs' Hhd]; subst.
  specialize (IH ocv ltac:(congruence) Hs').
  destruct sol as [|s2 sol]; destruct ocv as [|o2 ocv]; cbn [length] in Hlen;
    try discriminate; [reflexivity|].
  destruct (group_runs_head s2 sol o2 ocv) as (os & rest & E).
  cbn [pristine_csv.group_runs] in *. rewrite E in *.
  inversion Hhd as [|? ? Hne]; subst. rewrite Hne.
  cbn [map fst] in *. now rewrite IH.
Qed.

Lemma finite_pairs_rows (rows : list (float * float)) :
  finite_pairs (map fst rows) (map snd rows) = finite_rows rows.
Proof. unfold finite_pairs, finite_rows. now rewrite combine_fst_snd. Qed.

Section HalfCellTable.

Variable rows : list (float * float).

Let s : list float := map fst (finite_rows rows).
Let o : list float := map snd (finite_rows rows).
Let ss : list float := np_take s (np_argsort s).
Let os : list float := np_take o (np_argsort s).
Let runs : list (float * list float) := pristine_csv.group_runs ss os.

(** What the loader does with a well-shaped table, step by step. *)
Lemma load_half_cell_steps :
  pristine_csv._load_half_cell_csv (Some rows) =
  if (length s =? 0)%nat
  then Raises (ValueError "CSV contains no numeric SOL/OCV data"%string)
  else if (length runs <? 2)%nat
       then Raises (ValueError "CSV must contain at least 2 unique SOL points"%string)
       else Returns (map fst runs,
                     if negb (length runs =? length ss)%nat
                     then map (fun r => pristine_csv.run_mean (snd r)) runs
                     else os).
Proof.
  unfold pristine_csv._load_half_cell_csv.
  destruct (np_getmask_finite_pairs (map fst rows) (map snd rows)) as [-> ->];
    [now rewrite !length_map|].
  rewrite finite_pairs_rows. cbn [bind]. fold s. fold o. fold ss. fold os. fold runs.
  now rewrite length_map.
Qed.

Lemma s_finite : Forall (fun x => is_finite x = true) s.
Proof.
  unfold s, finite_rows. apply Forall_forall. intros x Hx.
  apply in_map_iff in Hx. destruct Hx as (p & <- & Hp).
  apply filter_In in Hp. destruct Hp as [_ Hp].
  apply andb_true_iff in Hp. apply Hp.
Qed.

Lemma length_ss_os : length os = length ss /\ length ss = length s.
Proof.
  unfold ss, os, np_take. rewrite !length_map.
  destruct (np_argsort_sorted s s_finite) as (_ & _ & ->). auto.
Qed.

Lemma ss_in_s (x : float) : In x ss -> In x s.
Proof.
  intros Hx. destruct (np_argsort_sorted s s_finite) as (Hr & _ & _).
  assert (H : Forall (fun y => In y s) ss).
  { unfold ss. apply take_in_range; [|exact Hr].
    apply Forall_forall. auto. }
  exact (proj1 (Forall_forall _ _) H x Hx).
Qed.

Lemma runs_strictly_ascending : strictly_ascending (map fst runs).
Proof.
  unfold strictly_ascending. apply Sorted_StronglySorted.
  - intros x y z. apply ltb_trans.
  - apply group_runs_sorted; [apply length_ss_os|].
    apply StronglySorted_Sorted. exact (take_argsort_ascending s s_finite).
Qed.

Lemma runs_finite : Forall (fun x => is_finite x = true) (map fst runs).
Proof.
  apply Forall_forall. intros x Hx. apply group_runs_reps in Hx. apply ss_in_s in Hx.
  exact (proj1 (Forall_forall _ _) s_finite x Hx).
Qed.

End HalfCellTable.

Lemma loaded_table_shape (raw : option (list (float * float)))
  (sol ocv : list float) :
  pristine_csv._load_half_cell_csv raw = Returns (sol, ocv) ->
  strictly_ascending sol /\
  Forall (fun x => is_finite x = true) sol /\
  (2 <= length sol)%nat /\
  length ocv = length sol.
Proof.
  destruct raw as [rows|]; [|discriminate].
  rewrite load_half_cell_steps.
  destruct (length (map fst (finite_rows rows)) =? 0)%nat; [discriminate|].
  set (s := map fst (finite_rows rows)).
  set (o := map snd (finite_rows rows)).
  set (runs := pristine_csv.group_runs (np_take s (np_argsort s)) (np_take o (np_argsort s))).
  destruct (length runs <? 2)%nat eqn:E2; [discriminate|].
  apply Nat.ltb_ge in E2. intros H. injection H as <- <-.
  split; [apply runs_strictly_ascending|].
  split; [apply runs_finite|].
  rewrite length_map. split; [exact E2|].
  destruct (length runs =? length (np_take s (np_argsort s)))%nat eqn:El; cbn [negb].
  - apply Nat.eqb_eq in El. rewrite El. apply (length_ss_os rows).
  - now rewrite length_map.
Qed.

(** X2: a table returned by the half-cell loader has strictly ascending
    (hence unique), finite lithiation fractions, at least 2 points and one
    OCV per lithiation. *)
Theorem half_cell_table_invariant (raw : option (list (float * float)))
  (sol ocv : list float) :
  pristine_csv._load_half_cell_csv raw = Returns (sol, ocv) ->
  strictly_ascending sol /\
  Forall (fun x => is_finite x = true) sol /\
  (2 <= length sol)%nat /\
  length ocv = length sol.
Proof.
  intros H.
  destruct (loaded_table_shape raw sol ocv H) as (Hs & Hf & Hn & Hl).
  split; [exact Hs|]. split; [exact Hf|]. split; [exact Hn | exact Hl].
Qed.

Lemma half_cell_table_invariant_witness :
  pristine_csv._load_half_cell_csv (Some example2.gra_rows)
  = Returns ([0; 0.5; 1], [0.5; 0.375; 0.25]) /\
  strictly_ascending [0; 0.5; 1].
Proof.
  assert (H : pristine_csv._load_half_cell_csv (Some example2.gra_rows)
              = Returns ([0; 0.5; 1], [0.5; 0.375; 0.25]))
    by (vm_compute; reflexivity).
  split; [exact H|].
  exact (proj1 (half_cell_table_invariant _ _ _ H)).
Defined.

(** X3: the half-cell loader raises [ValueError] on a table that is not
    2-d with two columns, on a table without any row of two finite values,
    and on a table whose finite rows all have the same lithiation. *)
Theorem half_cell_table_errors :
  pristine_csv._load_half_cell_csv None
  = Raises (ValueError "CSV must have at least 2 columns: SOL, OCV"%string) /\
  forall rows,
    (finite_rows rows = [] ->
     pristine_csv._load_half_cell_csv (Some rows)
     = Raises (ValueError "CSV contains no numeric SOL/OCV data"%string)) /\
    (finite_rows rows <> [] ->
     (forall p q, In p (finite_rows rows) -> In q (finite_rows rows) ->
        (fst p =? fst q) = true) ->
     pristine_csv._load_half_cell_csv (Some rows)
     = Raises (ValueError "CSV must contain at least 2 unique SOL points"%string)).
Proof.
  split; [reflexivity|]. intros rows. rewrite load_half_cell_steps. split.
  - intros ->. reflexivity.
  - intros Hne Heq.
    set (s := map fst (finite_rows rows)).
    set (o := map snd (finite_rows rows)).
    destruct (length s =? 0)%nat eqn:E0.
    { apply Nat.eqb_eq in E0. unfold s in E0. rewrite length_map in E0.
      destruct (finite_rows rows); [congruence | discriminate]. }
    destruct (length_ss_os rows) as [Hos Hss]. fold s in Hos, Hss. fold o in Hos.
    rewrite group_runs_single; [reflexivity | exact Hos | |].
    + intros E. rewrite E in Hss. cbn in Hss. apply Nat.eqb_neq in E0. congruence.
    + intros x y Hx Hy. apply (ss_in_s rows) in Hx, Hy. fold s in Hx, Hy.
      unfold s in Hx, Hy. apply in_map_iff in Hx, Hy.
      destruct Hx as (p & <- & Hp). destruct Hy as (q & <- & Hq). now apply Heq.
Qed.

Lemma sorted_map_rel {A B : Type} (R : B -> B -> Prop) (f : A -> B) (l : list A) :
  Sorted (fun x y => R (f x) (f y)) l -> Sorted R (map f l).
Proof.
  induction 1 as [|x l Hs IH Hd]; cbn [map]; constructor; auto.
  destruct Hd; cbn [map]; constructor; auto.
Qed.

Lemma nodup_sorted {A : Type} (R : A -> A -> Prop) (l : list A) :
  NoDup l -> (forall x y, In x l -> In y l -> x <> y -> R x y) -> Sorted R l.
Proof.
  induction 1 as [|x l Hx Hnd IH]; intros HR; constructor.
  - apply IH. intros a b Ha Hb. apply HR; now right.
  - destruct l as [|y l]; constructor.
    apply HR; [now left | right; now left |].
    intros ->. apply Hx. now left.
Qed.

(** X4: when no two finite rows of the table share a lithiation, the
    loader returns exactly those rows, sorted: no OCV is averaged, lost or
    moved to another lithiation. *)
Theorem half_cell_table_keeps_distinct_rows (rows : list (float * float))
  (sol ocv : list float) :
  pristine_csv._load_half_cell_csv (Some rows) = Returns (sol, ocv) ->
  distinct_lithiation (finite_rows rows) ->
  Permutation (combine sol ocv) (finite_rows rows).
Proof.
  rewrite load_half_cell_steps. intros H Hdist.
  set (pairs := finite_rows rows) in *.
  set (s := map fst pairs) in *. set (o := map snd pairs) in *.
  destruct (length s =? 0)%nat; [discriminate|].
  destruct (np_argsort_sorted s (s_finite rows)) as (Hr & _ & Hl).
  assert (Hss : map fst (pristine_csv.group_runs (np_take s (np_argsort s))
                           (np_take o (np_argsort s)))
                = np_take s (np_argsort s)).
  { apply group_runs_distinct; [apply (length_ss_os rows)|].
    unfold np_take. apply sorted_map_rel. apply nodup_sorted.
    - apply (Permutation_NoDup (Permutation_sym (np_argsort_perm s))), seq_NoDup.
    - intros i j Hi Hj Hij.
      pose proof (proj1 (Forall_forall _ _) Hr i Hi) as Hil.
      pose proof (proj1 (Forall_forall _ _) Hr j Hj) as Hjl.
      unfold s in Hil, Hjl |- *. rewrite length_map in Hil, Hjl.
      change nan with (fst (nan, nan)). rewrite !map_nth.
      apply (Hdist i j); [assumption | |]; now apply nth_error_nth'. }
  assert (Hlen : length (pristine_csv.group_runs (np_take s (np_argsort s))
                           (np_take o (np_argsort s)))
                 = length (np_take s (np_argsort s))).
  { rewrite <- Hss at 2. now rewrite length_map. }
  rewrite Hss, Hlen, Nat.eqb_refl in H. cbn [negb] in H.
  destruct (_ <? 2)%nat; [discriminate|].
  injection H as <- <-.
  rewrite argsort_pairs_perm by (unfold s, o; now rewrite !length_map).
  unfold s, o. now rewrite combine_fst_snd.
Qed.

Lemma half_cell_table_keeps_distinct_rows_witness :
  Permutation (combine [0; 0.5; 1] [4; 3.5; 3]) (finite_rows example2.nmc_rows).
Proof.
  apply (half_cell_table_keeps_distinct_rows example2.nmc_rows).
  - vm_compute. reflexivity.
  - intros i j p q Hij Hi Hj.
    change (finite_rows example2.nmc_rows) with [(1, 3); (0, 4); (0.5, 3.5)] in Hi, Hj.
    destruct i as [|[|[|i]]]; destruct j as [|[|[|j]]];
      cbn [nth_error] in Hi, Hj;
      try (destruct i; discriminate); try (destruct j; discriminate);
      try congruence;
      injection Hi as <-; injection Hj as <-; reflexivity.
Defined.

(* ================================================================== *)
(** * Building the pristine cell *)
(* ================================================================== *)

Lemma fold_minimum_first (rest : list float) (x : float) :
  Forall (fun y => (x <? y) = true) rest ->
  fold_left pristine_csv.np_minimum rest x = x.
Proof.
  induction 1 as [|y rest Hy _ IH]; cbn [fold_left]; [reflexivity|].
  unfold pristine_csv.np_minimum at 2. now rewrite (ltb_leb _ _ Hy).
Qed.

Lemma last_cons (rest : list float) : forall x y, last (y :: rest) x = last rest y.
Proof.
  induction rest as [|z rest IH]; intros x y; [reflexivity|].
  change (last (z :: rest) x = last (z :: rest) y). now rewrite !IH.
Qed.

Lemma fold_maximum_last (rest : list float) : forall x,
  strictly_ascending (x :: rest) ->
  fold_left np_maximum rest x = last rest x.
Proof.
  induction rest as [|y rest IH]; intros x Hs; [reflexivity|].
  inversion Hs as [|? ? Hs' Hx]; subst. inversion Hx as [|? ? Hxy _]; subst.
  cbn [fold_left]. unfold np_maximum at 2.
  destruct (ltb_not_nan _ _ Hxy) as [Nx Ny].
  assert (Hyx : (y <=? x) = false).
  { rewrite leb_fkey by assumption. rewrite ltb_fkey in Hxy by assumption.
    apply Z.ltb_lt in Hxy. apply Z.leb_gt. lia. }
  rewrite Hyx, Nx. cbn [orb]. rewrite (IH y Hs'). symmetry. apply last_cons.
Qed.

Lemma table_min_max (sol : list float) :
  strictly_ascending sol -> sol <> [] ->
  pristine_csv.np_amin sol = Returns (hd nan sol) /\
  pristine_csv.np_amax sol = Returns (last sol nan).
Proof.
  intros Hs Hne. destruct sol as [|x rest]; [congruence|].
  unfold pristine_csv.np_amin, pristine_csv.np_amax. split.
  - rewrite fold_minimum_first; [reflexivity|]. now inversion Hs.
  - rewrite (fold_maximum_last rest x Hs). f_equal. symmetry. apply last_cons.
Qed.

Lemma last_leb (rest : list float) : forall x,
  strictly_ascending (x :: rest) -> is_nan x = false ->
  (x <=? last rest x) = true /\
  forall y, In y rest -> (x <=? y) = true /\ (y <=? last rest x) = true.
Proof.
  induction rest as [|z rest IH]; intros x Hs Nx.
  - split; [|intros y []]. rewrite leb_fkey by assumption. apply Z.leb_refl.
  - inversion Hs as [|? ? Hs' Hx]; subst. inversion Hx as [|? ? Hxz Hrest]; subst.
    destruct (ltb_not_nan _ _ Hxz) as [_ Nz].
    destruct (IH z Hs' Nz) as [Hzl Hin].
    rewrite last_cons. split.
    + eapply leb_trans; [apply ltb_leb; exact Hxz | exact Hzl].
    + intros y [<- | Hy].
      * split; [now apply ltb_leb | exact Hzl].
      * destruct (Hin y Hy) as [H1 H2]. split; [|exact H2].
        eapply leb_trans; [apply ltb_leb; exact Hxz | exact H1].
Qed.

Lemma item0_nth (a : list float) (v : float) :
  ocv_degraded.item0 a = Returns v -> nth_error a 0 = Some v.
Proof. destruct a; cbn; congruence. Qed.

Lemma last_item_nth (a : list float) (v : float) :
  pristine_csv.last_item a = Returns v -> nth_error a (length a - 1) = Some v.
Proof.
  destruct a as [|x rest]; [discriminate|]. unfold pristine_csv.last_item.
  intros H. injection H as <-.
  replace (length (x :: rest) - 1)%nat with (length rest) by (cbn [length]; lia).
  revert x. induction rest as [|y rest IH]; intros x; [reflexivity|].
  rewrite last_cons. cbn [length nth_error]. apply IH.
Qed.

Tactic Notation "step_bind" hyp(H) "as" ident(v) ident(E) :=
  match type of H with
  | bind ?m _ = _ => destruct m as [v|] eqn:E; cbn [bind] in H; [|discriminate H]
  end.

Section BuildProperties.

Variable PchipInterpolator : list float -> list float -> outcome (float -> float).
Variable profile_id : string.
Variables nmc_raw gra_raw : option (list (float * float)).
Variable endpoints : list (string * float).
Variable num_points : Z.

Let build : outcome ocv_pristine.PristineCell :=
  pristine_csv.build_pristine_cell_from_csv PchipInterpolator profile_id
    nmc_raw gra_raw endpoints num_points.

(** X5: a pristine cell that was built has at least one grid point; its
    [x_grid] is [linspace(0, 1, num_points)]; its electrode grids are its
    own OCV methods evaluated on [x_grid]; [ocv_cell] is their difference
    point by point; [v_max] and [v_min] are the first and the last entry
    of [ocv_cell]. *)
Theorem built_cell_grids (cell : ocv_pristine.PristineCell) :
  build = Returns cell ->
  (1 <= num_points)%Z /\
  np_linspace 0 1 num_points = Returns (ocv_pristine.x_grid cell) /\
  length (ocv_pristine.x_grid cell) = Z.to_nat num_points /\
  ocv_pristine.ocv_nmc_from_x cell (ocv_pristine.x_grid cell) true
  = Returns (ocv_pristine.ocv_nmc cell) /\
  ocv_pristine.ocv_gra_from_x cell (ocv_pristine.x_grid cell) true
  = Returns (ocv_pristine.ocv_gra cell) /\
  ocv_pristine.ocv_cell cell
  = zip_with sub (ocv_pristine.ocv_nmc cell) (ocv_pristine.ocv_gra cell) /\
  length (ocv_pristine.ocv_cell cell) = Z.to_nat num_points /\
  nth_error (ocv_pristine.ocv_cell cell) 0 = Some (ocv_pristine.v_max cell) /\
  nth_error (ocv_pristine.ocv_cell cell) (Z.to_nat num_points - 1)
  = Some (ocv_pristine.v_min cell).
Proof.
  unfold build, pristine_csv.build_pristine_cell_from_csv. intros H.
  step_bind H as tn Ltn. step_bind H as tg Ltg.
  step_bind H as fn Pn. step_bind H as fg Pg.
  step_bind H as nmin Hnmin. step_bind H as nmax Hnmax.
  step_bind H as gmin Hgmin. step_bind H as gmax Hgmax.
  step_bind H as xg Hlin.
  step_bind H as ne0 Kn0. step_bind H as ne1 Kn1.
  step_bind H as ge0 Kg0. step_bind H as ge1 Kg1.
  unfold ocv_pristine.eval_ocv in H. cbn [bind] in H.
  rewrite np_broadcast_same in H by now rewrite !length_map.
  cbn [bind] in H.
  match type of H with
  | context [ocv_degraded.item0 (zip_with sub ?A ?B)] =>
      set (gn := A) in H; set (gg := B) in H
  end.
  assert (Hgn : length gn = length xg) by (unfold gn; now rewrite !length_map).
  assert (Hgg : length gg = length xg) by (unfold gg; now rewrite !length_map).
  assert (Hcell : length (zip_with sub gn gg) = length xg)
    by (rewrite length_zip_with; congruence).
  step_bind H as vmax Hv0. step_bind H as vmin Hv1.
  injection H as <-.
  destruct (np_linspace_length _ _ _ _ Hlin) as [Hn Hlen].
  cbn [ocv_pristine.x_grid ocv_pristine.ocv_nmc ocv_pristine.ocv_gra
       ocv_pristine.ocv_cell ocv_pristine.v_max ocv_pristine.v_min].
  apply item0_nth in Hv0. apply last_item_nth in Hv1.
  assert (Hpos : (0 < length (zip_with sub gn gg))%nat)
    by (apply nth_error_Some; congruence).
  rewrite Hcell, Hlen in *.
  split; [lia|]. split; [reflexivity|]. split; [reflexivity|].
  split; [reflexivity|]. split; [reflexivity|]. split; [reflexivity|].
  split; [reflexivity|]. split; assumption.
Qed.

End BuildProperties.

Lemma table_curve_of_table (sol ocv : list float) (f : float -> float) (lo hi : float) :
  strictly_ascending sol -> (2 <= length sol)%nat -> length ocv = length sol ->
  pristine_csv.np_amin sol = Returns lo -> pristine_csv.np_amax sol = Returns hi ->
  table_curve {| ocv_pristine.sol := sol; ocv_pristine.ocv := ocv;
                 ocv_pristine.interp_extrapolate := f;
                 ocv_pristine.sol_min := lo; ocv_pristine.sol_max := hi |}.
Proof.
  intros Hs Hn Hl Hlo Hhi.
  assert (Hne : sol <> []) by (destruct sol; [cbn in Hn; lia | discriminate]).
  destruct (table_min_max sol Hs Hne) as [Emin Emax].
  rewrite Emin in Hlo. rewrite Emax in Hhi. injection Hlo as <-. injection Hhi as <-.
  unfold table_curve, in_domain.
  cbn [ocv_pristine.sol ocv_pristine.ocv ocv_pristine.sol_min ocv_pristine.sol_max].
  repeat split; try assumption.
  destruct sol as [|x [|y rest]]; try (cbn in Hn; lia).
  inversion Hs as [|? ? Hs' Hx]; subst. inversion Hx as [|? ? Hxy _]; subst.
  destruct (ltb_not_nan _ _ Hxy) as [Nx _].
  destruct (last_leb (y :: rest) x Hs Nx) as [Hfirst Hin].
  rewrite (last_cons (y :: rest) nan x).
  cbn [hd]. constructor.
  - rewrite Hfirst. rewrite leb_fkey by assumption.
    now rewrite Z.leb_refl.
  - apply Forall_forall. intros z Hz. destruct (Hin z Hz) as [-> ->]. reflexivity.
Qed.

Lemma np_linspace_negative (start stop : float) (num : Z) :
  (num < 0)%Z ->
  np_linspace start stop num
  = Raises (ValueError "Number of samples must be non-negative"%string).
Proof. intros H. unfold np_linspace. apply Z.ltb_lt in H. now rewrite H. Qed.

Lemma np_linspace_returns (start stop : float) (num : Z) :
  (0 <= num)%Z -> exists l, np_linspace start stop num = Returns l.
Proof.
  intros H. unfold np_linspace. apply Z.ltb_ge in H. rewrite H. eauto.
Qed.

Section BuildOutcomes.

Variable PchipInterpolator : list float -> list float -> outcome (float -> float).
Variable profile_id : string.
Variables nmc_raw gra_raw : option (list (float * float)).
Variable endpoints : list (string * float).
Variable num_points : Z.

Let build : outcome ocv_pristine.PristineCell :=
  pristine_csv.build_pristine_cell_from_csv PchipInterpolator profile_id
    nmc_raw gra_raw endpoints num_points.

(** X6: both half-cell curves of a built pristine cell are strictly
    ascending tables of at least 2 points, and their domain
    [[sol_min, sol_max]] is exactly the span of the table, so every table
    point is in the domain. *)
Theorem built_cell_curves (cell : ocv_pristine.PristineCell) :
  build = Returns cell ->
  table_curve (ocv_pristine.nmc cell) /\ table_curve (ocv_pristine.gra cell).
Proof.
  unfold build, pristine_csv.build_pristine_cell_from_csv. intros H.
  step_bind H as tn Ltn. step_bind H as tg Ltg.
  step_bind H as fn Pn. step_bind H as fg Pg.
  step_bind H as nmin Hnmin. step_bind H as nmax Hnmax.
  step_bind H as gmin Hgmin. step_bind H as gmax Hgmax.
  step_bind H as xg Hlin.
  step_bind H as ne0 Kn0. step_bind H as ne1 Kn1.
  step_bind H as ge0 Kg0. step_bind H as ge1 Kg1.
  unfold ocv_pristine.eval_ocv in H. cbn [bind] in H.
  step_bind H as gc Hgc. step_bind H as vmax Hv0. step_bind H as vmin Hv1.
  injection H as <-. cbn [ocv_pristine.nmc ocv_pristine.gra].
  destruct tn as [sn on]. destruct tg as [sg og].
  destruct (loaded_table_shape _ _ _ Ltn) as (Hsn & _ & Hnn & Hln).
  destruct (loaded_table_shape _ _ _ Ltg) as (Hsg & _ & Hng & Hlg).
  split; now apply table_curve_of_table.
Qed.

(** X7: once both tables load and both interpolants are built, the
    builder raises [ValueError] for a negative [num_points], raises
    [KeyError] when one of its four endpoint keys is missing, and raises
    [IndexError] for [num_points = 0], where the empty grid has no first
    entry for [v_max]. *)
Theorem build_errors (tn tg : list float * list float) (fn fg : float -> float) :
  pristine_csv._load_half_cell_csv nmc_raw = Returns tn ->
  pristine_csv._load_half_cell_csv gra_raw = Returns tg ->
  PchipInterpolator (fst tn) (snd tn) = Returns fn ->
  PchipInterpolator (fst tg) (snd tg) = Returns fg ->
  ((num_points < 0)%Z ->
   build = Raises (ValueError "Number of samples must be non-negative"%string)) /\
  ((0 <= num_points)%Z ->
   (exists k, In k endpoint_keys /\
              pristine_csv.dict_get endpoints k = Raises (KeyError k)) ->
   exists k, In k endpoint_keys /\ build = Raises (KeyError k)) /\
  (num_points = 0%Z ->
   (forall k, In k endpoint_keys ->
      exists v, pristine_csv.dict_get endpoints k = Returns v) ->
   build = Raises IndexError).
Proof.
  intros Ltn Ltg Pn Pg.
  destruct tn as [sn on]. destruct tg as [sg og]. cbn [fst snd] in Pn, Pg.
  destruct (loaded_table_shape _ _ _ Ltn) as (Hsn & _ & Hnn & _).
  destruct (loaded_table_shape _ _ _ Ltg) as (Hsg & _ & Hng & _).
  assert (Hnen : sn <> []) by (destruct sn; [cbn in Hnn; lia | discriminate]).
  assert (Hneg : sg <> []) by (destruct sg; [cbn in Hng; lia | discriminate]).
  destruct (table_min_max sn Hsn Hnen) as [An Bn].
  destruct (table_min_max sg Hsg Hneg) as [Ag Bg].
  unfold build, pristine_csv.build_pristine_cell_from_csv.
  rewrite Ltn, Ltg. cbn [bind fst snd]. rewrite Pn, Pg. cbn [bind].
  rewrite An, Bn, Ag, Bg. cbn [bind].
  split; [|split].
  - intros Hneg'. now rewrite np_linspace_negative.
  - intros Hn (k & Hk & Hmiss).
    destruct (np_linspace_returns 0 1 num_points Hn) as [xg ->]. cbn [bind].
    destruct (pristine_csv.dict_get endpoints "sol_nmc_eoc"%string) as [v0|e0] eqn:K0;
      cbn [bind].
    2:{ exists "sol_nmc_eoc"%string. split; [cbn; auto|].
        unfold pristine_csv.dict_get in K0 |- *. destruct (find _ _); congruence. }
    destruct (pristine_csv.dict_get endpoints "sol_nmc_eod"%string) as [v1|e1] eqn:K1;
      cbn [bind].
    2:{ exists "sol_nmc_eod"%string. split; [cbn; auto|].
        unfold pristine_csv.dict_get in K1 |- *. destruct (find _ _); congruence. }
    destruct (pristine_csv.dict_get endpoints "sol_gra_eoc"%string) as [v2|e2] eqn:K2;
      cbn [bind].
    2:{ exists "sol_gra_eoc"%string. split; [cbn; auto|].
        unfold pristine_csv.dict_get in K2 |- *. destruct (find _ _); congruence. }
    destruct (pristine_csv.dict_get endpoints "sol_gra_eod"%string) as [v3|e3] eqn:K3;
      cbn [bind].
    2:{ exists "sol_gra_eod"%string. split; [cbn; auto|].
        unfold pristine_csv.dict_get in K3 |- *. destruct (find _ _); congruence. }
    exfalso. destruct Hk as [<- | [<- | [<- | [<- | []]]]]; congruence.
  - intros -> Hkeys.
    destruct (Hkeys "sol_nmc_eoc"%string ltac:(cbn; auto)) as [v0 ->].
    destruct (Hkeys "sol_nmc_eod"%string ltac:(cbn; auto)) as [v1 ->].
    destruct (Hkeys "sol_gra_eoc"%string ltac:(cbn; auto)) as [v2 ->].
    destruct (Hkeys "sol_gra_eod"%string ltac:(cbn; auto)) as [v3 ->].
    reflexivity.
Qed.

End BuildOutcomes.

Lemma example_cell_built :
  exists cell,
    pristine_csv.build_pristine_cell_from_csv example2.chord "demo"%string
      (Some example2.nmc_rows) (Some example2.gra_rows) example2.endpoints 3
    = Returns cell.
Proof. vm_compute. eexists. reflexivity. Defined.

Lemma built_cell_grids_witness :
  exists cell,
    pristine_csv.build_pristine_cell_from_csv example2.chord "demo"%string
      (Some example2.nmc_rows) (Some example2.gra_rows) example2.endpoints 3
    = Returns cell /\
    np_linspace 0 1 3 = Returns (ocv_pristine.x_grid cell) /\
    nth_error (ocv_pristine.ocv_cell cell) 0 = Some (ocv_pristine.v_max cell).
Proof.
  destruct example_cell_built as [cell H]. exists cell.
  split; [exact H|].
  destruct (built_cell_grids _ _ _ _ _ _ cell H) as (_ & Hx & _ & _ & _ & _ & _ & Hv & _).
  split; [exact Hx | exact Hv].
Defined.

Lemma built_cell_curves_witness :
  exists cell,
    pristine_csv.build_pristine_cell_from_csv example2.chord "demo"%string
      (Some example2.nmc_rows) (Some example2.gra_rows) example2.endpoints 3
    = Returns cell /\
    table_curve (ocv_pristine.nmc cell) /\ table_curve (ocv_pristine.gra cell).
Proof.
  destruct example_cell_built as [cell H]. exists cell.
  split; [exact H|].
  exact (built_cell_curves _ _ _ _ _ _ cell H).
Defined.

Lemma build_errors_witness :
  pristine_csv.build_pristine_cell_from_csv example2.chord "demo"%string
    (Some example2.nmc_rows) (Some example2.gra_rows) example2.endpoints 0
  = Raises IndexError /\
  pristine_csv.build_pristine_cell_from_csv example2.chord "demo"%string
    (Some example2.nmc_rows) (Some example2.gra_rows) example2.endpoints (-1)
  = Raises (ValueError "Number of samples must be non-negative"%string).
Proof.
  assert (Ln : pristine_csv._load_half_cell_csv (Some example2.nmc_rows)
               = Returns ([0; 0.5; 1], [4; 3.5; 3])) by (vm_compute; reflexivity).
  assert (Lg : pristine_csv._load_half_cell_csv (Some example2.gra_rows)
               = Returns ([0; 0.5; 1], [0.5; 0.375; 0.25])) by (vm_compute; reflexivity).
  assert (Pn : exists f, example2.chord [0; 0.5; 1] [4; 3.5; 3] = Returns f)
    by (eexists; reflexivity).
  assert (Pg : exists f, example2.chord [0; 0.5; 1] [0.5; 0.375; 0.25] = Returns f)
    by (eexists; reflexivity).
  destruct Pn as [fn Pn]. destruct Pg as [fg Pg].
  split.
  - apply (build_errors example2.chord "demo"%string _ _ example2.endpoints 0
             _ _ fn fg Ln Lg Pn Pg); [reflexivity|].
    intros k [<- | [<- | [<- | [<- | []]]]]; eexists; vm_compute; reflexivity.
  - apply (build_errors example2.chord "demo"%string _ _ example2.endpoints (-1)
             _ _ fn fg Ln Lg Pn Pg). lia.
Defined.

(* ================================================================== *)
(** * Serialising arrays and the plot axis *)
(* ================================================================== *)

Lemma finite_not_infinity (x : float) : is_finite x = true -> is_infinity x = false.
Proof.
  unfold is_finite. destruct (is_nan x), (is_infinity x); cbn; congruence.
Qed.

(** X8: [_np_to_list] keeps the length and every finite entry, turns
    every other entry into NaN, so its output holds no infinity, and
    leaves its own output unchanged. *)
Theorem np_to_list_serialisable (arr : list float) :
  let out := main_lists._np_to_list arr in
  length out = length arr /\
  Forall (fun y => is_infinity y = false) out /\
  (forall i x, nth_error arr i = Some x ->
     (is_finite x = true -> nth_error out i = Some x) /\
     (is_finite x = false ->
      exists y, nth_error out i = Some y /\ is_nan y = true)) /\
  main_lists._np_to_list out = out.
Proof.
  cbv zeta. unfold main_lists._np_to_list, np_isfinite.
  split; [apply length_map|]. split; [|split].
  - apply Forall_forall. intros y Hy. apply in_map_iff in Hy.
    destruct Hy as (x & <- & _). destruct (is_finite x) eqn:E.
    + now apply finite_not_infinity.
    + reflexivity.
  - intros i x Hx. rewrite nth_error_map, Hx. cbn [option_map].
    split; intros E; rewrite E; [reflexivity|].
    exists nan. split; reflexivity.
  - rewrite map_map. apply map_ext. intros x.
    destruct (is_finite x) eqn:E; [now rewrite E | reflexivity].
Qed.

Lemma fold_fmax_pick (rest : list float) (x : float) :
  fold_left plotting.np_fmax rest x = x \/ In (fold_left plotting.np_fmax rest x) rest.
Proof.
  revert x. induction rest as [|y rest IH]; intros x; [now left|].
  cbn [fold_left]. destruct (IH (plotting.np_fmax x y)) as [H | H].
  - rewrite H. unfold plotting.np_fmax.
    destruct ((y <=? x) || is_nan y); [now left | right; now left].
  - right. now right.
Qed.

Lemma py_max_ge (a b : float) :
  is_nan a = false -> is_nan b = false -> (b <=? plotting.py_max a b) = true.
Proof.
  intros Ha Hb. unfold plotting.py_max. destruct (a <? b) eqn:E.
  - rewrite leb_fkey by assumption. apply Z.leb_refl.
  - rewrite ltb_fkey in E by assumption. rewrite leb_fkey by assumption.
    apply Z.ltb_ge in E. now apply Z.leb_le.
Qed.

Lemma plot_axis_bounds (pristine_x : list float)
  (degraded : option ocv_degraded.DegradedOcvRaw) (pad : bool) (x : float)
  (rest : list float) :
  pristine_x = x :: rest ->
  exists lo hi,
    plotting.build_plot_axis pristine_x degraded pad
    = np_linspace lo hi (Z.of_nat (length pristine_x)) /\
    (pad = false ->
     hi = match degraded with
          | Some d => plotting.py_max (fold_left plotting.np_fmax rest x)
                        (ocv_degraded.x_cell_eod d)
          | None => fold_left plotting.np_fmax rest x
          end).
Proof.
  intros ->. unfold plotting.build_plot_axis.
  cbn [plotting.np_nanmin plotting.np_nanmax bind].
  destruct pad; cbn [negb]; eexists; eexists; (split; [reflexivity|]);
    intros H; try discriminate; reflexivity.
Qed.

Lemma plot_axis_returns (pristine_x : list float)
  (degraded : option ocv_degraded.DegradedOcvRaw) (pad : bool) :
  pristine_x <> [] ->
  exists axis,
    plotting.build_plot_axis pristine_x degraded pad = Returns axis /\
    length axis = length pristine_x.
Proof.
  intros Hne. destruct pristine_x as [|x rest]; [congruence|].
  destruct (plot_axis_bounds (x :: rest) degraded pad x rest eq_refl)
    as (lo & hi & -> & _).
  destruct (np_linspace_returns lo hi (Z.of_nat (length (x :: rest)))) as [axis H];
    [lia|].
  exists axis. split; [exact H|].
  destruct (np_linspace_length _ _ _ _ H) as [_ ->]. apply Nat2Z.id.
Qed.

(** X9: the plot axis cannot be built over an empty grid, where
    [np.nanmin] raises [ValueError]; over any other grid it is returned
    and has one point per grid point, with or without a degraded curve
    and padding. *)
Theorem plot_axis_outcome (pristine_x : list float)
  (degraded : option ocv_degraded.DegradedOcvRaw) (pad : bool) :
  (pristine_x = [] ->
   plotting.build_plot_axis pristine_x degraded pad
   = Raises (ValueError
               "zero-size array to reduction operation fmin which has no identity"%string)) /\
  (pristine_x <> [] ->
   exists axis,
     plotting.build_plot_axis pristine_x degraded pad = Returns axis /\
     length axis = length pristine_x).
Proof.
  split.
  - intros ->. reflexivity.
  - intros Hne. destruct (plot_axis_returns pristine_x degraded pad Hne) as [axis H].
    exists axis. exact H.
Qed.

(** X10: without padding, over a NaN-free grid of at least 2 points, the
    last point of the plot axis is exactly the larger of the grid's
    maximum and the degraded window's end, so the axis reaches at least
    to [x_cell_eod]. *)
Theorem plot_axis_reaches_window_end (pristine_x : list float)
  (d : ocv_degraded.DegradedOcvRaw) (axis : list float) (top : float) :
  (2 <= length pristine_x)%nat ->
  Forall (fun x => is_nan x = false) pristine_x ->
  is_nan (ocv_degraded.x_cell_eod d) = false ->
  plotting.build_plot_axis pristine_x (Some d) false = Returns axis ->
  plotting.np_nanmax pristine_x = Returns top ->
  nth_error axis (length pristine_x - 1)
  = Some (plotting.py_max top (ocv_degraded.x_cell_eod d)) /\
  (ocv_degraded.x_cell_eod d <=? plotting.py_max top (ocv_degraded.x_cell_eod d)) = true /\
  (top <=? plotting.py_max top (ocv_degraded.x_cell_eod d)) = true.
Proof.
  intros Hn Hnan Hd Haxis Htop.
  destruct pristine_x as [|x rest]; [cbn in Hn; lia|].
  cbn [plotting.np_nanmax] in Htop. injection Htop as <-.
  set (top := fold_left plotting.np_fmax rest x).
  assert (Ntop : is_nan top = false).
  { rewrite Forall_forall in Hnan.
    destruct (fold_fmax_pick rest x) as [H | H]; fold top in H.
    - rewrite H. apply Hnan. now left.
    - apply Hnan. now right. }
  destruct (plot_axis_bounds (x :: rest) (Some d) false x rest eq_refl)
    as (lo & hi & E & Hhi).
  specialize (Hhi eq_refl). fold top in Hhi. rewrite E in Haxis. subst hi.
  set (hi := plotting.py_max top (ocv_degraded.x_cell_eod d)) in *.
  split; [|split].
  - destruct (np_linspace_length _ _ _ _ Haxis) as [_ Hlen].
    rewrite Nat2Z.id in Hlen.
    destruct (nth_error axis (length (x :: rest) - 1)) as [c|] eqn:Hc.
    2:{ apply nth_error_None in Hc. cbn [length] in *. lia. }
    rewrite (np_linspace_samples _ _ _ _ _ _ Haxis Hc).
    unfold linspace_sample.
    replace (1 <? Z.of_nat (length (x :: rest)))%Z with true
      by (symmetry; apply Z.ltb_lt; cbn [length] in *; lia).
    replace (Z.of_nat (length (x :: rest) - 1)
             =? Z.of_nat (length (x :: rest)) - 1)%Z with true
      by (symmetry; apply Z.eqb_eq; cbn [length] in *; lia).
    reflexivity.
  - now apply py_max_ge.
  - unfold hi, plotting.py_max. destruct (top <? ocv_degraded.x_cell_eod d) eqn:E'.
    + now apply ltb_leb.
    + rewrite leb_fkey by assumption. apply Z.leb_refl.
Qed.

Lemma plot_axis_reaches_window_end_witness :
  exists axis,
    plotting.build_plot_axis [0; 0.5; 1] (Some example2.shifted) false = Returns axis /\
    nth_error axis 2 = Some 1.5.
Proof.
  assert (H : exists axis,
            plotting.build_plot_axis [0; 0.5; 1] (Some example2.shifted) false
            = Returns axis) by (vm_compute; eexists; reflexivity).
  destruct H as [axis H]. exists axis. split; [exact H|].
  exact (proj1 (plot_axis_reaches_window_end [0; 0.5; 1] example2.shifted axis 1
                  ltac:(cbn; lia)
                  ltac:(repeat constructor)
                  ltac:(reflexivity) H ltac:(vm_compute; reflexivity))).
Defined.

(* ================================================================== *)
(** * Mapping the curves onto the plot axis *)
(* ================================================================== *)

Lemma length_scatter (out : list float) (mask : list bool) (values : list float) :
  length (plotting.scatter out mask values) = length out.
Proof.
  revert mask values. induction out as [|o out IH]; intros [|b m] values;
    cbn [plotting.scatter length]; try reflexivity.
  destruct b; [destruct values|]; cbn [length]; now rewrite IH.
Qed.

Lemma scatter_false (out : list float) (mask : list bool) (values : list float)
  (i : nat) :
  nth_error mask i = Some false ->
  nth_error (plotting.scatter out mask values) i = nth_error out i.
Proof.
  revert mask values i. induction out as [|o out IH]; intros [|b m] values [|i] H;
    cbn in H; try discriminate; try reflexivity.
  - injection H as ->. reflexivity.
  - cbn [plotting.scatter]. destruct b; [destruct values|]; cbn [nth_error];
      now apply IH.
Qed.

Lemma scatter_compress (out : list float) (mask : list bool) (vals : list float) :
  length out = length mask -> length vals = length mask ->
  plotting.scatter out mask (compress vals mask) = put_where out mask vals.
Proof.
  revert mask vals. induction out as [|o out IH]; intros [|b m] [|v vals] Ho Hv;
    cbn in Ho, Hv; try discriminate; try reflexivity.
  cbn [compress put_where]. destruct b; cbn [plotting.scatter];
    f_equal; apply IH; congruence.
Qed.

Lemma compress_scatter (out : list float) (mask : list bool) (values : list float) :
  length out = length mask ->
  length values = length (filter (fun b => b) mask) ->
  compress (plotting.scatter out mask values) mask = values.
Proof.
  revert mask values. induction out as [|o out IH]; intros [|b m] values Ho Hv;
    cbn in Ho; try discriminate.
  - cbn in Hv. now destruct values.
  - cbn [filter] in Hv. destruct b.
    + destruct values as [|v values]; [discriminate|].
      cbn [plotting.scatter compress]. f_equal. apply IH; [congruence|].
      cbn in Hv. congruence.
    + cbn [plotting.scatter compress]. apply IH; congruence.
Qed.

Lemma nth_error_full_like (y : list float) (v : float) (i : nat) :
  (i < length y)%nat -> nth_error (np_full_like y v) i = Some v.
Proof.
  intros Hi. unfold np_full_like. rewrite nth_error_map.
  destruct (nth_error y i) eqn:E; [reflexivity|].
  apply nth_error_None in E. lia.
Qed.

Lemma np_setmask_inv (x_plot : list float) (mask : list bool) (values r : list float) :
  plotting.np_setmask (np_full_like x_plot nan) mask values = Returns r ->
  length mask = length x_plot /\
  length r = length x_plot /\
  (forall i, nth_error mask i = Some false -> nth_error r i = Some nan) /\
  (length values = length (filter (fun b => b) mask) ->
   r = plotting.scatter (np_full_like x_plot nan) mask values).
Proof.
  unfold plotting.np_setmask. set (out := np_full_like x_plot nan).
  assert (Hout : length out = length x_plot) by apply length_map.
  destruct (length out =? length mask)%nat eqn:El; cbn [negb]; [|discriminate].
  apply Nat.eqb_eq in El.
  assert (Hnan : forall i, nth_error mask i = Some false -> nth_error out i = Some nan).
  { intros i Hi. apply nth_error_full_like.
    assert (i < length mask)%nat by (apply nth_error_Some; congruence). lia. }
  destruct (length values =? length (filter (fun b => b) mask))%nat eqn:Ev.
  - intros H. injection H as <-. split; [lia|]. split; [now rewrite length_scatter|].
    split; [|reflexivity].
    intros i Hi. rewrite scatter_false by assumption. now apply Hnan.
  - apply Nat.eqb_neq in Ev.
    destruct values as [|v [|w values]]; try discriminate.
    intros H. injection H as <-. split; [lia|]. split; [now rewrite length_put_where|].
    split; [|intros Hv; contradiction].
    intros i Hi.
    assert (Hlt : (i < length out)%nat)
      by (rewrite El; apply nth_error_Some; congruence).
    rewrite (nth_error_put_where out mask (map (fun _ => v) out) i nan false v);
      [reflexivity | now apply Hnan | assumption |].
    rewrite nth_error_map, (Hnan i Hi). reflexivity.
Qed.

Section MappingProperties.

Variable np_interp : list float -> list float -> list float -> outcome (list float).
Variable pristine : ocv_pristine.PristineCell.
Variable x_plot : list float.

Lemma interp_on_mask_inv (mask : list bool) (xp fp r : list float) :
  length mask = length x_plot ->
  plotting.interp_on_mask np_interp x_plot mask xp fp = Returns r ->
  gapped_curve x_plot {| plotting.curve_ocv := r; plotting.mask_valid := mask |} /\
  ((forall x xp' fp' y, np_interp x xp' fp' = Returns y -> length y = length x) ->
   np_interp (compress x_plot mask) xp fp = Returns (compress r mask)).
Proof.
  intros Hm. unfold plotting.interp_on_mask.
  rewrite np_getmask_same by congruence. cbn [bind].
  destruct (np_interp (compress x_plot mask) xp fp) as [values|] eqn:Hi;
    cbn [bind]; [|discriminate].
  intros H. destruct (np_setmask_inv _ _ _ _ H) as (_ & Hr & Hnan & Hsc).
  split.
  - unfold gapped_curve. cbn [plotting.curve_ocv plotting.mask_valid].
    split; [exact Hr|]. split; [exact Hm | exact Hnan].
  - intros Hshape. f_equal.
    assert (Hv : length values = length (filter (fun b => b) mask)).
    { rewrite (Hshape _ _ _ _ Hi). apply length_compress. congruence. }
    rewrite (Hsc Hv). symmetry. apply compress_scatter; [|exact Hv].
    unfold np_full_like. rewrite length_map. congruence.
Qed.

(** X11: every pristine curve on the plot axis carries the mask
    [0 <= x <= 1] and is NaN wherever the mask is false; the degraded
    section is marked invalid exactly when there is no degraded curve;
    and when [np.interp] returns one value per query point, reading the
    masked entries back gives [np.interp] of the masked axis points on
    the pristine grid. *)
Theorem mapped_pristine_section (degraded : option ocv_degraded.DegradedOcvRaw)
  (out : plotting.PlotCurves) :
  plotting.map_curves_to_plot_x np_interp pristine degraded x_plot = Returns out ->
  let mask := map (fun x => (0 <=? x) && (x <=? 1)) x_plot in
  let p := plotting.pristine out in
  Forall (fun c => plotting.mask_valid c = mask /\ gapped_curve x_plot c)
    [plotting.cell p; plotting.pe p; plotting.ne p] /\
  (degraded = None <-> plotting.degraded out = plotting.Invalid) /\
  ((forall x xp fp y, np_interp x xp fp = Returns y -> length y = length x) ->
   np_interp (compress x_plot mask) (ocv_pristine.x_grid pristine)
     (ocv_pristine.ocv_cell pristine)
   = Returns (compress (plotting.curve_ocv (plotting.cell p)) mask) /\
   np_interp (compress x_plot mask) (ocv_pristine.x_grid pristine)
     (ocv_pristine.ocv_nmc pristine)
   = Returns (compress (plotting.curve_ocv (plotting.pe p)) mask) /\
   np_interp (compress x_plot mask) (ocv_pristine.x_grid pristine)
     (ocv_pristine.ocv_gra pristine)
   = Returns (compress (plotting.curve_ocv (plotting.ne p)) mask)).
Proof.
  cbv zeta. set (mask := map (fun x => (0 <=? x) && (x <=? 1)) x_plot).
  assert (Hm : length mask = length x_plot) by apply length_map.
  unfold plotting.map_curves_to_plot_x. fold mask. intros H.
  step_bind H as c0 H0. step_bind H as c1 H1. step_bind H as c2 H2.
  destruct (interp_on_mask_inv mask _ _ c0 Hm H0) as [G0 R0].
  destruct (interp_on_mask_inv mask _ _ c1 Hm H1) as [G1 R1].
  destruct (interp_on_mask_inv mask _ _ c2 Hm H2) as [G2 R2].
  assert (Hp : plotting.pristine out
               = {| plotting.cell := {| plotting.curve_ocv := c0;
                                        plotting.mask_valid := mask |};
                    plotting.pe := {| plotting.curve_ocv := c1;
                                      plotting.mask_valid := mask |};
                    plotting.ne := {| plotting.curve_ocv := c2;
                                      plotting.mask_valid := mask |} |} /\
               (degraded = None <-> plotting.degraded out = plotting.Invalid)).
  { destruct degraded as [d|].
    - step_bind H as c3 H3. step_bind H as a1 Ha1. step_bind H as a2 Ha2.
      step_bind H as v1 Hv1. step_bind H as c4 H4.
      step_bind H as v2 Hv2. step_bind H as c5 H5.
      injection H as <-. split; [reflexivity|].
      cbn [plotting.degraded]. split; discriminate.
    - injection H as <-. split; [reflexivity|]. split; reflexivity. }
  destruct Hp as [-> Hd].
  cbn [plotting.cell plotting.pe plotting.ne plotting.curve_ocv].
  split; [|split; [exact Hd|]].
  - constructor; [split; [reflexivity | exact G0]|].
    constructor; [split; [reflexivity | exact G1]|].
    constructor; [split; [reflexivity | exact G2]|]. constructor.
  - intros Hshape. split; [|split]; auto.
Qed.

(** X12: for a degraded curve the section is valid; the cell curve
    carries the mask [x_cell_eoc <= x <= x_cell_eod]; all three curves
    are NaN wherever their mask is false; an electrode's mask is true
    exactly at the axis points of the cell window whose lithiation is in
    the half-cell's domain, and there the curve is the interpolant's
    value, never an extrapolated one. *)
Theorem mapped_degraded_section (d : ocv_degraded.DegradedOcvRaw)
  (out : plotting.PlotCurves) :
  plotting.map_curves_to_plot_x np_interp pristine (Some d) x_plot = Returns out ->
  exists theta results curves,
    plotting.degraded out = plotting.Valid theta results curves /\
    plotting.mask_valid (plotting.cell curves)
    = map (fun x => (ocv_degraded.x_cell_eoc d <=? x)
                    && (x <=? ocv_degraded.x_cell_eod d)) x_plot /\
    Forall (gapped_curve x_plot)
      [plotting.cell curves; plotting.pe curves; plotting.ne curves] /\
    forall i x, nth_error x_plot i = Some x ->
      let in_window :=
        (ocv_degraded.x_cell_eoc d <=? x) && (x <=? ocv_degraded.x_cell_eod d) in
      let x_pe :=
        electrode_position d (ocv_degraded.x_pe_eoc d) (ocv_degraded.x_pe_eod d) x in
      let x_ne :=
        electrode_position d (ocv_degraded.x_ne_eoc d) (ocv_degraded.x_ne_eod d) x in
      nth_error (plotting.mask_valid (plotting.pe curves)) i
      = Some (in_domain (ocv_pristine.nmc pristine) (nmc_sol_at pristine x_pe)
              && in_window) /\
      nth_error (plotting.mask_valid (plotting.ne curves)) i
      = Some (in_domain (ocv_pristine.gra pristine) (gra_sol_at pristine x_ne)
              && in_window) /\
      (nth_error (plotting.mask_valid (plotting.pe curves)) i = Some true ->
       nth_error (plotting.curve_ocv (plotting.pe curves)) i
       = Some (pe_ocv_at pristine x_pe)) /\
      (nth_error (plotting.mask_valid (plotting.ne curves)) i = Some true ->
       nth_error (plotting.curve_ocv (plotting.ne curves)) i
       = Some (ne_ocv_at pristine x_ne)).
Proof.
  unfold plotting.map_curves_to_plot_x. intros H.
  step_bind H as c0 H0. step_bind H as c1 H1. step_bind H as c2 H2.
  set (mask_cell := map (fun x => (ocv_degraded.x_cell_eoc d <=? x)
                                  && (x <=? ocv_degraded.x_cell_eod d)) x_plot) in *.
  assert (Hm : length mask_cell = length x_plot) by apply length_map.
  step_bind H as c3 H3.
  destruct (interp_on_mask_inv mask_cell _ _ c3 Hm H3) as [G3 _].
  unfold ocv_pristine.eval_ocv in H. cbn [bind] in H.
  unfold ocv_pristine.sol_nmc_from_x, ocv_pristine.sol_gra_from_x in H.
  rewrite !map_map in H.
  match type of H with
  | context [np_getmask (map ?f x_plot) (zip_with andb (map ?g x_plot) mask_cell)] =>
      set (pe_all := map f x_plot) in H;
      set (mask_pe := zip_with andb (map g x_plot) mask_cell) in H
  end.
  assert (Lpe : length pe_all = length x_plot) by apply length_map.
  assert (Lmpe : length mask_pe = length x_plot)
    by (unfold mask_pe; rewrite length_zip_with; rewrite !length_map; congruence).
  rewrite (np_getmask_same pe_all mask_pe) in H by congruence. cbn [bind] in H.
  step_bind H as c4 H4.
  match type of H with
  | context [np_getmask (map ?f x_plot) (zip_with andb (map ?g x_plot) mask_cell)] =>
      set (ne_all := map f x_plot) in H;
      set (mask_ne := zip_with andb (map g x_plot) mask_cell) in H
  end.
  assert (Lne : length ne_all = length x_plot) by apply length_map.
  assert (Lmne : length mask_ne = length x_plot)
    by (unfold mask_ne; rewrite length_zip_with; rewrite !length_map; congruence).
  rewrite (np_getmask_same ne_all mask_ne) in H by congruence. cbn [bind] in H.
  step_bind H as c5 H5.
  injection H as <-. cbn [plotting.degraded].
  do 3 eexists. split; [reflexivity|].
  cbn [plotting.cell plotting.pe plotting.ne plotting.curve_ocv plotting.mask_valid].
  destruct (np_setmask_inv _ _ _ _ H4) as (_ & L4 & N4 & S4).
  destruct (np_setmask_inv _ _ _ _ H5) as (_ & L5 & N5 & S5).
  specialize (S4 (length_compress pe_all mask_pe ltac:(congruence))).
  specialize (S5 (length_compress ne_all mask_ne ltac:(congruence))).
  assert (Lfull : length (np_full_like x_plot nan) = length x_plot) by apply length_map.
  rewrite scatter_compress in S4 by congruence.
  rewrite scatter_compress in S5 by congruence.
  split; [reflexivity|]. split.
  { constructor; [exact G3|]. constructor; [|constructor; [|constructor]].
    - unfold gapped_curve. cbn [plotting.curve_ocv plotting.mask_valid]. auto.
    - unfold gapped_curve. cbn [plotting.curve_ocv plotting.mask_valid]. auto. }
  intros i x Hx. cbv zeta.
  assert (Hi : (i < length x_plot)%nat) by (apply nth_error_Some; congruence).
  assert (Hcell : nth_error mask_cell i
                  = Some ((ocv_degraded.x_cell_eoc d <=? x)
                          && (x <=? ocv_degraded.x_cell_eod d)))
    by (unfold mask_cell; now rewrite nth_error_map, Hx).
  assert (Hzip : forall (g : float -> bool),
            nth_error (zip_with andb (map g x_plot) mask_cell) i
            = Some (g x && ((ocv_degraded.x_cell_eoc d <=? x)
                            && (x <=? ocv_degraded.x_cell_eod d)))).
  { intros g. unfold mask_cell. clear -Hx. revert i Hx.
    induction x_plot as [|x0 l IH]; intros [|i] Hx; cbn in Hx; try discriminate.
    - injection Hx as ->. reflexivity.
    - cbn [map zip_with nth_error]. now apply IH. }
  assert (Mpe : nth_error mask_pe i
                = Some (in_domain (ocv_pristine.nmc pristine)
                          (nmc_sol_at pristine
                             (electrode_position d (ocv_degraded.x_pe_eoc d)
                                (ocv_degraded.x_pe_eod d) x))
                        && ((ocv_degraded.x_cell_eoc d <=? x)
                            && (x <=? ocv_degraded.x_cell_eod d))))
    by (unfold mask_pe; rewrite Hzip; reflexivity).
  assert (Mne : nth_error mask_ne i
                = Some (in_domain (ocv_pristine.gra pristine)
                          (gra_sol_at pristine
                             (electrode_position d (ocv_degraded.x_ne_eoc d)
                                (ocv_degraded.x_ne_eod d) x))
                        && ((ocv_degraded.x_cell_eoc d <=? x)
                            && (x <=? ocv_degraded.x_cell_eod d))))
    by (unfold mask_ne; rewrite Hzip; reflexivity).
  split; [exact Mpe|]. split; [exact Mne|]. split.
  - intros Ht. rewrite S4.
    rewrite (nth_error_put_where _ mask_pe pe_all i nan true
               (pe_ocv_at pristine
                  (electrode_position d (ocv_degraded.x_pe_eoc d)
                     (ocv_degraded.x_pe_eod d) x)));
      [reflexivity | now apply nth_error_full_like | exact Ht |].
    unfold pe_all. rewrite nth_error_map, Hx. reflexivity.
  - intros Ht. rewrite S5.
    rewrite (nth_error_put_where _ mask_ne ne_all i nan true
               (ne_ocv_at pristine
                  (electrode_position d (ocv_degraded.x_ne_eoc d)
                     (ocv_degraded.x_ne_eod d) x)));
      [reflexivity | now apply nth_error_full_like | exact Ht |].
    unfold ne_all. rewrite nth_error_map, Hx. reflexivity.
Qed.

End MappingProperties.

Lemma example_curves_mapped :
  exists out,
    plotting.map_curves_to_plot_x example2.interp example.cell
      (Some example2.shifted) [0; 0.75; 1.5]
    = Returns out.
Proof. vm_compute. eexists. reflexivity. Defined.

Lemma mapped_pristine_section_witness :
  exists out,
    plotting.map_curves_to_plot_x example2.interp example.cell
      (Some example2.shifted) [0; 0.75; 1.5]
    = Returns out /\
    plotting.mask_valid (plotting.cell (plotting.pristine out)) = [true; true; false] /\
    gapped_curve [0; 0.75; 1.5] (plotting.cell (plotting.pristine out)).
Proof.
  destruct example_curves_mapped as [out H]. exists out. split; [exact H|].
  destruct (mapped_pristine_section example2.interp example.cell [0; 0.75; 1.5]
              (Some example2.shifted) out H) as (Hc & _ & _).
  inversion Hc as [|c l [Hmask Hgap] _]; subst.
  split; [exact Hmask | exact Hgap].
Defined.

Lemma mapped_degraded_section_witness :
  exists out theta results curves,
    plotting.map_curves_to_plot_x example2.interp example.cell
      (Some example2.shifted) [0; 0.75; 1.5]
    = Returns out /\
    plotting.degraded out = plotting.Valid theta results curves /\
    plotting.mask_valid (plotting.cell curves) = [false; true; true].
Proof.
  destruct example_curves_mapped as [out H].
  destruct (mapped_degraded_section example2.interp example.cell [0; 0.75; 1.5]
              example2.shifted out H) as (theta & results & curves & Hv & Hm & _).
  exists out, theta, results, curves.
  split; [exact H|]. split; [exact Hv | exact Hm].
Defined.

(* ================================================================== *)
(** * The gradient mask on ragged and non-numeric series *)
(* ================================================================== *)

Lemma np_broadcast_raises (f : float -> float -> float) (a b : list float) :
  length a <> length b -> length a <> 1%nat -> length b <> 1%nat ->
  np_broadcast f a b
  = Raises (ValueError "operands could not be broadcast together"%string).
Proof.
  intros Hab Ha Hb. unfold np_broadcast.
  apply Nat.eqb_neq in Hab. rewrite Hab.
  destruct a as [|x [|x' a]]; destruct b as [|y [|y' b]]; cbn in *;
    try congruence; try reflexivity.
Qed.

Lemma np_broadcast_scalar_l (f : float -> float -> float) (x : float) (b : list float) :
  exists r, np_broadcast f [x] b = Returns r /\ length r = length b.
Proof.
  unfold np_broadcast. destruct (length [x] =? length b)%nat eqn:E.
  - apply Nat.eqb_eq in E. eexists. split; [reflexivity|].
    rewrite length_zip_with; congruence.
  - eexists. split; [reflexivity|]. apply length_map.
Qed.

(** X13: for a series of at least 3 capacities, the gradient mask raises
    [ValueError] exactly when the OCV array has neither the length of the
    capacity array nor length 2 (whose single difference broadcasts); and
    then the estimator raises the same error before it seeds the random
    generator. *)
Theorem gradient_mask_shape_error (backend : Backend)
  (pristine : ocv_pristine.PristineCell) (measured : ocv_degraded.MeasuredOcv)
  (num_points num_starts : Z) (seed : option Z) (gradient_limit : float) (maxiter : Z) :
  let cap := ocv_degraded.capacity measured in
  let ocv := ocv_degraded.ocv measured in
  let err := ValueError "operands could not be broadcast together"%string in
  (3 <= length cap)%nat ->
  (ocv_degraded._gradient_mask cap ocv gradient_limit = Raises err
   <-> length ocv <> length cap /\ length ocv <> 2%nat) /\
  (length ocv = length cap \/ length ocv = 2%nat ->
   exists mask,
     ocv_degraded._gradient_mask cap ocv gradient_limit = Returns mask /\
     length mask = length cap) /\
  (length ocv <> length cap -> length ocv <> 2%nat ->
   ocv_degraded.estimate_diagnostics_multistart
     pristine measured num_points num_starts seed gradient_limit maxiter
   = ([], Raises err)).
Proof.
  cbv zeta. intros Hn.
  set (cap := ocv_degraded.capacity measured) in *.
  set (ocv := ocv_degraded.ocv measured) in *.
  assert (Hden : length (map (np_maximum 1e-12)
                           (map abs (np_diff (map (fun c => c * 100) cap))))
                 = (length cap - 1)%nat)
    by now rewrite !length_map, length_np_diff, length_map.
  assert (Hod : length (map abs (np_diff ocv)) = (length ocv - 1)%nat)
    by now rewrite length_map, length_np_diff.
  assert (Hraise : length ocv <> length cap -> length ocv <> 2%nat ->
            ocv_degraded._gradient_mask cap ocv gradient_limit
            = Raises (ValueError "operands could not be broadcast together"%string)).
  { intros H1 H2. unfold ocv_degraded._gradient_mask.
    rewrite np_broadcast_raises; [reflexivity | | |]; rewrite ?Hden, ?Hod; lia. }
  assert (Hret : length ocv = length cap \/ length ocv = 2%nat ->
            exists mask,
              ocv_degraded._gradient_mask cap ocv gradient_limit = Returns mask /\
              length mask = length cap).
  { intros [H | H].
    - destruct (gradient_mask_entries cap ocv gradient_limit H) as (mask & E & L & _).
      exists mask. split; [exact E|]. rewrite L. lia.
    - unfold ocv_degraded._gradient_mask.
      destruct ocv as [|o0 [|o1 [|o2 ocv']]]; try discriminate.
      cbn [np_diff map].
      destruct (np_broadcast_scalar_l div (abs (o1 - o0))
                  (map (np_maximum 1e-12)
                     (map abs (np_diff (map (fun c => c * 100) cap)))))
        as (r & -> & Hr).
      cbn [bind]. eexists. split; [reflexivity|].
      rewrite length_app, length_map, Hr, Hden. cbn [length]. lia. }
  split; [|split; [exact Hret|]].
  - split.
    + intros E.
      destruct (Nat.eq_dec (length ocv) (length cap)) as [H1 | H1].
      { destruct (Hret (or_introl H1)) as (m & Hm & _). congruence. }
      destruct (Nat.eq_dec (length ocv) 2) as [H2 | H2].
      { destruct (Hret (or_intror H2)) as (m & Hm & _). congruence. }
      now split.
    + intros [H1 H2]. now apply Hraise.
  - intros H1 H2. unfold ocv_degraded.estimate_diagnostics_multistart.
    fold cap ocv.
    replace (length cap <? 3)%nat with false by (symmetry; apply Nat.ltb_ge; lia).
    now rewrite (Hraise H1 H2).
Qed.

Lemma gradient_mask_shape_error_witness :
  ocv_degraded.estimate_diagnostics_multistart (backend := example.backend)
    example.cell example2.ragged_series 5 3 None 0.1 200
  = ([], Raises (ValueError "operands could not be broadcast together"%string)).
Proof.
  destruct (gradient_mask_shape_error example.backend example.cell
              example2.ragged_series 5 3 None 0.1 200 ltac:(cbn; lia))
    as (_ & _ & H).
  apply H; cbn; lia.
Defined.

(** X14: a NaN among the two capacities or the two OCV values of a step,
    or a NaN gradient limit, never yields a flat step: the mask entry is
    false. *)
Theorem nan_step_is_not_flat (capacity ocv : list float) (gradient_limit : float)
  (mask : list bool) (i : nat) :
  length ocv = length capacity ->
  ocv_degraded._gradient_mask capacity ocv gradient_limit = Returns mask ->
  (S i < length capacity)%nat ->
  is_nan (nth i capacity 0) || is_nan (nth (S i) capacity 0)
  || is_nan (nth i ocv 0) || is_nan (nth (S i) ocv 0)
  || is_nan gradient_limit = true ->
  nth_error mask i = Some false.
Proof.
  intros Hlen Hmask Hi Hnan.
  destruct (gradient_mask_entries capacity ocv gradient_limit Hlen)
    as (mask' & E & _ & Hent & _).
  rewrite E in Hmask. injection Hmask as <-.
  rewrite (Hent i Hi). f_equal.
  rewrite ltb_spec.
  apply orb_true_iff in Hnan. destruct Hnan as [Hnan | Hl].
  2:{ rewrite (nan_is _ Hl). unfold SFltb.
      now destruct (Prim2SF (gradient_at capacity ocv i)). }
  assert (Hg : is_nan (gradient_at capacity ocv i) = true).
  { unfold gradient_at.
    apply orb_true_iff in Hnan. destruct Hnan as [Hnan | Ho1].
    2:{ apply nan_div_l, nan_abs, nan_sub_l, Ho1. }
    apply orb_true_iff in Hnan. destruct Hnan as [Hnan | Ho0].
    2:{ apply nan_div_l, nan_abs, nan_sub_r, Ho0. }
    apply nan_div_r, nan_np_maximum_r, nan_abs.
    apply orb_true_iff in Hnan. destruct Hnan as [Hc0 | Hc1].
    - apply nan_sub_r, nan_mul_l, Hc0.
    - apply nan_sub_l, nan_mul_l, Hc1. }
  rewrite (nan_is _ Hg). reflexivity.
Qed.

Lemma nan_step_is_not_flat_witness :
  exists mask,
    ocv_degraded._gradient_mask (ocv_degraded.capacity example2.holed_series)
      (ocv_degraded.ocv example2.holed_series) 0.1 = Returns mask /\
    nth_error mask 0 = Some true /\
    nth_error mask 1 = Some false /\
    nth_error mask 2 = Some false.
Proof.
  eexists.
  match goal with
  | |- ?A /\ _ => assert (H : A) by (vm_compute; reflexivity)
  end.
  split; [exact H|]. split; [reflexivity|]. split.
  - exact (nan_step_is_not_flat (ocv_degraded.capacity example2.holed_series)
             (ocv_degraded.ocv example2.holed_series) 0.1 _ 1
             eq_refl H ltac:(cbn; lia) eq_refl).
  - exact (nan_step_is_not_flat (ocv_degraded.capacity example2.holed_series)
             (ocv_degraded.ocv example2.holed_series) 0.1 _ 2
             eq_refl H ltac:(cbn; lia) eq_refl).
Defined.

(* ================================================================== *)
(** * What the forward solve and the objective can return *)
(* ================================================================== *)

(** The forward solve returns, or raises NumPy's error for a negative
    sample count after every check has passed. *)
Lemma solve_outcomes (backend : Backend)
  (pristine : ocv_pristine.PristineCell) (lli lam_pe lam_ne : float) (num_points : Z) :
  let solve :=
    ocv_degraded.calculate_degraded_ocv_raw pristine lli lam_pe lam_ne num_points in
  (exists r, solve = Returns r) \/
  ((num_points < 0)%Z /\
   solve = Raises (ValueError "Number of samples must be non-negative"%string) /\
   (1 <=? lam_pe) = false /\ (1 <=? lam_ne) = false /\
   exists sol ier,
     root_solve pristine lli lam_pe lam_ne = Returns (sol, ier) /\
     (0 < ier)%Z /\ ~ degenerate_window lli sol).
Proof.
  cbv zeta.
  set (solve := ocv_degraded.calculate_degraded_ocv_raw pristine lli lam_pe lam_ne
                  num_points).
  destruct ((1 - lam_pe <=? 0) || (1 - lam_ne <=? 0)) eqn:Hg.
  { left. exists None. now apply solve_guard. }
  destruct (root_solve pristine lli lam_pe lam_ne) as [[sol ier]|e] eqn:Hroot.
  2:{ left. exists None. now apply (solve_root_raises _ _ _ _ _ e). }
  destruct (Z.leb_spec ier 0) as [Hier | Hier].
  { left. exists None. now apply (solve_root_not_converged _ _ _ _ _ sol ier). }
  unfold solve. rewrite (solve_after_root _ _ _ _ _ sol ier Hg Hroot Hier).
  destruct (negb (np_isfinite (fst sol)) || negb (np_isfinite (1 - lli + snd sol))
            || (1 - lli + snd sol <=? fst sol)) eqn:Hw.
  { left. now exists None. }
  destruct (Z.ltb_spec num_points 0) as [Hneg | Hpos].
  - right. split; [exact Hneg|].
    rewrite np_linspace_negative by assumption. cbn [bind].
    split; [reflexivity|].
    apply orb_false_iff in Hg. destruct Hg as [Hpe Hne].
    rewrite sub_one_nonpos in Hpe, Hne.
    split; [exact Hpe|]. split; [exact Hne|].
    exists sol, ier. split; [reflexivity|]. split; [exact Hier|].
    apply orb_false_iff in Hw. destruct Hw as [Hw Hle].
    apply orb_false_iff in Hw. destruct Hw as [Hf1 Hf2].
    apply negb_false_iff in Hf1, Hf2. unfold np_isfinite in Hf1, Hf2.
    unfold degenerate_window. cbv zeta. intros [H | [H | H]]; congruence.
  - left. destruct (np_linspace_returns (fst sol) (1 - lli + snd sol) num_points Hpos)
      as [l ->].
    cbn [bind]. eexists. reflexivity.
Qed.

(** X15: the forward solve returns for every [num_points >= 0],
    whatever the root solver does.  It raises exactly when [num_points]
    is negative and every earlier test has passed: neither
    [LAM_PE >= 1] nor [LAM_NE >= 1] (a NaN passes), the root solve
    returned with a flag [ier > 0] (converged or not), and the window
    bounds are finite with [x_cell_eoc < x_cell_eod]; the exception is
    then NumPy's [ValueError] for the sample count. *)
Theorem solve_raises_only_on_negative_count (backend : Backend)
  (pristine : ocv_pristine.PristineCell) (lli lam_pe lam_ne : float) (num_points : Z) :
  let solve :=
    ocv_degraded.calculate_degraded_ocv_raw pristine lli lam_pe lam_ne num_points in
  ((0 <= num_points)%Z -> exists r, solve = Returns r) /\
  (forall e, solve = Raises e <->
     e = ValueError "Number of samples must be non-negative"%string /\
     (num_points < 0)%Z /\
     (1 <=? lam_pe) = false /\ (1 <=? lam_ne) = false /\
     exists sol ier,
       root_solve pristine lli lam_pe lam_ne = Returns (sol, ier) /\ (0 < ier)%Z /\
       ~ degenerate_window lli sol).
Proof.
  cbv zeta.
  pose proof (solve_outcomes backend pristine lli lam_pe lam_ne num_points) as Hcases.
  cbv zeta in Hcases. split.
  - intros Hn. destruct Hcases as [H | (Hneg & _)]; [exact H | lia].
  - intros e. split.
    + intros He. destruct Hcases as [[r Hr] | (Hneg & Hs & Hpe & Hne & Hroot)].
      * rewrite Hr in He. discriminate.
      * rewrite Hs in He. injection He as <-. repeat split; assumption.
    + intros (-> & Hneg & Hpe & Hne & sol & ier & Hroot & Hier & Hw).
      assert (Hg : (1 - lam_pe <=? 0) || (1 - lam_ne <=? 0) = false)
        by (rewrite !sub_one_nonpos, Hpe, Hne; reflexivity).
      rewrite (solve_after_root pristine lli lam_pe lam_ne num_points sol ier
                 Hg Hroot Hier).
      unfold degenerate_window in Hw. cbv zeta in Hw. unfold np_isfinite.
      destruct (is_finite (fst sol)); [|exfalso; auto].
      destruct (is_finite (1 - lli + snd sol)); [|exfalso; auto].
      destruct (1 - lli + snd sol <=? fst sol); [exfalso; auto|].
      cbn [negb orb]. now rewrite np_linspace_negative.
Qed.

Lemma solve_returns (backend : Backend)
  (pristine : ocv_pristine.PristineCell) (lli lam_pe lam_ne : float) (num_points : Z) :
  (0 <= num_points)%Z ->
  exists r,
    ocv_degraded.calculate_degraded_ocv_raw pristine lli lam_pe lam_ne num_points
    = Returns r.
Proof.
  intros Hn.
  destruct (solve_outcomes backend pristine lli lam_pe lam_ne num_points)
    as [H | (Hneg & _)]; [exact H | lia].
Qed.

(** X16: whatever the objective returns is a finite number that is not
    negative, the penalty included; and for a non-negative [num_points],
    a measured series with one OCV and one mask entry per capacity and an
    [interp1d] that returns one value per query point, the objective
    always returns: no exception reaches the optimiser. *)
Theorem objective_is_finite_nonneg (backend : Backend)
  (pristine : ocv_pristine.PristineCell) (num_points : Z)
  (cap ocv : list float) (mask_flat : list bool) (theta : vec3) :
  let value := ocv_degraded.objective pristine num_points cap ocv mask_flat theta in
  (forall v, value = Returns v -> is_finite v = true /\ (0 <=? v) = true) /\
  ((0 <= num_points)%Z -> length ocv = length cap -> length mask_flat = length cap ->
   (forall x y q r, interp1d_linear x y q = Returns r -> length r = length q) ->
   exists v, value = Returns v).
Proof.
  cbv zeta. destruct theta as [[lli lam_pe] lam_ne].
  assert (Hpen : is_finite ocv_degraded.penalty = true /\
                 (0 <=? ocv_degraded.penalty) = true) by (split; reflexivity).
  unfold ocv_degraded.objective. split.
  - intros v.
    destruct (ocv_degraded.calculate_degraded_ocv_raw _ _ _ _ _) as [[d|]|e];
      cbn [bind]; [| intros H; injection H as <-; exact Hpen | discriminate].
    destruct (negb (np_isfinite (ocv_degraded.cell_capacity d))
              || (ocv_degraded.cell_capacity d <=? 0));
      [intros H; injection H as <-; exact Hpen|].
    destruct (length _ <? 2)%nat; [intros H; injection H as <-; exact Hpen|].
    destruct (interp1d_linear _ _ _) as [pred|e];
      [| intros H; injection H as <-; exact Hpen].
    destruct (np_getmask pred mask_flat) as [p|e]; cbn [bind]; [|discriminate].
    destruct (np_getmask ocv mask_flat) as [m|e]; cbn [bind]; [|discriminate].
    destruct (np_broadcast sub p m) as [err|e]; cbn [bind]; [|discriminate].
    destruct (np_isfinite (ocv_degraded.rmse_of err)) eqn:Hf; cbn [negb];
      intros H; injection H as <-; [|exact Hpen].
    split; [exact Hf|]. unfold ocv_degraded.rmse_of in *.
    now apply sqrt_finite_nonneg.
  - intros Hn Ho Hm Hshape.
    destruct (solve_returns backend pristine lli lam_pe lam_ne num_points Hn)
      as [r ->].
    cbn [bind]. destruct r as [d|]; [|eexists; reflexivity].
    destruct (negb (np_isfinite (ocv_degraded.cell_capacity d))
              || (ocv_degraded.cell_capacity d <=? 0)); [eexists; reflexivity|].
    destruct (length _ <? 2)%nat; [eexists; reflexivity|].
    destruct (interp1d_linear _ _ _) as [pred|e] eqn:Hi; [|eexists; reflexivity].
    apply Hshape in Hi.
    rewrite (np_getmask_same pred mask_flat) by congruence.
    rewrite (np_getmask_same ocv mask_flat) by congruence. cbn [bind].
    rewrite np_broadcast_same
      by (rewrite !length_compress by congruence; reflexivity).
    cbn [bind]. destruct (negb _); eexists; reflexivity.
Qed.

(* ================================================================== *)
(** * The multistart search as a whole *)
(* ================================================================== *)

(** X17: when the series has a flat step and the starts are drawn, but no
    start's optimisation returns a finite objective value, the estimator
    returns [None], after seeding the generator and drawing once; it does
    not raise. *)
Theorem no_successful_start_is_absent (backend : Backend)
  (pristine : ocv_pristine.PristineCell) (measured : ocv_degraded.MeasuredOcv)
  (num_points num_starts : Z) (seed : option Z) (gradient_limit : float) (maxiter : Z)
  (mask : list bool) (rng : Generator) (starts : list vec3) :
  (3 <= length (ocv_degraded.capacity measured))%nat ->
  ocv_degraded._gradient_mask (ocv_degraded.capacity measured)
    (ocv_degraded.ocv measured) gradient_limit = Returns mask ->
  np_any mask = true ->
  default_rng seed = Returns rng ->
  rng_random rng num_starts = Returns starts ->
  successful_starts
    (ocv_degraded.objective pristine num_points (ocv_degraded.capacity measured)
       (ocv_degraded.ocv measured) mask) maxiter starts = [] ->
  ocv_degraded.estimate_diagnostics_multistart
    pristine measured num_points num_starts seed gradient_limit maxiter
  = ([ocv_degraded.RngSeeded seed; ocv_degraded.RngDrawn num_starts], Returns None).
Proof.
  intros Hn Hmask Hany Hrng Hstarts Hok.
  unfold ocv_degraded.estimate_diagnostics_multistart.
  replace (length (ocv_degraded.capacity measured) <? 3)%nat with false
    by (symmetry; apply Nat.ltb_ge; lia).
  rewrite Hmask, Hany, Hrng, Hstarts. cbn [negb]. f_equal.
  unfold ocv_degraded.fit_from_starts.
  pose proof (loop_finds_best
                (ocv_degraded.objective pristine num_points
                   (ocv_degraded.capacity measured) (ocv_degraded.ocv measured) mask)
                maxiter starts) as [_ Hbest].
  rewrite Hok in Hbest.
  destruct Hbest as [(_ & -> & _) | (x & _ & [] & _)]. reflexivity.
Qed.

Lemma no_successful_start_is_absent_witness :
  rng_random (Backend := example2.failing) (Some 7%Z) 3
  = Returns [(0, 0, 0); (0.125, 0, 0); (0.25, 0, 0)] /\
  minimize (Backend := example2.failing) (fun _ => Returns 0) (0, 0, 0) 200
  = Raises LibraryError /\
  minimize (Backend := example2.failing) (fun _ => Returns 0) (0.125, 0, 0) 200
  = Returns {| res_fun := None; res_x := (0.125, 0, 0) |} /\
  minimize (Backend := example2.failing) (fun _ => Returns 0) (0.25, 0, 0) 200
  = Returns {| res_fun := Some infinity; res_x := (0.25, 0, 0) |} /\
  ocv_degraded.estimate_diagnostics_multistart (backend := example2.failing)
    example.cell example.flat_series 5 3 (Some 7%Z) 0.1 200
  = ([ocv_degraded.RngSeeded (Some 7%Z); ocv_degraded.RngDrawn 3], Returns None).
Proof.
  split; [reflexivity|]. split; [reflexivity|]. split; [reflexivity|].
  split; [reflexivity|].
  apply (no_successful_start_is_absent example2.failing example.cell
           example.flat_series 5 3 (Some 7%Z) 0.1 200
           [true; true; true; true; false] (Some 7%Z)
           [(0, 0, 0); (0.125, 0, 0); (0.25, 0, 0)]).
  - cbn. lia.
  - vm_compute. reflexivity.
  - reflexivity.
  - reflexivity.
  - reflexivity.
  - reflexivity.
Defined.

Lemma best_of_permuted (ok ok' : list (float * vec3))
  (st st' : ocv_degraded.SearchState) :
  Permutation ok ok' -> best_of ok st -> best_of ok' st' ->
  ocv_degraded.n_success st = ocv_degraded.n_success st' /\
  (ocv_degraded.best_rmse st =? ocv_degraded.best_rmse st') = true /\
  (ocv_degraded.best_x st = None <-> ocv_degraded.best_x st' = None).
Proof.
  intros Hp [Hn Hb] [Hn' Hb'].
  split; [rewrite Hn, Hn'; now rewrite (Permutation_length Hp)|].
  destruct Hb as [(E & Hx & Hr) | (x & Hx & Hin & Hfin & Hmin)];
    destruct Hb' as [(E' & Hx' & Hr') | (x' & Hx' & Hin' & Hfin' & Hmin')].
  - rewrite Hr, Hr', Hx, Hx'. split; [reflexivity|]. split; reflexivity.
  - subst ok. apply Permutation_nil in Hp. subst ok'. destruct Hin'.
  - subst ok'. apply Permutation_sym, Permutation_nil in Hp. subst ok. destruct Hin.
  - split.
    + pose proof (Hmin' _ _ (Permutation_in _ Hp Hin)) as H1.
      pose proof (Hmin _ _ (Permutation_in _ (Permutation_sym Hp) Hin')) as H2.
      pose proof (finite_not_nan _ Hfin) as N. pose proof (finite_not_nan _ Hfin') as N'.
      rewrite leb_fkey in H1, H2 by assumption. rewrite eqb_fkey by assumption.
      apply Z.leb_le in H1, H2. apply Z.eqb_eq. lia.
    + rewrite Hx, Hx'. split; discriminate.
Qed.

(** X18: the outcome of the multistart loop does not depend on the order
    of the starts: for two orders of the same starts the number of
    successes is the same, the best RMSE is numerically the same, and a
    best point is found for both or for neither. *)
Theorem multistart_order_independent (backend : Backend)
  (obj : vec3 -> outcome float) (maxiter : Z) (starts starts' : list vec3) :
  Permutation starts starts' ->
  let st := ocv_degraded.multistart_loop obj maxiter starts in
  let st' := ocv_degraded.multistart_loop obj maxiter starts' in
  ocv_degraded.n_success st = ocv_degraded.n_success st' /\
  (ocv_degraded.best_rmse st =? ocv_degraded.best_rmse st') = true /\
  (ocv_degraded.best_x st = None <-> ocv_degraded.best_x st' = None).
Proof.
  intros Hp. cbv zeta.
  apply (best_of_permuted (successful_starts obj maxiter starts)
           (successful_starts obj maxiter starts')).
  - unfold successful_starts. now apply Permutation_flat_map.
  - apply loop_finds_best.
  - apply loop_finds_best.
Qed.

Lemma multistart_order_independent_witness :
  let obj := fun theta : vec3 => Returns (fst (fst theta)) in
  (ocv_degraded.best_rmse
     (ocv_degraded.multistart_loop (backend := example.backend) obj 200
        [(0.5, 0, 0); (0.25, 0, 0)])
   =? ocv_degraded.best_rmse
        (ocv_degraded.multistart_loop (backend := example.backend) obj 200
           [(0.25, 0, 0); (0.5, 0, 0)])) = true.
Proof.
  intros obj.
  exact (proj1 (proj2 (multistart_order_independent example.backend obj 200
                         [(0.5, 0, 0); (0.25, 0, 0)] [(0.25, 0, 0); (0.5, 0, 0)]
                         (perm_swap _ _ _)))).
Defined.

(* ================================================================== *)
(** * The response of the estimation endpoint *)
(* ================================================================== *)

Lemma np_any_count (mask : list bool) :
  np_any mask = true -> (1 <= length (filter (fun b => b) mask))%nat.
Proof.
  unfold np_any. induction mask as [|b mask IH]; [discriminate|].
  cbn [existsb filter]. destruct b; cbn [orb length]; [lia | exact IH].
Qed.

Lemma estimate_present (backend : Backend)
  (pristine : ocv_pristine.PristineCell) (measured : ocv_degraded.MeasuredOcv)
  (num_points num_starts : Z) (seed : option Z) (gradient_limit : float) (maxiter : Z)
  (events : list ocv_degraded.rng_event) (est : ocv_degraded.DiagnosticsEstimate) :
  ocv_degraded.estimate_diagnostics_multistart
    pristine measured num_points num_starts seed gradient_limit maxiter
  = (events, Returns (Some est)) ->
  events = [ocv_degraded.RngSeeded seed; ocv_degraded.RngDrawn num_starts] /\
  ocv_degraded._gradient_mask (ocv_degraded.capacity measured)
    (ocv_degraded.ocv measured) gradient_limit
  = Returns (ocv_degraded.mask_flat est) /\
  np_any (ocv_degraded.mask_flat est) = true /\
  is_finite (ocv_degraded.rmse_v est) = true /\
  ocv_degraded.starts_tried est = num_starts /\
  (1 <= ocv_degraded.starts_success est)%Z /\
  exists d,
    ocv_degraded.calculate_degraded_ocv_raw pristine
      (ocv_degraded.LLI (ocv_degraded.theta est))
      (ocv_degraded.LAM_PE (ocv_degraded.theta est))
      (ocv_degraded.LAM_NE (ocv_degraded.theta est)) num_points
    = Returns (Some d).
Proof.
  unfold ocv_degraded.estimate_diagnostics_multistart. intros H.
  destruct (length (ocv_degraded.capacity measured) <? 3)%nat; [discriminate|].
  destruct (ocv_degraded._gradient_mask _ _ _) as [mask|e] eqn:Hmask; [|discriminate].
  destruct (np_any mask) eqn:Hany; cbn [negb] in H; [|discriminate].
  destruct (default_rng seed) as [rng|e] eqn:Hrng; [|discriminate].
  destruct (rng_random rng num_starts) as [starts|e] eqn:Hstarts; [|discriminate].
  injection H as <- H. split; [reflexivity|].
  unfold ocv_degraded.fit_from_starts in H.
  set (obj := ocv_degraded.objective pristine num_points
                (ocv_degraded.capacity measured) (ocv_degraded.ocv measured) mask) in *.
  pose proof (loop_finds_best obj maxiter starts) as [Hn Hbest].
  set (st := ocv_degraded.multistart_loop obj maxiter starts) in *.
  destruct Hbest as [(_ & Hnone & _) | (x & Hx & Hin & Hfin & Hmin)].
  { rewrite Hnone in H. discriminate. }
  rewrite Hx in H. destruct x as [[b0 b1] b2].
  unfold np_isfinite in H. rewrite Hfin in H. cbn [negb] in H.
  destruct (ocv_degraded.calculate_degraded_ocv_raw pristine b0 b1 b2 num_points)
    as [[d|]|e] eqn:Hd; cbn [bind] in H; try discriminate.
  destruct (interp1d_linear _ _ _) as [pred|e]; cbn [bind] in H; [|discriminate].
  injection H as <-.
  cbn [ocv_degraded.theta ocv_degraded.rmse_v ocv_degraded.starts_success
       ocv_degraded.starts_tried ocv_degraded.mask_flat ocv_degraded.LLI
       ocv_degraded.LAM_PE ocv_degraded.LAM_NE].
  split; [reflexivity|]. split; [exact Hany|]. split; [exact Hfin|].
  split; [reflexivity|]. split.
  - rewrite Hn. destruct (successful_starts obj maxiter starts); [destruct Hin|].
    cbn [length]. lia.
  - exists d. exact Hd.
Qed.

(** X19: a response of the estimation endpoint is consistent with the
    estimator's result and with itself.  It names the pristine profile.
    With [valid = true] the estimator returned an estimate, and the
    response carries [theta_deg], a finite [rmse_v] and the counters
    [starts_tried = num_starts], [starts_success >= 1] and
    [num_flat >= 1], after one seeding of the generator and one draw;
    with [valid = false] the estimator returned [None], and the response
    carries neither [theta_deg] nor [rmse_v] and the reason
    [optimizer_failed_or_no_flat_region]. *)
Theorem endpoint_response_consistent (backend : Backend)
  (pristine : ocv_pristine.PristineCell) (measured : ocv_degraded.MeasuredOcv)
  (n num_starts : Z) (seed : option Z) (gradient_limit : float) (maxiter : Z)
  (events : list ocv_degraded.rng_event) (resp : main.DiagnosticsEstimateResponse) :
  main.diagnostics_estimate pristine measured n num_starts seed gradient_limit maxiter
  = (events, Returns resp) ->
  exists est,
    ocv_degraded.estimate_diagnostics_multistart
      pristine measured n num_starts seed gradient_limit maxiter
    = (events, Returns est) /\
    main.pristine_id resp = ocv_pristine.profile_id pristine /\
    (main.valid resp = true <-> est <> None) /\
    (main.valid resp = true ->
     events = [ocv_degraded.RngSeeded seed; ocv_degraded.RngDrawn num_starts] /\
     exists th rmse success flat,
       main.theta_deg resp = Some th /\
       main.rmse_v resp = Some rmse /\ is_finite rmse = true /\
       main.debug resp = main.DebugCounters num_starts success flat /\
       (1 <= success)%Z /\ (1 <= flat)%Z) /\
    (main.valid resp = false ->
     main.theta_deg resp = None /\ main.rmse_v resp = None /\
     main.debug resp
     = main.DebugReason "optimizer_failed_or_no_flat_region"%string).
Proof.
  unfold main.diagnostics_estimate.
  destruct (ocv_degraded.estimate_diagnostics_multistart
              pristine measured n num_starts seed gradient_limit maxiter)
    as [ev r] eqn:Hest.
  intros H. injection H as -> H.
  destruct r as [est|e]; cbn [bind] in H; [|discriminate].
  exists est. split; [reflexivity|].
  destruct est as [e|].
  - destruct (estimate_present backend _ _ _ _ _ _ _ _ _ Hest)
      as (Hev & _ & Hany & Hfin & Htried & Hsucc & d & Hd).
    rewrite Hd in H. cbn [bind] in H. injection H as <-.
    cbn [main.valid main.pristine_id main.theta_deg main.rmse_v main.debug].
    split; [reflexivity|]. split; [split; [discriminate | reflexivity]|].
    split; [|discriminate].
    intros _. split; [exact Hev|].
    do 4 eexists. split; [reflexivity|]. split; [reflexivity|].
    split; [exact Hfin|]. rewrite Htried. split; [reflexivity|].
    split; [exact Hsucc|]. apply np_any_count in Hany. lia.
  - injection H as <-.
    cbn [main.valid main.pristine_id main.theta_deg main.rmse_v main.debug].
    split; [reflexivity|]. split; [split; [discriminate | congruence]|].
    split; [discriminate|]. intros _. repeat split.
Qed.

Lemma endpoint_response_consistent_witness :
  exists resp,
    main.diagnostics_estimate (backend := example.backend)
      example.cell example.flat_series 5 3 (Some 7%Z) 0.1 200
    = ([ocv_degraded.RngSeeded (Some 7%Z); ocv_degraded.RngDrawn 3], Returns resp) /\
    main.valid resp = true /\
    main.pristine_id resp = "demo"%string.
Proof.
  eexists.
  match goal with
  | |- ?A /\ _ => assert (H : A) by (vm_compute; reflexivity)
  end.
  split; [exact H|]. split; [reflexivity|].
  destruct (endpoint_response_consistent example.backend _ _ _ _ _ _ _ _ _ H)
    as (est & _ & Hid & _).
  exact Hid.
Defined.

(* ================================================================== *)
(** * From the loader to the estimator *)
(* ================================================================== *)

Lemma loaded_lengths (raw : option ocv_degraded.MatStruct)
  (m : ocv_degraded.MeasuredOcv) :
  ocv_degraded.load_measured_ocv_from_mat raw = Returns m ->
  (3 <= length (ocv_degraded.capacity m))%nat /\
  length (ocv_degraded.ocv m) = length (ocv_degraded.capacity m).
Proof.
  unfold ocv_degraded.load_measured_ocv_from_mat. intros H.
  destruct raw as [[[cap|] [ocv|]]|];
    cbn [ocv_degraded._get_field ocv_degraded.mat_capacity ocv_degraded.mat_ocv bind]
      in H; try discriminate.
  destruct (length cap =? length ocv)%nat eqn:El; cbn [negb] in H; [|discriminate].
  apply Nat.eqb_eq in El. destruct (np_getmask_finite_pairs cap ocv El) as [Hc Ho].
  rewrite Hc, Ho in H. cbn [bind] in H.
  destruct (length (map fst (finite_pairs cap ocv)) <? 3)%nat eqn:E3; [discriminate|].
  apply Nat.ltb_ge in E3. injection H as <-.
  cbn [ocv_degraded.capacity ocv_degraded.ocv]. unfold np_take.
  rewrite !length_map.
  assert (Hl : length (np_argsort (map fst (finite_pairs cap ocv)))
               = length (map fst (finite_pairs cap ocv))).
  { rewrite (Permutation_length (np_argsort_perm _)). apply length_seq. }
  rewrite length_map in *. split; [lia | reflexivity].
Qed.

(** X20: a series that the loader returned always gets past the
    estimator's own checks: its gradient mask is defined and has one
    entry per point; when no step is flat the estimator returns [None]
    without touching the random generator, otherwise its first effect is
    to seed the generator. *)
Theorem loaded_series_reaches_search (backend : Backend)
  (pristine : ocv_pristine.PristineCell) (raw : option ocv_degraded.MatStruct)
  (m : ocv_degraded.MeasuredOcv)
  (num_points num_starts : Z) (seed : option Z) (gradient_limit : float) (maxiter : Z) :
  ocv_degraded.load_measured_ocv_from_mat raw = Returns m ->
  let run :=
    ocv_degraded.estimate_diagnostics_multistart
      pristine m num_points num_starts seed gradient_limit maxiter in
  exists mask,
    ocv_degraded._gradient_mask (ocv_degraded.capacity m) (ocv_degraded.ocv m)
      gradient_limit = Returns mask /\
    length mask = length (ocv_degraded.capacity m) /\
    (np_any mask = false -> run = ([], Returns None)) /\
    (np_any mask = true ->
     exists later r, run = (ocv_degraded.RngSeeded seed :: later, r)).
Proof.
  intros Hload. cbv zeta.
  destruct (loaded_lengths raw m Hload) as [H3 Hlen].
  destruct (gradient_mask_entries _ _ gradient_limit Hlen) as (mask & Hmask & Hl & _).
  exists mask. split; [exact Hmask|]. split; [rewrite Hl; lia|].
  unfold ocv_degraded.estimate_diagnostics_multistart.
  replace (length (ocv_degraded.capacity m) <? 3)%nat with false
    by (symmetry; apply Nat.ltb_ge; lia).
  rewrite Hmask. split; intros Hany; rewrite Hany; cbn [negb]; [reflexivity|].
  destruct (default_rng seed) as [rng|e]; [|eexists; eexists; reflexivity].
  destruct (rng_random rng num_starts); eexists; eexists; reflexivity.
Qed.

Lemma loaded_series_reaches_search_witness :
  exists m mask,
    ocv_degraded.load_measured_ocv_from_mat (Some example.repeated_capacity)
    = Returns m /\
    ocv_degraded._gradient_mask (ocv_degraded.capacity m) (ocv_degraded.ocv m) 0.1
    = Returns mask /\
    length mask = length (ocv_degraded.capacity m).
Proof.
  assert (H : exists m,
            ocv_degraded.load_measured_ocv_from_mat (Some example.repeated_capacity)
            = Returns m) by (vm_compute; eexists; reflexivity).
  destruct H as [m H].
  destruct (loaded_series_reaches_search example.backend example.cell _ m 5 3 None 0.1
              200 H) as (mask & Hm & Hl & _).
  exists m, mask. split; [exact H|]. split; [exact Hm | exact Hl].
Defined.

(* ================================================================== *)
(** * The curves endpoint, end to end *)
(* ================================================================== *)

Lemma np_setmask_compress_returns (x_plot : list float) (mask : list bool)
  (vals : list float) :
  length vals = length x_plot -> length mask = length x_plot ->
  exists r,
    plotting.np_setmask (np_full_like x_plot nan) mask (compress vals mask) = Returns r.
Proof.
  intros Hv Hm. unfold plotting.np_setmask, np_full_like.
  rewrite length_map, <- Hm, Nat.eqb_refl. cbn [negb].
  rewrite length_compress by congruence. rewrite Nat.eqb_refl.
  eexists. reflexivity.
Qed.

Lemma bundle_sound (x_plot : list float) (c : plotting.Curve) :
  gapped_curve x_plot c ->
  sound_bundle (length x_plot) (curves_endpoint.bundle x_plot c).
Proof.
  intros (Hc & Hm & Hnan). unfold sound_bundle, curves_endpoint.bundle.
  cbn [curves_endpoint.x curves_endpoint.ocv curves_endpoint.mask_valid].
  assert (Hinf : forall l, Forall (fun v => is_infinity v = false)
                             (main_lists._np_to_list l)).
  { intros l. apply Forall_forall. intros y Hy.
    unfold main_lists._np_to_list in Hy. apply in_map_iff in Hy.
    destruct Hy as (v & <- & _). unfold np_isfinite.
    destruct (is_finite v) eqn:E; [now apply finite_not_infinity | reflexivity]. }
  unfold main_lists._np_to_list at 1 2. rewrite !length_map.
  split; [reflexivity|]. split; [exact Hc|]. split; [exact Hm|].
  split; [apply Hinf|]. split; [apply Hinf|].
  intros i Hi. unfold main_lists._np_to_list.
  rewrite nth_error_map, (Hnan i Hi). reflexivity.
Qed.

Lemma degraded_lengths (backend : Backend) (pristine : ocv_pristine.PristineCell)
  (lli lam_pe lam_ne : float) (n : Z) (d : ocv_degraded.DegradedOcvRaw) :
  ocv_degraded.calculate_degraded_ocv_raw pristine lli lam_pe lam_ne n
  = Returns (Some d) ->
  length (ocv_degraded.capacity_norm d) = Z.to_nat n /\
  length (ocv_degraded.ocv_cell d) = Z.to_nat n /\
  ocv_degraded.lli d = lli /\ ocv_degraded.lam_pe d = lam_pe /\
  ocv_degraded.lam_ne d = lam_ne.
Proof.
  intros H.
  destruct (solve_success_inv pristine lli lam_pe lam_ne n d H)
    as (sol & ier & _ & _ & _ & _ & _ & _ & Hlin & Hd).
  destruct (np_linspace_length _ _ _ _ Hlin) as [_ Hlen].
  set (cap := ocv_degraded.capacity_norm d) in *.
  rewrite Hd.
  cbn [sampled_curve ocv_degraded.ocv_cell ocv_degraded.lli ocv_degraded.lam_pe
       ocv_degraded.lam_ne].
  cbv zeta. rewrite length_map. repeat split; assumption.
Qed.

Section CurvesEndpoint.

Context {backend : Backend}.
Variable PchipInterpolator : list float -> list float -> outcome (float -> float).
Variable np_interp : list float -> list float -> list float -> outcome (list float).

Lemma built_cell_lengths (profile_id : string)
  (nmc_raw gra_raw : option (list (float * float)))
  (endpoints : list (string * float)) (n : Z) (cell : ocv_pristine.PristineCell) :
  pristine_csv.build_pristine_cell_from_csv PchipInterpolator profile_id
    nmc_raw gra_raw endpoints n = Returns cell ->
  (1 <= n)%Z /\
  length (ocv_pristine.x_grid cell) = Z.to_nat n /\
  length (ocv_pristine.ocv_nmc cell) = Z.to_nat n /\
  length (ocv_pristine.ocv_gra cell) = Z.to_nat n /\
  length (ocv_pristine.ocv_cell cell) = Z.to_nat n.
Proof.
  unfold pristine_csv.build_pristine_cell_from_csv. intros H.
  step_bind H as tn Ltn. step_bind H as tg Ltg.
  step_bind H as fn Pn. step_bind H as fg Pg.
  step_bind H as nmin Hnmin. step_bind H as nmax Hnmax.
  step_bind H as gmin Hgmin. step_bind H as gmax Hgmax.
  step_bind H as xg Hlin.
  step_bind H as ne0 Kn0. step_bind H as ne1 Kn1.
  step_bind H as ge0 Kg0. step_bind H as ge1 Kg1.
  unfold ocv_pristine.eval_ocv in H. cbn [bind] in H.
  rewrite np_broadcast_same in H by now rewrite !length_map.
  cbn [bind] in H.
  match type of H with
  | context [ocv_degraded.item0 (zip_with sub ?A ?B)] =>
      set (gn := A) in H; set (gg := B) in H
  end.
  assert (Hgn : length gn = length xg) by (unfold gn; now rewrite !length_map).
  assert (Hgg : length gg = length xg) by (unfold gg; now rewrite !length_map).
  assert (Hcell : length (zip_with sub gn gg) = length xg)
    by (rewrite length_zip_with; congruence).
  step_bind H as vmax Hv0. step_bind H as vmin Hv1.
  injection H as <-.
  destruct (np_linspace_length _ _ _ _ Hlin) as [Hn Hlen].
  cbn [ocv_pristine.x_grid ocv_pristine.ocv_nmc ocv_pristine.ocv_gra
       ocv_pristine.ocv_cell].
  apply item0_nth in Hv0.
  assert (Hpos : (0 < length (zip_with sub gn gg))%nat)
    by (apply nth_error_Some; congruence).
  rewrite Hcell, Hgn, Hgg, Hlen in *.
  split; [lia|]. repeat split; reflexivity.
Qed.

Lemma map_curves_gapped (pristine : ocv_pristine.PristineCell)
  (degraded : option ocv_degraded.DegradedOcvRaw) (x_plot : list float)
  (out : plotting.PlotCurves) :
  plotting.map_curves_to_plot_x np_interp pristine degraded x_plot = Returns out ->
  let p := plotting.pristine out in
  (gapped_curve x_plot (plotting.cell p) /\ gapped_curve x_plot (plotting.pe p) /\
   gapped_curve x_plot (plotting.ne p)) /\
  match degraded, plotting.degraded out with
  | None, plotting.Invalid => True
  | Some d, plotting.Valid th _ c =>
      th = {| ocv_degraded.LLI := ocv_degraded.lli d;
              ocv_degraded.LAM_PE := ocv_degraded.lam_pe d;
              ocv_degraded.LAM_NE := ocv_degraded.lam_ne d |} /\
      gapped_curve x_plot (plotting.cell c) /\ gapped_curve x_plot (plotting.pe c) /\
      gapped_curve x_plot (plotting.ne c)
  | _, _ => False
  end.
Proof.
  cbv zeta. unfold plotting.map_curves_to_plot_x.
  set (mask := map (fun x => (0 <=? x) && (x <=? 1)) x_plot).
  assert (Hm : length mask = length x_plot) by apply length_map.
  intros H.
  step_bind H as c0 H0. step_bind H as c1 H1. step_bind H as c2 H2.
  destruct (interp_on_mask_inv np_interp x_plot mask _ _ c0 Hm H0) as [G0 _].
  destruct (interp_on_mask_inv np_interp x_plot mask _ _ c1 Hm H1) as [G1 _].
  destruct (interp_on_mask_inv np_interp x_plot mask _ _ c2 Hm H2) as [G2 _].
  destruct degraded as [d|].
  2:{ injection H as <-. cbn [plotting.pristine plotting.degraded plotting.cell
                              plotting.pe plotting.ne]. auto. }
  set (mask_cell := map (fun x => (ocv_degraded.x_cell_eoc d <=? x)
                                  && (x <=? ocv_degraded.x_cell_eod d)) x_plot) in *.
  assert (Hmc : length mask_cell = length x_plot) by apply length_map.
  step_bind H as c3 H3.
  destruct (interp_on_mask_inv np_interp x_plot mask_cell _ _ c3 Hmc H3) as [G3 _].
  step_bind H as a1 Ha1. step_bind H as a2 Ha2.
  step_bind H as v1 Hv1. step_bind H as c4 H4.
  step_bind H as v2 Hv2. step_bind H as c5 H5.
  injection H as <-.
  cbn [plotting.pristine plotting.degraded plotting.cell plotting.pe plotting.ne].
  destruct (np_setmask_inv _ _ _ _ H4) as (M4 & L4 & N4 & _).
  destruct (np_setmask_inv _ _ _ _ H5) as (M5 & L5 & N5 & _).
  split; [auto|]. split; [reflexivity|]. split; [exact G3|].
  split; unfold gapped_curve; cbn [plotting.curve_ocv plotting.mask_valid]; auto.
Qed.

Hypothesis interp_total :
  forall x xp fp, xp <> [] -> length fp = length xp ->
    exists y, np_interp x xp fp = Returns y /\ length y = length x.

Lemma interp_on_mask_returns (x_plot : list float) (mask : list bool)
  (xp fp : list float) :
  length mask = length x_plot -> xp <> [] -> length fp = length xp ->
  exists r, plotting.interp_on_mask np_interp x_plot mask xp fp = Returns r.
Proof.
  intros Hm Hxp Hfp. unfold plotting.interp_on_mask.
  rewrite np_getmask_same by congruence. cbn [bind].
  destruct (interp_total (compress x_plot mask) xp fp Hxp Hfp) as (y & -> & Hy).
  cbn [bind]. unfold plotting.np_setmask, np_full_like.
  rewrite length_map, <- Hm, Nat.eqb_refl. cbn [negb].
  rewrite length_compress in Hy by congruence. rewrite Hy, Nat.eqb_refl.
  eexists. reflexivity.
Qed.

Lemma map_curves_returns (pristine : ocv_pristine.PristineCell)
  (degraded : option ocv_degraded.DegradedOcvRaw) (x_plot : list float) :
  ocv_pristine.x_grid pristine <> [] ->
  length (ocv_pristine.ocv_cell pristine) = length (ocv_pristine.x_grid pristine) ->
  length (ocv_pristine.ocv_nmc pristine) = length (ocv_pristine.x_grid pristine) ->
  length (ocv_pristine.ocv_gra pristine) = length (ocv_pristine.x_grid pristine) ->
  (forall d, degraded = Some d ->
     ocv_degraded.capacity_norm d <> [] /\
     length (ocv_degraded.ocv_cell d) = length (ocv_degraded.capacity_norm d)) ->
  exists out,
    plotting.map_curves_to_plot_x np_interp pristine degraded x_plot = Returns out.
Proof.
  intros Hx Hc Hn Hg Hd. unfold plotting.map_curves_to_plot_x.
  set (mask := map (fun x => (0 <=? x) && (x <=? 1)) x_plot).
  assert (Hm : length mask = length x_plot) by apply length_map.
  destruct (interp_on_mask_returns x_plot mask _ _ Hm Hx Hc) as [c0 ->].
  destruct (interp_on_mask_returns x_plot mask _ _ Hm Hx Hn) as [c1 ->].
  destruct (interp_on_mask_returns x_plot mask _ _ Hm Hx Hg) as [c2 ->].
  cbn [bind]. destruct degraded as [d|]; [|eexists; reflexivity].
  destruct (Hd d eq_refl) as [Hcap Hocv].
  set (mask_cell := map (fun x => (ocv_degraded.x_cell_eoc d <=? x)
                                  && (x <=? ocv_degraded.x_cell_eod d)) x_plot).
  assert (Hmc : length mask_cell = length x_plot) by apply length_map.
  destruct (interp_on_mask_returns x_plot mask_cell _ _ Hmc Hcap Hocv) as [c3 ->].
  cbn [bind]. unfold ocv_pristine.eval_ocv. cbn [bind].
  unfold ocv_pristine.sol_nmc_from_x, ocv_pristine.sol_gra_from_x.
  rewrite !map_map.
  match goal with
  | |- context [np_getmask (map ?f x_plot) (zip_with andb (map ?g x_plot) mask_cell)] =>
      set (pe_all := map f x_plot);
      set (mask_pe := zip_with andb (map g x_plot) mask_cell)
  end.
  assert (Lpe : length pe_all = length x_plot) by apply length_map.
  assert (Lmpe : length mask_pe = length x_plot)
    by (unfold mask_pe; rewrite length_zip_with; rewrite !length_map; congruence).
  rewrite (np_getmask_same pe_all mask_pe) by congruence. cbn [bind].
  destruct (np_setmask_compress_returns x_plot mask_pe pe_all Lpe Lmpe) as [c4 ->].
  cbn [bind].
  match goal with
  | |- context [np_getmask (map ?f x_plot) (zip_with andb (map ?g x_plot) mask_cell)] =>
      set (ne_all := map f x_plot);
      set (mask_ne := zip_with andb (map g x_plot) mask_cell)
  end.
  assert (Lne : length ne_all = length x_plot) by apply length_map.
  assert (Lmne : length mask_ne = length x_plot)
    by (unfold mask_ne; rewrite length_zip_with; rewrite !length_map; congruence).
  rewrite (np_getmask_same ne_all mask_ne) by congruence. cbn [bind].
  destruct (np_setmask_compress_returns x_plot mask_ne ne_all Lne Lmne) as [c5 ->].
  cbn [bind]. eexists. reflexivity.
Qed.

(** X21: once the pristine cell is built, and with an [np.interp] that
    returns one value per query point on non-empty samples, the curves
    endpoint returns a response: it echoes the profile id and the
    requested parameters; each of its bundles has [num_points] entries in
    [x], [ocv] and [mask_valid], holds no infinity, and has NaN in [ocv]
    wherever the mask is false; the degraded section is invalid exactly when
    the forward solve returned [None], and a valid one repeats the
    requested parameters. *)
Theorem curves_endpoint_returns (profile_id : string)
  (nmc_raw gra_raw : option (list (float * float)))
  (endpoints : list (string * float)) (n : Z) (lli lam_pe lam_ne : float)
  (include_plot_domain_padding : bool) (cell : ocv_pristine.PristineCell) :
  pristine_csv.build_pristine_cell_from_csv PchipInterpolator profile_id
    nmc_raw gra_raw endpoints n = Returns cell ->
  exists resp,
    curves_endpoint.ocv_curves PchipInterpolator np_interp profile_id
      nmc_raw gra_raw endpoints n lli lam_pe lam_ne include_plot_domain_padding
    = Returns resp /\
    curves_endpoint.pristine_id resp = profile_id /\
    curves_endpoint.theta_deg resp
    = {| ocv_degraded.LLI := lli; ocv_degraded.LAM_PE := lam_pe;
         ocv_degraded.LAM_NE := lam_ne |} /\
    sound_bundles (Z.to_nat n) (curves_endpoint.pristine resp) /\
    (curves_endpoint.degraded resp = curves_endpoint.NotValid <->
     ocv_degraded.calculate_degraded_ocv_raw cell lli lam_pe lam_ne n = Returns None) /\
    (forall th res c,
       curves_endpoint.degraded resp = curves_endpoint.IsValid th res c ->
       th = curves_endpoint.theta_deg resp /\ sound_bundles (Z.to_nat n) c).
Proof.
  intros Hbuild. unfold curves_endpoint.ocv_curves. rewrite Hbuild. cbn [bind].
  destruct (built_cell_lengths _ _ _ _ _ _ Hbuild) as (Hn & Lx & Lnmc & Lgra & Lcell).
  assert (Hx : ocv_pristine.x_grid cell <> [])
    by (intros E; rewrite E in Lx; cbn in Lx; lia).
  destruct (solve_returns backend cell lli lam_pe lam_ne n ltac:(lia)) as [r Hr].
  rewrite Hr. cbn [bind].
  destruct (plot_axis_returns (ocv_pristine.x_grid cell) r include_plot_domain_padding
              Hx) as (axis & -> & Laxis).
  cbn [bind]. rewrite Lx in Laxis.
  assert (Hdeg : forall d, r = Some d ->
            ocv_degraded.capacity_norm d <> [] /\
            length (ocv_degraded.ocv_cell d) = length (ocv_degraded.capacity_norm d)).
  { intros d ->. destruct (degraded_lengths backend _ _ _ _ _ _ Hr) as (L1 & L2 & _).
    split; [|congruence]. intros E. rewrite E in L1. cbn in L1. lia. }
  destruct (map_curves_returns cell r axis Hx ltac:(congruence) ltac:(congruence)
              ltac:(congruence) Hdeg) as [out Hout].
  rewrite Hout. cbn [bind]. eexists. split; [reflexivity|].
  cbn [curves_endpoint.pristine_id curves_endpoint.theta_deg curves_endpoint.pristine
       curves_endpoint.degraded].
  split; [reflexivity|]. split; [reflexivity|].
  destruct (map_curves_gapped cell r axis out Hout) as ((G0 & G1 & G2) & Hd).
  split.
  { unfold sound_bundles, curves_endpoint.bundles.
    cbn [curves_endpoint.cell curves_endpoint.pe curves_endpoint.ne].
    rewrite <- Laxis. split; [|split]; now apply bundle_sound. }
  destruct r as [d|]; destruct (plotting.degraded out) as [|th res c];
    try contradiction.
  - destruct Hd as (Hth & G3 & G4 & G5).
    destruct (degraded_lengths backend _ _ _ _ _ _ Hr) as (_ & _ & E1 & E2 & E3).
    split; [split; discriminate|].
    intros th' res' c' E. injection E as <- <- <-.
    split; [rewrite Hth; congruence|].
    unfold sound_bundles, curves_endpoint.bundles.
    cbn [curves_endpoint.cell curves_endpoint.pe curves_endpoint.ne].
    rewrite <- Laxis. split; [|split]; now apply bundle_sound.
  - split; [split; reflexivity|]. intros th res c. discriminate.
Qed.

End CurvesEndpoint.

Lemma curves_endpoint_returns_witness :
  exists resp,
    curves_endpoint.ocv_curves (backend := example.backend)
      example2.chord example2.interp "demo"%string
      (Some example2.nmc_rows) (Some example2.gra_rows) example2.endpoints 3
      0 0 0 true
    = Returns resp /\
    sound_bundles 3 (curves_endpoint.pristine resp).
Proof.
  destruct example_cell_built as [cell H].
  destruct (curves_endpoint_returns (backend := example.backend)
              example2.chord example2.interp
              ltac:(intros x [|p xp] fp Hxp Hfp; [congruence|];
                    eexists; split; [reflexivity | apply length_map])
              "demo"%string _ _ _ 3 0 0 0 true cell H)
    as (resp & Hr & _ & _ & Hs & _).
  exists resp. split; [exact Hr | exact Hs].
Defined.

(* ================================================================== *)
(** * The voltage limits of a built cell *)
(* ================================================================== *)

Section BuildVoltage.

Variable PchipInterpolator : list float -> list float -> outcome (float -> float).

(** X22: in a built cell with at least 2 grid points the grid ends
    exactly at 1 and [v_min] is the full-cell OCV there, the difference
    of the two electrode OCVs at [x = 1]; with a single grid point the
    grid is [[0]] and [v_min] and [v_max] are both the full-cell OCV at
    [x = 0]. *)
Theorem built_cell_voltage_limits (profile_id : string)
  (nmc_raw gra_raw : option (list (float * float)))
  (endpoints : list (string * float)) (n : Z) (cell : ocv_pristine.PristineCell) :
  pristine_csv.build_pristine_cell_from_csv PchipInterpolator profile_id
    nmc_raw gra_raw endpoints n = Returns cell ->
  ((2 <= n)%Z ->
   nth_error (ocv_pristine.x_grid cell) (Z.to_nat n - 1) = Some 1 /\
   ocv_pristine.v_min cell = pe_ocv_at cell 1 - ne_ocv_at cell 1) /\
  (n = 1%Z ->
   ocv_pristine.x_grid cell = [0] /\
   ocv_pristine.v_max cell = pe_ocv_at cell 0 - ne_ocv_at cell 0 /\
   ocv_pristine.v_min cell = ocv_pristine.v_max cell).
Proof.
  unfold pristine_csv.build_pristine_cell_from_csv. intros H.
  step_bind H as tn Ltn. step_bind H as tg Ltg.
  step_bind H as fn Pn. step_bind H as fg Pg.
  step_bind H as nmin Hnmin. step_bind H as nmax Hnmax.
  step_bind H as gmin Hgmin. step_bind H as gmax Hgmax.
  step_bind H as xg Hlin.
  step_bind H as ne0 Kn0. step_bind H as ne1 Kn1.
  step_bind H as ge0 Kg0. step_bind H as ge1 Kg1.
  unfold ocv_pristine.eval_ocv in H. cbn [bind] in H.
  rewrite np_broadcast_same in H by now rewrite !length_map.
  cbn [bind] in H. cbn [ocv_pristine.interp_extrapolate] in H.
  rewrite !map_map in H.
  step_bind H as vmax Hv0. step_bind H as vmin Hv1.
  injection H as <-.
  unfold pe_ocv_at, ne_ocv_at.
  cbn [ocv_pristine.x_grid ocv_pristine.v_min ocv_pristine.v_max ocv_pristine.nmc
       ocv_pristine.gra ocv_pristine.endpoints ocv_pristine.interp_extrapolate
       ocv_pristine.sol_nmc_eoc ocv_pristine.sol_nmc_eod ocv_pristine.sol_gra_eoc
       ocv_pristine.sol_gra_eod].
  destruct (np_linspace_length _ _ _ _ Hlin) as [Hn Hlen].
  split.
  - intros H2.
    assert (Hlast : nth_error xg (Z.to_nat n - 1) = Some 1).
    { destruct (nth_error xg (Z.to_nat n - 1)) as [c|] eqn:Hc.
      2:{ apply nth_error_None in Hc. lia. }
      rewrite (np_linspace_samples _ _ _ _ _ _ Hlin Hc). unfold linspace_sample.
      replace (1 <? n)%Z with true by (symmetry; apply Z.ltb_lt; lia).
      replace (Z.of_nat (Z.to_nat n - 1) =? n - 1)%Z with true
        by (symmetry; apply Z.eqb_eq; lia).
      reflexivity. }
    split; [exact Hlast|].
    apply last_item_nth in Hv1.
    rewrite length_zip_with in Hv1 by now rewrite !length_map.
    rewrite length_map, Hlen in Hv1.
    rewrite (nth_error_zip_with sub _ _ (Z.to_nat n - 1)
               (fn (ne0 + 1 * (ne1 - ne0))) (fg (ge0 + 1 * (ge1 - ge0)))) in Hv1.
    + now injection Hv1 as <-.
    + now rewrite nth_error_map, Hlast.
    + now rewrite nth_error_map, Hlast.
  - intros ->. vm_compute in Hlin. injection Hlin as <-.
    cbn [map zip_with ocv_degraded.item0 pristine_csv.last_item last] in Hv0, Hv1.
    injection Hv0 as <-. injection Hv1 as <-.
    split; [reflexivity|]. split; reflexivity.
Qed.

End BuildVoltage.

Lemma built_cell_voltage_limits_witness :
  exists cell,
    pristine_csv.build_pristine_cell_from_csv example2.chord "demo"%string
      (Some example2.nmc_rows) (Some example2.gra_rows) example2.endpoints 3
    = Returns cell /\
    ocv_pristine.v_min cell = pe_ocv_at cell 1 - ne_ocv_at cell 1.
Proof.
  destruct example_cell_built as [cell H]. exists cell. split; [exact H|].
  destruct (built_cell_voltage_limits example2.chord _ _ _ _ 3 cell H) as [H2 _].
  exact (proj2 (H2 ltac:(lia))).
Defined.

(* ================================================================== *)
(** * Loading data that is already clean *)
(* ================================================================== *)

Lemma ascending_adjacent (a : list float) :
  strictly_ascending a ->
  forall i, (S i < length a)%nat -> (nth i a nan <=? nth (S i) a nan) = true.
Proof.
  unfold strictly_ascending. induction 1 as [|x a Hs IH Hx]; intros i Hi;
    [cbn in Hi; lia|].
  destruct i as [|i].
  - destruct a as [|y a]; [cbn in Hi; lia|]. cbn [nth].
    inversion Hx; subst. now apply ltb_leb.
  - cbn [nth]. apply IH. cbn [length] in Hi. lia.
Qed.

Lemma fold_insert_seq (a : list float) :
  (forall i, (S i < length a)%nat -> (nth i a nan <=? nth (S i) a nan) = true) ->
  forall m k, (k + m <= length a)%nat ->
    fold_right (insert_index a) [] (seq k m) = seq k m.
Proof.
  intros Hadj. induction m as [|m IH]; intros k Hk; [reflexivity|].
  cbn [seq fold_right]. rewrite IH by lia.
  destruct m as [|m]; [reflexivity|].
  cbn [seq insert_index]. rewrite Hadj by lia. reflexivity.
Qed.

Lemma np_argsort_ascending_id (a : list float) :
  strictly_ascending a -> np_argsort a = seq 0 (length a).
Proof.
  intros Hs. unfold np_argsort.
  apply fold_insert_seq; [now apply ascending_adjacent | lia].
Qed.

Lemma take_seq_id (a : list float) (n : nat) :
  n = length a -> np_take a (seq 0 n) = a.
Proof.
  intros ->. unfold np_take. induction a as [|x a IH]; [reflexivity|].
  cbn [length seq map nth]. f_equal.
  rewrite <- seq_shift, map_map. exact IH.
Qed.

Lemma filter_all {A : Type} (f : A -> bool) (l : list A) :
  Forall (fun x => f x = true) l -> filter f l = l.
Proof.
  induction 1 as [|x l Hx _ IH]; [reflexivity|].
  cbn [filter]. now rewrite Hx, IH.
Qed.

Lemma map_fst_combine_eq {A B : Type} (a : list A) (b : list B) :
  length a = length b -> map fst (combine a b) = a.
Proof.
  revert b. induction a as [|x a IH]; intros [|y b] H; cbn in *; try congruence.
  f_equal. apply IH. congruence.
Qed.

Lemma map_snd_combine_eq {A B : Type} (a : list A) (b : list B) :
  length a = length b -> map snd (combine a b) = b.
Proof.
  revert b. induction a as [|x a IH]; intros [|y b] H; cbn in *; try congruence.
  f_equal. apply IH. congruence.
Qed.

Lemma strictly_ascending_distinct (a : list float) :
  strictly_ascending a -> Sorted (fun x y => (x =? y) = false) a.
Proof.
  intros Hs. apply StronglySorted_Sorted in Hs.
  induction Hs as [|x a Hs IH Hx]; constructor; [exact IH|].
  destruct Hx as [|y a Hxy]; constructor.
  destruct (ltb_not_nan _ _ Hxy) as [Nx Ny].
  rewrite ltb_fkey in Hxy by assumption. rewrite eqb_fkey by assumption.
  apply Z.ltb_lt in Hxy. apply Z.eqb_neq. lia.
Qed.

(** X23: loading leaves a clean series as it is: when the capacities
    are strictly ascending, every value is finite and there is one OCV
    per capacity, a series that the loader returns is exactly the two
    arrays of the file. *)
Theorem load_fixes_clean_series (cap ocv : list float)
  (m : ocv_degraded.MeasuredOcv) :
  strictly_ascending cap ->
  Forall (fun c => is_finite c = true) cap ->
  Forall (fun v => is_finite v = true) ocv ->
  length ocv = length cap ->
  ocv_degraded.load_measured_ocv_from_mat
    (Some {| ocv_degraded.mat_capacity := Some cap;
             ocv_degraded.mat_ocv := Some ocv |})
  = Returns m ->
  m = {| ocv_degraded.capacity := cap; ocv_degraded.ocv := ocv |}.
Proof.
  intros Hs Hfc Hfo Hlen. unfold ocv_degraded.load_measured_ocv_from_mat.
  cbn [ocv_degraded._get_field ocv_degraded.mat_capacity ocv_degraded.mat_ocv bind].
  rewrite <- Hlen, Nat.eqb_refl. cbn [negb].
  destruct (np_getmask_finite_pairs cap ocv (eq_sym Hlen)) as [-> ->]. cbn [bind].
  assert (Hall : finite_pairs cap ocv = combine cap ocv).
  { unfold finite_pairs. apply filter_all. apply Forall_forall. intros [c v] Hin.
    cbn [fst snd]. unfold np_isfinite.
    rewrite (proj1 (Forall_forall _ _) Hfc c (in_combine_l _ _ _ _ Hin)).
    rewrite (proj1 (Forall_forall _ _) Hfo v (in_combine_r _ _ _ _ Hin)).
    reflexivity. }
  rewrite Hall, map_fst_combine_eq, map_snd_combine_eq by congruence.
  destruct (length cap <? 3)%nat; [discriminate|].
  rewrite (np_argsort_ascending_id cap Hs).
  rewrite (take_seq_id cap _ eq_refl), (take_seq_id ocv _ (eq_sym Hlen)).
  intros H. injection H as <-. reflexivity.
Qed.

Lemma load_fixes_clean_series_witness :
  exists m,
    ocv_degraded.load_measured_ocv_from_mat
      (Some {| ocv_degraded.mat_capacity := Some [0; 0.25; 0.5];
               ocv_degraded.mat_ocv := Some [3.75; 3.5; 3.25] |})
    = Returns m /\
    m = {| ocv_degraded.capacity := [0; 0.25; 0.5];
           ocv_degraded.ocv := [3.75; 3.5; 3.25] |}.
Proof.
  eexists.
  match goal with
  | |- ?A /\ _ => assert (H : A) by (vm_compute; reflexivity)
  end.
  split; [exact H|].
  exact (load_fixes_clean_series [0; 0.25; 0.5] [3.75; 3.5; 3.25] _
           ltac:(repeat constructor) ltac:(repeat constructor)
           ltac:(repeat constructor) eq_refl H).
Defined.

(** X24: a half-cell table that is already clean is returned unchanged:
    when the lithiation values are strictly ascending, every value is
    finite and there are at least 2 rows, the loader returns the two
    columns as they are, without averaging. *)
Theorem half_cell_fixes_clean_table (rows : list (float * float)) :
  strictly_ascending (map fst rows) ->
  Forall (fun p => is_finite (fst p) = true /\ is_finite (snd p) = true) rows ->
  (2 <= length rows)%nat ->
  pristine_csv._load_half_cell_csv (Some rows)
  = Returns (map fst rows, map snd rows).
Proof.
  intros Hs Hf H2. rewrite load_half_cell_steps.
  assert (Hall : finite_rows rows = rows).
  { unfold finite_rows. apply filter_all.
    apply Forall_forall. intros p Hp. unfold np_isfinite.
    destruct (proj1 (Forall_forall _ _) Hf p Hp) as [-> ->]. reflexivity. }
  rewrite Hall. rewrite (np_argsort_ascending_id _ Hs).
  rewrite (take_seq_id (map fst rows) _ eq_refl).
  rewrite (take_seq_id (map snd rows) (length (map fst rows)))
    by now rewrite !length_map.
  assert (Hruns : map fst (pristine_csv.group_runs (map fst rows) (map snd rows))
                  = map fst rows).
  { apply group_runs_distinct; [now rewrite !length_map|].
    now apply strictly_ascending_distinct. }
  assert (Hlen : length (pristine_csv.group_runs (map fst rows) (map snd rows))
                 = length rows).
  { rewrite <- (length_map fst (pristine_csv.group_runs _ _)), Hruns.
    apply length_map. }
  rewrite Hruns, Hlen, !length_map, Nat.eqb_refl. cbn [negb].
  replace (length rows =? 0)%nat with false by (symmetry; apply Nat.eqb_neq; lia).
  replace (length rows <? 2)%nat with false by (symmetry; apply Nat.ltb_ge; lia).
  reflexivity.
Qed.

Lemma half_cell_fixes_clean_table_witness :
  pristine_csv._load_half_cell_csv (Some [(0, 4); (0.5, 3.5); (1, 3)])
  = Returns ([0; 0.5; 1], [4; 3.5; 3]).
Proof.
  apply (half_cell_fixes_clean_table [(0, 4); (0.5, 3.5); (1, 3)]).
  - repeat constructor.
  - repeat constructor.
  - cbn. lia.
Defined.

(* ================================================================== *)
(** * The boundary equations handed to the root solver *)
(* ================================================================== *)

(** X25: for the parameters that pass the two guards of the forward
    solve ([LAM_PE < 1] and [LAM_NE < 1], or NaN), the residual function
    given to the root solver returns at every point: none of its four
    divisions raises [ZeroDivisionError].  Its residuals are [v_max]
    minus the full-cell OCV at the start of the window and [v_min] minus
    the full-cell OCV at its end, each electrode read at its own
    position. *)
Theorem boundary_equations_defined
  (pristine : ocv_pristine.PristineCell) (lli lam_pe lam_ne : float) (vars_ : vec2) :
  (1 <=? lam_pe) = false -> (1 <=? lam_ne) = false ->
  let dx_eoc := fst vars_ in
  let dx_eod := snd vars_ in
  ocv_degraded.equations pristine lli lam_pe lam_ne vars_
  = Returns
      (ocv_pristine.v_max pristine
       - pe_ocv_at pristine (dx_eoc / (1 - lam_pe))
       + ne_ocv_at pristine ((dx_eoc + lli - lam_ne) / (1 - lam_ne)),
       ocv_pristine.v_min pristine
       - pe_ocv_at pristine ((dx_eod + 1 - lli) / (1 - lam_pe))
       + ne_ocv_at pristine ((dx_eod + 1 - lam_ne) / (1 - lam_ne))).
Proof.
  intros Hpe Hne. cbv zeta.
  rewrite <- sub_one_nonpos in Hpe, Hne.
  apply leb_false_neq0 in Hpe, Hne.
  unfold ocv_degraded.equations.
  rewrite !(py_truediv_nonzero _ _ Hpe), !(py_truediv_nonzero _ _ Hne).
  reflexivity.
Qed.

Lemma boundary_equations_defined_witness :
  ocv_degraded.equations example.cell 0 0 0 (0, 0) = Returns (0, 0).
Proof.
  exact (boundary_equations_defined example.cell 0 0 0 (0, 0) eq_refl eq_refl).
Defined.
